(** * chris_ros_modeling: classification and reconciliation engine

    A shallow embedding of the parts of [chris_ros_modeling],
    [chris_ros_snapshot] and [chris_haros_model_merger] that decide the
    behaviour of entity classification (action grouping, nodelet manager
    detection), token matching, and the HAROS/CHRIS merge bookkeeping.

    Python dictionaries are [gmap]s, Python sets are [gset]s, [str] is
    [string]; calls that can raise return a [result]; the logger is a list
    of records threaded through the functions that log. *)

From Stdlib Require Import ZArith Ascii.
From stdpp Require Import gmap strings list sorting.

Set Warnings "-register-all,-clear-no-such-hyp".


(** ** Python string primitives used by the sources *)

Module PyStr.

(** [s.split(sep)] for a one-character separator: never empty. *)
Fixpoint split (sep : ascii) (s : string) : list string :=
  match s with
  | "" => [""]
  | String a s' =>
      if decide (a = sep) then "" :: split sep s'
      else match split sep s' with
           | [] => [String a ""]
           | h :: t => String a h :: t
           end
  end.

(** [sep.join(l)] *)
Fixpoint join (sep : string) (l : list string) : string :=
  match l with
  | [] => ""
  | [x] => x
  | x :: l' => x +:+ sep +:+ join sep l'
  end.

(** [l[-1]] on the (non-empty) result of a split *)
Definition last_token (l : list string) : string := List.last l "".

(** [l[0:len(l)-1]] *)
Definition but_last (l : list string) : list string := removelast l.

Fixpoint lstrip (s : string) : string :=
  match s with
  | "" => ""
  | String a s' => if Ascii.is_space a then lstrip s' else s
  end.

(** [rstrip]: drop the trailing run of white space *)
Fixpoint rstrip (s : string) : string :=
  match s with
  | "" => ""
  | String a s' =>
      match rstrip s' with
      | "" => if Ascii.is_space a then "" else String a ""
      | r => String a r
      end
  end.

(** [s.strip()] *)
Definition strip (s : string) : string := lstrip (rstrip s).

(** [s.endswith(suf)] *)
Fixpoint endswith (s suf : string) : bool :=
  if String.eqb s suf then true
  else match s with
       | "" => false
       | String _ s' => endswith s' suf
       end.

(** [t in s] on strings: [t] occurs in [s] as a contiguous substring *)
Fixpoint contains (t s : string) : bool :=
  if String.prefix t s then true
  else match s with
       | "" => false
       | String _ s' => contains t s'
       end.

(** [s[:-n]]; Python reads [s[:-0]] as [s[:0]], the empty string *)
Definition drop_last (n : nat) (s : string) : string :=
  match n with
  | O => ""
  | _ => String.substring 0 (String.length s - n) s
  end.

(** [sorted(xs)] on strings (byte-wise lexicographic order) *)
Definition sorted (l : list string) : list string := merge_sort String.le l.

(** [sorted(set(xs))] *)
Definition sorted_set (s : gset string) : list string := sorted (elements s).

End PyStr.

(** ** Exceptions and the logger *)

Inductive exn : Set :=
| KeyError (key : string)
| ValueError (msg : string)
| TypeError
| AttributeError
| IndexError
| Unmodelled (* the call leaves the modelled fragment of Python *).

Inductive result (A : Type) : Type :=
| Returns (a : A)
| Raises (e : exn).
Arguments Returns {A} a.
Arguments Raises {A} e.

Global Instance result_ret : MRet result := fun _ a => Returns a.
Global Instance result_bind : MBind result := fun _ _ k r =>
  match r with
  | Returns a => k a
  | Raises e => Raises e
  end.

Inductive LoggerLevel : Set := DEBUG | INFO | WARNING | ERROR.

Record log_record : Set := LogRecord { level : LoggerLevel; message : string }.

Definition logger := list log_record.

(** [Logger.get_logger().log(level, message)]: append to the trace *)
Definition log (lg : logger) (l : LoggerLevel) (m : string) : logger :=
  lg ++ [LogRecord l m].

Global Instance LoggerLevel_eq_dec : EqDecision LoggerLevel.
Proof. solve_decision. Defined.
Global Instance log_record_eq_dec : EqDecision log_record.
Proof. solve_decision. Defined.

(** ** base_metamodel.py: [_EntityMetamodel] *)

Module Metamodel.

(** Attribute values.  Dictionaries of the metamodels map names to a type or
    remapped name (or [None]); sets hold names; [VObj] stands for any other
    object, compared by identity. *)
Inductive value : Type :=
| VNone
| VInt (n : Z)
| VStr (s : string)
| VList (l : list value)
| VDict (d : gmap string (option string))
| VSet (s : gset string)
| VObj (id : N).

(** Python's [==] on the modelled values *)
Fixpoint value_eqb (v w : value) {struct v} : bool :=
  match v, w with
  | VNone, VNone => true
  | VInt n, VInt m => bool_decide (n = m)
  | VStr s, VStr t => bool_decide (s = t)
  | VList l, VList l' =>
      (fix go (l l' : list value) {struct l} : bool :=
         match l, l' with
         | [], [] => true
         | x :: l, y :: l' => value_eqb x y && go l l'
         | _, _ => false
         end) l l'
  | VDict d, VDict d' => bool_decide (d = d')
  | VSet s, VSet s' => bool_decide (s = s')
  | VObj i, VObj j => bool_decide (i = j)
  | _, _ => false
  end.

(** [x in l] on a Python list *)
Definition value_in (x : value) (l : list value) : bool :=
  existsb (value_eqb x) l.

(** An entity: its class name and its instance dictionary. *)
Record entity : Type := Entity { cls : string; attrs : gmap string value }.

Definition setattr (e : entity) (key : string) (v : value) : entity :=
  Entity (cls e) (<[key := v]> (attrs e)).

(** The one-character strings of [t], as [set.update(t)] adds them *)
Fixpoint chars (t : string) : gset string :=
  match t with
  | EmptyString => ∅
  | String a t' => {[ String a EmptyString ]} ∪ chars t'
  end.

(** The strings of a list of values, when all of them are strings *)
Fixpoint all_strs (l : list value) : option (gset string) :=
  match l with
  | [] => Some ∅
  | VStr s :: l' => (fun r => {[ s ]} ∪ r) <$> all_strs l'
  | _ :: _ => None
  end.

Definition unhashable (v : value) : bool :=
  match v with VList _ | VDict _ | VSet _ => true | _ => false end.

(** [d.update(x)] on a dictionary attribute *)
Definition dict_update (d : gmap string (option string)) (x : value)
  : result (gmap string (option string)) :=
  match x with
  | VDict d' => Returns (d' ∪ d)
  | VStr EmptyString | VList [] => Returns d
  | VStr (String _ _) => Raises (ValueError "dictionary update sequence element")
  | VInt _ | VNone => Raises TypeError
  | _ => Raises Unmodelled
  end.

(** [s.update(x)] on a set attribute *)
Definition set_update (s : gset string) (x : value) : result (gset string) :=
  match x with
  | VSet s' => Returns (s ∪ s')
  | VStr t => Returns (s ∪ chars t)
  | VDict d => Returns (s ∪ dom d)
  | VList l =>
      match all_strs l with
      | Some s' => Returns (s ∪ s')
      | None => if existsb unhashable l then Raises TypeError
                else Raises Unmodelled
      end
  | VInt _ | VNone => Raises TypeError
  | VObj _ => Raises Unmodelled
  end.

Section update_attributes.

(** The built-ins [int(.)] and [str(.)] on values other than integers and
    strings are left to the interpreter. *)
Variable int_of_str : string → option Z.
Variable int_of_obj : N → option Z.
Variable repr_of : value → string.

(** [int(v)], [None] when it raises *)
Definition py_int (v : value) : option Z :=
  match v with
  | VInt n => Some n
  | VStr s => int_of_str s
  | VObj i => int_of_obj i
  | _ => None
  end.

(** [str(v)] *)
Definition py_str (v : value) : string :=
  match v with
  | VStr s => s
  | _ => repr_of v
  end.

(** One iteration of the loop of [update_attributes], for [key] and
    [kwargs[key]]. *)
Definition update_attribute (st : entity * logger) (kv : string * value)
  : result (entity * logger) :=
  let '(e, lg) := st in
  let '(key, new) := kv in
  match attrs e !! key with
  | None =>
      (* AttributeError: a new attribute is added *)
      match attrs e !! "name" with
      | None => Raises AttributeError
      | Some nm =>
          Returns (setattr e key new,
                   log lg WARNING ("Adding new attribute " +:+ key +:+ " to "
                                   +:+ py_str nm +:+ " (" +:+ cls e +:+ ")."))
      end
  | Some VNone => Returns (setattr e key new, lg)
  | Some val =>
      if value_eqb val new && negb (bool_decide (key = "version")) then
        Returns (e, lg)
      else if value_eqb new VNone then Returns (e, lg)
      else if bool_decide (key = "version") then
        match val with
        | VInt n =>
            let n' := match py_int new with
                      | Some n2 => Z.max n n2
                      | None => n
                      end in
            Returns (setattr e key (VInt (n' + 1)), lg)
        | _ => Returns (setattr e key
                          (VStr (py_str val +:+ "_" +:+ py_str new)), lg)
        end
      else
        match val with
        | VList l =>
            match new with
            | VList l' => Returns (setattr e key (VList (l ++ l')), lg)
            | _ => if value_in new l then Returns (e, lg)
                   else Returns (setattr e key (VList (l ++ [new])), lg)
            end
        | VDict d =>
            d' ← dict_update d new; Returns (setattr e key (VDict d'), lg)
        | VSet s =>
            s' ← set_update s new; Returns (setattr e key (VSet s'), lg)
        | VStr s =>
            match new with
            | VList l' => Returns (setattr e key (VList (VStr s :: l')), lg)
            | _ => if value_in new [VStr s] then
                     Returns (setattr e key (VList [VStr s]), lg)
                   else Returns (setattr e key (VList [VStr s; new]), lg)
            end
        | _ => Returns (setattr e key new, lg)
        end
  end.

(** [update_attributes], its keyword arguments in the order the loop
    visits them *)
Fixpoint update_attributes (st : entity * logger)
    (kwargs : list (string * value)) : result (entity * logger) :=
  match kwargs with
  | [] => Returns st
  | kv :: rest => st' ← update_attribute st kv; update_attributes st' rest
  end.

End update_attributes.

End Metamodel.

(** ** chris_ros_snapshot: entity builders *)

Module Snapshot.

(** The process-wide filters ([filters.NodeFilter] and friends) are
    configuration: [should_filter_out] of each is a parameter. *)
Class Filters : Type := {
  node_should_filter_out : string → bool;
  topic_should_filter_out : string → bool;
  service_type_should_filter_out : string → bool
}.

(** filters.py with its defaults ([FILTER_OUT_DEBUG] and [FILTER_OUT_TF]
    off): only the base exclusions apply, and only the node filter has
    one. *)
Definition default_filters : Filters := {|
  node_should_filter_out := λ item, bool_decide (item = "/roslaunch");
  topic_should_filter_out := λ _, false;
  service_type_should_filter_out := λ _, false
|}.

(** *** base_builders.py: [_EntityBuilder] names *)

Definition name_tokens (name : string) : list string := PyStr.split "/"%char name.

(** ['/{}'.format(name_tokens[-1])] *)
Definition name_suffix (name : string) : string :=
  "/" +:+ PyStr.last_token (name_tokens name).

(** ['/'.join(name_tokens[0:len(name_tokens) - 1])] *)
Definition name_base (name : string) : string :=
  PyStr.join "/" (PyStr.but_last (name_tokens name)).

(** *** topic_builder.py *)

Record TopicBuilder : Type := {
  tb_name : string;
  tb_construct_type : option string;
  tb_published : gset string;   (* [_node_names['published']] *)
  tb_subscribed : gset string   (* [_node_names['subscribed']] *)
}.

(** [TopicBuilder(name)] *)
Definition TopicBuilder_init (name : string) : TopicBuilder :=
  {| tb_name := name; tb_construct_type := None;
     tb_published := ∅; tb_subscribed := ∅ |}.

Definition set_construct_type (t : option string) (b : TopicBuilder)
  : TopicBuilder :=
  {| tb_name := tb_name b; tb_construct_type := t;
     tb_published := tb_published b; tb_subscribed := tb_subscribed b |}.

Inductive status : Set := published | subscribed.

Definition add_node_name (node_name : string) (st : status)
    (b : TopicBuilder) : TopicBuilder :=
  match st with
  | published =>
      {| tb_name := tb_name b; tb_construct_type := tb_construct_type b;
         tb_published := tb_published b ∪ {[ node_name ]};
         tb_subscribed := tb_subscribed b |}
  | subscribed =>
      {| tb_name := tb_name b; tb_construct_type := tb_construct_type b;
         tb_published := tb_published b;
         tb_subscribed := tb_subscribed b ∪ {[ node_name ]} |}
  end.

Section with_filters.
Context `{Filters}.

Definition publisher_node_names (b : TopicBuilder) : gset string :=
  filter (λ n, node_should_filter_out n = false) (tb_published b).

Definition subscriber_node_names (b : TopicBuilder) : gset string :=
  filter (λ n, node_should_filter_out n = false) (tb_subscribed b).

(** *** The Topic and Action metamodels the builders extract *)

Record Topic : Type := {
  topic_source : string;
  topic_name : string;
  topic_construct_type : option string;
  topic_publisher_node_names : gset string;
  topic_subscriber_node_names : gset string
}.

Definition TopicBuilder_extract_metamodel (b : TopicBuilder) : Topic :=
  {| topic_source := "ros_snapshot";
     topic_name := tb_name b;
     topic_construct_type := tb_construct_type b;
     topic_publisher_node_names := publisher_node_names b;
     topic_subscriber_node_names := subscriber_node_names b |}.

Record Action : Type := {
  action_source : string;
  action_name : string;
  action_construct_type : option string;
  client_node_names : gset string;
  server_node_names : gset string;
  suffix_names_to_topics : gmap string Topic
}.

(** *** action_builder.py *)

(** The class constants; the two suffix sets are listed in the order the
    model iterates them. *)
Definition CLIENT_PUBLISHED_TOPIC_SUFFIXES : list string :=
  ["/cancel"; "/goal"].
Definition SERVER_PUBLISHED_TOPIC_SUFFIXES : list string :=
  ["/feedback"; "/result"; "/status"].
Definition TOPIC_SUFFIXES : list string :=
  CLIENT_PUBLISHED_TOPIC_SUFFIXES ++ SERVER_PUBLISHED_TOPIC_SUFFIXES.
Definition NUM_TOPIC_SUFFIXES : nat := length TOPIC_SUFFIXES.
Definition CORE_TOPIC_SUFFIXES_TO_TYPE_TOKENS : list (string * string) :=
  [("/feedback", "Feedback"); ("/goal", "Goal"); ("/result", "Result")].

Record ActionBuilder : Type := {
  ab_name : string;
  ab_construct_type : option string;          (* [_construct_type] *)
  topic_names_to_builders : gmap string TopicBuilder;
  topic_name_suffixes_to_builders : gmap string TopicBuilder;
  ab_client_node_names : gset string;
  ab_server_node_names : gset string
}.

(** [ActionBuilder(name)] *)
Definition ActionBuilder_init (name : string) : ActionBuilder :=
  {| ab_name := name; ab_construct_type := None;
     topic_names_to_builders := ∅; topic_name_suffixes_to_builders := ∅;
     ab_client_node_names := ∅; ab_server_node_names := ∅ |}.

Definition add_topic_builder (tb : TopicBuilder) (a : ActionBuilder)
  : ActionBuilder :=
  {| ab_name := ab_name a; ab_construct_type := ab_construct_type a;
     topic_names_to_builders := <[tb_name tb := tb]> (topic_names_to_builders a);
     topic_name_suffixes_to_builders :=
       <[name_suffix (tb_name tb) := tb]> (topic_name_suffixes_to_builders a);
     ab_client_node_names := ab_client_node_names a;
     ab_server_node_names := ab_server_node_names a |}.

(** [_add_or_increment_dictionary_count] *)
Definition add_or_increment_dictionary_count
    (counts : gmap string nat) (key : string) : gmap string nat :=
  let counts := match counts !! key with
                | None => <[key := 0]> counts
                | Some _ => counts
                end in
  match counts !! key with
  | Some c => <[key := c + 1]> counts
  | None => counts
  end.

(** One of the two loops of [_count_action_node_appearances]: [names]
    selects the publisher or the subscriber names of a topic builder.  The
    lookup [self.topic_name_suffixes_to_builders[suffix]] raises
    [KeyError] for a suffix the action does not hold. *)
Fixpoint count_loop (names : TopicBuilder → gset string)
    (sufs : gmap string TopicBuilder) (suffixes : list string)
    (counts : gmap string nat) : result (gmap string nat) :=
  match suffixes with
  | [] => Returns counts
  | suffix :: rest =>
      match sufs !! suffix with
      | None => Raises (KeyError suffix)
      | Some topic_builder =>
          count_loop names sufs rest
            (foldl add_or_increment_dictionary_count counts
                   (elements (names topic_builder)))
      end
  end.

Definition count_action_node_appearances (a : ActionBuilder)
    (publisher_suffixes subscriber_suffixes : list string)
    (action_node_to_counts : gmap string nat) : result (gmap string nat) :=
  counts ← count_loop publisher_node_names
             (topic_name_suffixes_to_builders a) publisher_suffixes
             action_node_to_counts;
  count_loop subscriber_node_names
    (topic_name_suffixes_to_builders a) subscriber_suffixes counts.

(** [_gather_valid_action_node_names_based_on_appearance_counts]: the loop
    body, then the loop over the items of the dictionary *)
Definition gather_valid_step (st : gset string * logger)
    (item : string * nat) : gset string * logger :=
  let '(valid_node_names, lg) := st in
  let '(node_name, appearance_count) := item in
  if decide (appearance_count = NUM_TOPIC_SUFFIXES) then
    (valid_node_names ∪ {[ node_name ]}, lg)
  else
    (valid_node_names,
     log lg ERROR ("Node name " +:+ node_name +:+
                   " for Action not valid as action client or server.")).

Definition gather_valid_action_node_names_based_on_appearance_counts
    (action_node_names_to_counts : gmap string nat) (lg : logger)
  : gset string * logger :=
  foldl gather_valid_step (∅, lg) (map_to_list action_node_names_to_counts).

Definition gather_action_client_and_server_names (a : ActionBuilder)
    (lg : logger) : result (gset string * gset string * logger) :=
  action_client_names_to_counts ←
    count_action_node_appearances a CLIENT_PUBLISHED_TOPIC_SUFFIXES
      SERVER_PUBLISHED_TOPIC_SUFFIXES ∅;
  action_server_names_to_counts ←
    count_action_node_appearances a SERVER_PUBLISHED_TOPIC_SUFFIXES
      CLIENT_PUBLISHED_TOPIC_SUFFIXES ∅;
  let '(valid_action_client_names, lg) :=
    gather_valid_action_node_names_based_on_appearance_counts
      action_client_names_to_counts lg in
  let '(valid_action_server_names, lg) :=
    gather_valid_action_node_names_based_on_appearance_counts
      action_server_names_to_counts lg in
  Returns (valid_action_client_names, valid_action_server_names, lg).

(** [ActionBuilder.prepare]; preparing a topic builder does nothing *)
Definition ActionBuilder_prepare (a : ActionBuilder) (lg : logger)
  : result (ActionBuilder * logger) :=
  '(clients, servers, lg) ← gather_action_client_and_server_names a lg;
  Returns ({| ab_name := ab_name a; ab_construct_type := ab_construct_type a;
              topic_names_to_builders := topic_names_to_builders a;
              topic_name_suffixes_to_builders :=
                topic_name_suffixes_to_builders a;
              ab_client_node_names := clients;
              ab_server_node_names := servers |}, lg).

(** [test_potential_action_topic_builder] *)
Definition test_potential_action_topic_builder (tb : TopicBuilder) : bool :=
  bool_decide (name_suffix (tb_name tb) ∈ TOPIC_SUFFIXES).

(** [_validate_topic_builders_have_required_suffixes] *)
Definition validate_topic_builders_have_required_suffixes
    (topic_builders : list TopicBuilder) : bool :=
  let found_topic_suffixes : gset string :=
    list_to_set ((λ tb, name_suffix (tb_name tb)) <$> topic_builders) in
  bool_decide (3 ≤ size found_topic_suffixes) &&
  bool_decide (found_topic_suffixes ⊆ list_to_set TOPIC_SUFFIXES).

(** ['Action{}'.format(core_topic_type_token)] *)
Definition action_type_token (core_topic_type_token : string) : string :=
  "Action" +:+ core_topic_type_token.

(** [_validate_core_topic_builders_have_required_types]; [endswith] on a
    builder whose type was never set is an [AttributeError]. *)
Fixpoint validate_core_loop (sufs : gmap string TopicBuilder)
    (core : list (string * string)) : result bool :=
  match core with
  | [] => Returns true
  | (core_topic_name_suffix, core_topic_type_token) :: rest =>
      match sufs !! core_topic_name_suffix with
      | None => Returns false
      | Some tb =>
          match tb_construct_type tb with
          | None => Raises AttributeError
          | Some topic_builder_type =>
              if PyStr.endswith topic_builder_type
                   (action_type_token core_topic_type_token)
              then validate_core_loop sufs rest
              else Returns false
          end
      end
  end.

Definition validate_core_topic_builders_have_required_types
    (sufs : gmap string TopicBuilder) : result bool :=
  validate_core_loop sufs CORE_TOPIC_SUFFIXES_TO_TYPE_TOKENS.

(** [validate_action_topic_builders]: both checks are evaluated *)
Definition validate_action_topic_builders (a : ActionBuilder) : result bool :=
  let valid_topic_suffixes :=
    validate_topic_builders_have_required_suffixes
      (snd <$> map_to_list (topic_names_to_builders a)) in
  valid_core_topic_types ←
    validate_core_topic_builders_have_required_types
      (topic_name_suffixes_to_builders a);
  Returns (valid_topic_suffixes && valid_core_topic_types).

(** [_extract_action_construct_type]: the loop over the core suffixes,
    threading [self._construct_type].  Formatting the second error reads
    [topic_builder_type.name] on a string, which is itself an
    [AttributeError]. *)
Fixpoint extract_type_loop (name : string) (sufs : gmap string TopicBuilder)
    (core : list (string * string)) (construct_type : option string)
  : result (option string) :=
  match core with
  | [] => Returns construct_type
  | (core_topic_name_suffix, core_topic_type_token) :: rest =>
      match sufs !! core_topic_name_suffix with
      | None =>
          Raises (ValueError
            (" ActionBuilder: Invalid construct type for topics for "
               +:+ name +:+ " " +:+ core_topic_name_suffix))
      | Some tb =>
          match tb_construct_type tb with
          | None => Raises AttributeError
          | Some topic_builder_type =>
              let token := action_type_token core_topic_type_token in
              if negb (PyStr.endswith topic_builder_type token) then
                Raises AttributeError
              else
                let prefix :=
                  PyStr.drop_last (String.length token) topic_builder_type in
                match construct_type with
                | None => extract_type_loop name sufs rest (Some prefix)
                | Some ct =>
                    if bool_decide (ct ≠ prefix) then
                      Raises (ValueError
                        (" ActionBuilder: Invalid construct type " +:+ ct
                           +:+ " for " +:+ name +:+ " - conflicts with "
                           +:+ topic_builder_type))
                    else extract_type_loop name sufs rest construct_type
                end
          end
      end
  end.

Definition extract_action_construct_type (a : ActionBuilder)
  : result (option string) :=
  extract_type_loop (ab_name a) (topic_name_suffixes_to_builders a)
    CORE_TOPIC_SUFFIXES_TO_TYPE_TOKENS (ab_construct_type a).

(** The [construct_type] property: extracted on first use *)
Definition construct_type (a : ActionBuilder) : result (option string) :=
  match ab_construct_type a with
  | None => extract_action_construct_type a
  | Some ct => Returns (Some ct)
  end.

(** [_extract_suffix_names_to_topic_metamodels] *)
Fixpoint extract_suffix_topics (sufs : gmap string TopicBuilder)
    (keys : list string) : result (gmap string Topic) :=
  match keys with
  | [] => Returns ∅
  | key :: rest =>
      match sufs !! key with
      | None => Raises (KeyError key)
      | Some tb =>
          m ← extract_suffix_topics sufs rest;
          Returns (<[key := TopicBuilder_extract_metamodel tb]> m)
      end
  end.

(** [ActionBuilder.extract_metamodel] *)
Definition ActionBuilder_extract_metamodel (a : ActionBuilder)
  : result Action :=
  ct ← construct_type a;
  topics ← extract_suffix_topics (topic_name_suffixes_to_builders a)
             TOPIC_SUFFIXES;
  Returns {| action_source := "ros_snapshot";
             action_name := ab_name a;
             action_construct_type := ct;
             client_node_names := ab_client_node_names a;
             server_node_names := ab_server_node_names a;
             suffix_names_to_topics := topics |}.

(** *** Appearance counts, as the specification words them

    These are not part of the source: they say, by direct counting, what
    the dictionaries of [_count_action_node_appearances] are meant to
    hold. *)

(** The count a dictionary of counts holds for a name, 0 when absent *)
Definition count_of (counts : gmap string nat) (n : string) : nat :=
  default 0 (counts !! n).

(** No entry of a dictionary of counts is zero *)
Definition positive_counts (counts : gmap string nat) : Prop :=
  ∀ n, counts !! n ≠ Some 0.

(** Node [n] is among the [names] of the topic held under suffix [s] *)
Definition appears (names : TopicBuilder → gset string)
    (sufs : gmap string TopicBuilder) (n s : string) : bool :=
  match sufs !! s with
  | Some tb => bool_decide (n ∈ names tb)
  | None => false
  end.

(** In how many of the topics under [suffixes] node [n] appears in the
    role [names] *)
Definition appearances (names : TopicBuilder → gset string)
    (sufs : gmap string TopicBuilder) (suffixes : list string) (n : string)
  : nat :=
  length (filter (λ s, appears names sufs n s = true) suffixes).

(** The appearance count of a node as a client of the action: publisher of
    the client-published topics, subscriber of the server-published ones *)
Definition client_appearances (a : ActionBuilder) (n : string) : nat :=
  appearances publisher_node_names (topic_name_suffixes_to_builders a)
    CLIENT_PUBLISHED_TOPIC_SUFFIXES n
  + appearances subscriber_node_names (topic_name_suffixes_to_builders a)
      SERVER_PUBLISHED_TOPIC_SUFFIXES n.

(** and as a server: the other way round *)
Definition server_appearances (a : ActionBuilder) (n : string) : nat :=
  appearances publisher_node_names (topic_name_suffixes_to_builders a)
    SERVER_PUBLISHED_TOPIC_SUFFIXES n
  + appearances subscriber_node_names (topic_name_suffixes_to_builders a)
      CLIENT_PUBLISHED_TOPIC_SUFFIXES n.


(** *** topic_bank_builder.py *)

Record TopicBankBuilder : Type := {
  topic_types : list (string * string);
  names_to_entity_builders : gmap string TopicBuilder
}.

Definition with_builders (bank : TopicBankBuilder)
    (m : gmap string TopicBuilder) : TopicBankBuilder :=
  {| topic_types := topic_types bank; names_to_entity_builders := m |}.

(** [_find_topic_type]: the last matching pair wins *)
Definition find_topic_type (types : list (string * string))
    (desired_topic : string) : string :=
  foldl (λ obtained '(topic, topic_type),
           if bool_decide (topic = desired_topic) then topic_type
           else obtained)
        "Error: Unknown" types.

(** [_create_entity_builder] *)
Definition create_entity_builder (bank : TopicBankBuilder) (name : string)
  : TopicBuilder :=
  set_construct_type (Some (find_topic_type (topic_types bank) name))
                     (TopicBuilder_init name).

(** [_BankBuilder.__getitem__]: the builder is created on first lookup *)
Definition getitem (bank : TopicBankBuilder) (name : string)
  : TopicBankBuilder * TopicBuilder :=
  match names_to_entity_builders bank !! name with
  | Some b => (bank, b)
  | None =>
      let b := create_entity_builder bank name in
      (with_builders bank (<[tb_name b := b]> (names_to_entity_builders bank)),
       b)
  end.

(** First loop of [extract_action_builders_from_internal_topic_builders] *)
Definition group_step (names_to_action_builders : gmap string ActionBuilder)
    (topic_builder : TopicBuilder) : gmap string ActionBuilder :=
  if test_potential_action_topic_builder topic_builder then
    let action_name := name_base (tb_name topic_builder) in
    let a := default (ActionBuilder_init action_name)
                     (names_to_action_builders !! action_name) in
    <[action_name := add_topic_builder topic_builder a]>
      names_to_action_builders
  else names_to_action_builders.

(** [_remove_action_topic_builders]: [pop] without a default *)
Fixpoint remove_action_topic_builders (m : gmap string TopicBuilder)
    (action_topic_builders : list TopicBuilder)
  : result (gmap string TopicBuilder) :=
  match action_topic_builders with
  | [] => Returns m
  | tb :: rest =>
      match m !! tb_name tb with
      | None => Raises (KeyError (tb_name tb))
      | Some _ => remove_action_topic_builders (delete (tb_name tb) m) rest
      end
  end.

(** Second loop: one action builder of the copied dictionary *)
Definition promote_step
    (st : gmap string ActionBuilder * gmap string TopicBuilder * logger)
    (item : string * ActionBuilder)
  : result (gmap string ActionBuilder * gmap string TopicBuilder * logger) :=
  let '(names_to_action_builders, topics, lg) := st in
  let '(action_name, action_builder) := item in
  valid ← validate_action_topic_builders action_builder;
  if negb valid then
    Returns (delete action_name names_to_action_builders, topics,
             log lg INFO ("Action " +:+ action_name +:+
                          " NOT valid. Not removing topics from topic bank."))
  else
    topics' ← remove_action_topic_builders topics
                (snd <$> map_to_list (topic_names_to_builders action_builder));
    Returns (names_to_action_builders, topics',
             log lg INFO ("Action " +:+ action_name +:+
               " is valid. Removing corresponding topics from topic bank.")).

Fixpoint promote_loop
    (st : gmap string ActionBuilder * gmap string TopicBuilder * logger)
    (items : list (string * ActionBuilder))
  : result (gmap string ActionBuilder * gmap string TopicBuilder * logger) :=
  match items with
  | [] => Returns st
  | item :: rest => st' ← promote_step st item; promote_loop st' rest
  end.

Definition extract_action_builders_from_internal_topic_builders
    (bank : TopicBankBuilder) (lg : logger)
  : result (gmap string ActionBuilder * TopicBankBuilder * logger) :=
  let lg := log lg INFO
              "Searching topics in topic bank for corresponding actions." in
  let names_to_action_builders :=
    foldl group_step ∅
          (snd <$> map_to_list (names_to_entity_builders bank)) in
  '(actions, topics, lg) ←
    promote_loop (names_to_action_builders, names_to_entity_builders bank, lg)
                 (map_to_list names_to_action_builders);
  Returns (actions, with_builders bank topics, lg).

(** *** action_bank_builder.py and ros_model_builder.py *)

(** [_BankBuilder.add_entity_builders] on the action bank *)
Definition add_entity_builders (bank : gmap string ActionBuilder)
    (entity_builders : list ActionBuilder) : gmap string ActionBuilder :=
  foldl (λ m a, <[ab_name a := a]> m) bank entity_builders.

(** [_BankBuilder.prepare] on the action bank (nothing is filtered out) *)
Fixpoint action_bank_prepare_loop (items : list (string * ActionBuilder))
    (done : gmap string ActionBuilder) (lg : logger)
  : result (gmap string ActionBuilder * logger) :=
  match items with
  | [] => Returns (done, lg)
  | (name, a) :: rest =>
      '(a', lg) ← ActionBuilder_prepare a lg;
      action_bank_prepare_loop rest (<[name := a']> done) lg
  end.

Definition action_bank_prepare (bank : gmap string ActionBuilder)
    (lg : logger) : result (gmap string ActionBuilder * logger) :=
  action_bank_prepare_loop (map_to_list bank) bank lg.

(** [_BankBuilder.extract_metamodel] on the action bank *)
Fixpoint action_bank_extract_loop (items : list (string * ActionBuilder))
  : result (gmap string Action) :=
  match items with
  | [] => Returns ∅
  | (name, a) :: rest =>
      m ← ActionBuilder_extract_metamodel a;
      ms ← action_bank_extract_loop rest;
      Returns (<[name := m]> ms)
  end.

Definition action_bank_extract_metamodel (bank : gmap string ActionBuilder)
  : result (gmap string Action) :=
  action_bank_extract_loop (map_to_list bank).

(** [_BankBuilder.prepare] on the topic bank: the filtered-out names are
    dropped; preparing a topic builder does nothing *)
Definition topic_bank_prepare (bank : TopicBankBuilder) : TopicBankBuilder :=
  with_builders bank
    (filter (λ kv, topic_should_filter_out kv.1 = false)
            (names_to_entity_builders bank)).

(** [_BankBuilder.extract_metamodel] on the topic bank *)
Definition topic_bank_extract_metamodel (bank : TopicBankBuilder)
  : gmap string Topic :=
  TopicBuilder_extract_metamodel <$> names_to_entity_builders bank.

(** The action and topic part of [ROSModelBuilder.prepare] followed by the
    extraction of the two banks: the topic bank gives up its action
    clusters, the action bank takes and prepares them, and both banks are
    turned into metamodels. *)
Definition build_topic_and_action_banks (bank : TopicBankBuilder)
    (action_bank : gmap string ActionBuilder) (lg : logger)
  : result (gmap string Topic * gmap string Action * logger) :=
  '(names_to_action_builders, bank, lg) ←
    extract_action_builders_from_internal_topic_builders bank lg;
  let action_bank :=
    add_entity_builders action_bank
      (snd <$> map_to_list names_to_action_builders) in
  let bank := topic_bank_prepare bank in
  '(action_bank, lg) ← action_bank_prepare action_bank lg;
  actions ← action_bank_extract_metamodel action_bank;
  Returns (topic_bank_extract_metamodel bank, actions, lg).

(** *** node_builder.py: the facts that decide the nodelet roles *)

Record NodeBuilder : Type := {
  nb_name : string;
  all_topic_names : gmap string (option string);        (* name to remap *)
  published_topic_names : gmap string (option string);  (* [_topic_names] *)
  subscribed_topic_names : gmap string (option string);
  topic_names_to_types : gmap string string;
  service_names_to_types : gmap string string;
  is_nodelet : bool;
  is_nodelet_manager : bool
}.

(** [NodeBuilder(name)] *)
Definition NodeBuilder_init (name : string) : NodeBuilder :=
  {| nb_name := name; all_topic_names := ∅; published_topic_names := ∅;
     subscribed_topic_names := ∅; topic_names_to_types := ∅;
     service_names_to_types := ∅;
     is_nodelet := false; is_nodelet_manager := false |}.

Definition add_topic_name (topic_name : string) (st : status)
    (topic_type : string) (remap : option string) (nb : NodeBuilder)
  : NodeBuilder :=
  if topic_should_filter_out topic_name then nb
  else
    {| nb_name := nb_name nb;
       all_topic_names := <[topic_name := remap]> (all_topic_names nb);
       published_topic_names :=
         match st with
         | published => <[topic_name := remap]> (published_topic_names nb)
         | subscribed => published_topic_names nb
         end;
       subscribed_topic_names :=
         match st with
         | published => subscribed_topic_names nb
         | subscribed => <[topic_name := remap]> (subscribed_topic_names nb)
         end;
       topic_names_to_types :=
         <[topic_name := topic_type]> (topic_names_to_types nb);
       service_names_to_types := service_names_to_types nb;
       is_nodelet := is_nodelet nb;
       is_nodelet_manager := is_nodelet_manager nb |}.

Definition add_service_name_and_type (service_name service_type : string)
    (nb : NodeBuilder) : NodeBuilder :=
  if service_type_should_filter_out service_type then nb
  else
    {| nb_name := nb_name nb;
       all_topic_names := all_topic_names nb;
       published_topic_names := published_topic_names nb;
       subscribed_topic_names := subscribed_topic_names nb;
       topic_names_to_types := topic_names_to_types nb;
       service_names_to_types :=
         <[service_name := service_type]> (service_names_to_types nb);
       is_nodelet := is_nodelet nb;
       is_nodelet_manager := is_nodelet_manager nb |}.

(** The facts a node builder is populated with *)
Inductive node_fact : Type :=
| TopicFact (topic_name : string) (st : status) (topic_type : string)
            (remap : option string)
| ServiceFact (service_name service_type : string).

Definition add_fact (nb : NodeBuilder) (f : node_fact) : NodeBuilder :=
  match f with
  | TopicFact n st ty remap => add_topic_name n st ty remap nb
  | ServiceFact n ty => add_service_name_and_type n ty nb
  end.

(** [set([self.service_names_to_types[n] for n in self.service_names])] *)
Definition service_types (nb : NodeBuilder) : gset string :=
  list_to_set (snd <$> map_to_list (service_names_to_types nb)).

Definition provides_nodelet_services (nb : NodeBuilder) : bool :=
  bool_decide ("nodelet/NodeletList" ∈ service_types nb) &&
  bool_decide ("nodelet/NodeletLoad" ∈ service_types nb) &&
  bool_decide ("nodelet/NodeletUnload" ∈ service_types nb).

(** The loop shared by [_gather_nodelet_manager_status] and
    [_gather_nodelet_status]: at the first topic of type [bond/Status]
    return [verdict], after the loop return [False]. *)
Fixpoint bond_loop (types : gmap string string) (verdict : bool)
    (topic_names : list string) : result bool :=
  match topic_names with
  | [] => Returns false
  | topic_name :: rest =>
      match types !! topic_name with
      | None => Raises (KeyError topic_name)
      | Some ty =>
          if bool_decide (ty = "bond/Status") then Returns verdict
          else bond_loop types verdict rest
      end
  end.

Definition gather_nodelet_manager_status (nb : NodeBuilder) : result bool :=
  bond_loop (topic_names_to_types nb) (provides_nodelet_services nb)
            (fst <$> map_to_list (all_topic_names nb)).

Definition gather_nodelet_status (nb : NodeBuilder) : result bool :=
  bond_loop (topic_names_to_types nb) (negb (is_nodelet_manager nb))
            (fst <$> map_to_list (all_topic_names nb)).

(** The two classification steps of [NodeBuilder.prepare]; the manager
    status is stored before the nodelet status is gathered. *)
Definition classify (nb : NodeBuilder) : result NodeBuilder :=
  manager ← gather_nodelet_manager_status nb;
  let nb := {| nb_name := nb_name nb;
               all_topic_names := all_topic_names nb;
               published_topic_names := published_topic_names nb;
               subscribed_topic_names := subscribed_topic_names nb;
               topic_names_to_types := topic_names_to_types nb;
               service_names_to_types := service_names_to_types nb;
               is_nodelet := is_nodelet nb;
               is_nodelet_manager := manager |} in
  nodelet ← gather_nodelet_status nb;
  Returns {| nb_name := nb_name nb;
             all_topic_names := all_topic_names nb;
             published_topic_names := published_topic_names nb;
             subscribed_topic_names := subscribed_topic_names nb;
             topic_names_to_types := topic_names_to_types nb;
             service_names_to_types := service_names_to_types nb;
             is_nodelet := nodelet;
             is_nodelet_manager := manager |}.

(** *** Classification, as the specification words it *)

(** What [add_topic_name] maintains: the topics of a node are the ones it
    publishes or subscribes to, and each has a type. *)
Definition topics_consistent (nb : NodeBuilder) : Prop :=
  dom (all_topic_names nb)
  = dom (published_topic_names nb) ∪ dom (subscribed_topic_names nb)
  ∧ dom (all_topic_names nb) ⊆ dom (topic_names_to_types nb).

(** The node publishes a topic of type [bond/Status] *)
Definition publishes_bond_topic (nb : NodeBuilder) : Prop :=
  ∃ t, t ∈ dom (published_topic_names nb)
       ∧ topic_names_to_types nb !! t = Some "bond/Status".

(** The node publishes or subscribes to a topic of type [bond/Status] *)
Definition has_bond_topic (nb : NodeBuilder) : Prop :=
  ∃ t, (t ∈ dom (published_topic_names nb)
        ∨ t ∈ dom (subscribed_topic_names nb))
       ∧ topic_names_to_types nb !! t = Some "bond/Status".

(** The types of the services the node provides include the three nodelet
    management services *)
Definition provides_nodelet_triad (nb : NodeBuilder) : Prop :=
  ∀ ty, ty ∈ ["nodelet/NodeletList"; "nodelet/NodeletLoad";
              "nodelet/NodeletUnload"] →
        ∃ n, service_names_to_types nb !! n = Some ty.

(** A node that only subscribes to a [bond/Status] topic and provides the
    three nodelet services *)
Definition subscribing_manager : NodeBuilder :=
  foldl add_fact (NodeBuilder_init "/manager")
    [TopicFact "/manager/bond" subscribed "bond/Status" None;
     ServiceFact "/manager/list" "nodelet/NodeletList";
     ServiceFact "/manager/load_nodelet" "nodelet/NodeletLoad";
     ServiceFact "/manager/unload_nodelet" "nodelet/NodeletUnload"].

(** *** The [/r/move] cluster of topics

    The five topics of the action [/r/move], the type of [/r/move/result]
    left open, as the topic bank holds them once the snapshot has asked for
    each (the type of each topic is found in [topic_types]) and has added
    the publishing and the subscribing nodes [pubs] and [subs] of each. *)

Definition move_topic_types (result_type : string) : list (string * string) :=
  [("/r/move/goal", "pkg/MoveActionGoal");
   ("/r/move/cancel", "actionlib_msgs/GoalID");
   ("/r/move/feedback", "pkg/MoveActionFeedback");
   ("/r/move/result", result_type);
   ("/r/move/status", "actionlib_msgs/GoalStatusArray")].

Definition move_topic_names : list string :=
  fst <$> move_topic_types "".

Definition move_topic_builder (result_type : string)
    (pubs subs : string → gset string) (n : string) : TopicBuilder :=
  {| tb_name := n;
     tb_construct_type := Some (find_topic_type (move_topic_types result_type) n);
     tb_published := pubs n; tb_subscribed := subs n |}.

Definition move_topic_bank (result_type : string)
    (pubs subs : string → gset string) : TopicBankBuilder :=
  {| topic_types := move_topic_types result_type;
     names_to_entity_builders :=
       list_to_map ((λ n, (n, move_topic_builder result_type pubs subs n))
                      <$> move_topic_names) |}.

(** The action builder the grouping loop makes of the cluster *)
Definition move_action_builder (result_type : string)
    (pubs subs : string → gset string) : ActionBuilder :=
  {| ab_name := "/r/move"; ab_construct_type := None;
     topic_names_to_builders :=
       list_to_map ((λ n, (n, move_topic_builder result_type pubs subs n))
                      <$> move_topic_names);
     topic_name_suffixes_to_builders :=
       list_to_map ((λ n, (name_suffix n,
                           move_topic_builder result_type pubs subs n))
                      <$> move_topic_names);
     ab_client_node_names := ∅; ab_server_node_names := ∅ |}.

(** A cluster of the three core topics only *)
Definition core_only_action_builder : ActionBuilder :=
  foldl (λ a tb, add_topic_builder tb a) (ActionBuilder_init "/r/move")
        ((λ n, move_topic_builder "pkg/MoveActionResult" (λ _, ∅) (λ _, ∅) n)
           <$> ["/r/move/goal"; "/r/move/feedback"; "/r/move/result"]).

End with_filters.

(** *** ros_snapshot.py: [_match_token_types] *)

Section match_token_types.

(** [io_builders[io_name].construct_type]: the resolved type of a deployed
    item, obtained from the bank builder of its kind. *)
Variable io_type_of : string → string.
Variable node_name : string.
Variable spec_types : gmap string string.

(** The first element of the sorted candidates whose declared type is
    [io_type]: the [for test in sorted(...)] loops with their [break] *)
Definition first_typed (candidates : gset string) (io_type : string)
  : option string :=
  List.find (λ test, bool_decide (spec_types !! test = Some io_type))
            (PyStr.sorted_set candidates).

Definition is_unset (io_names : gmap string (option string))
    (io_name : string) : bool :=
  bool_decide (io_names !! io_name = Some None).

Record match_state : Type := {
  io_names : gmap string (option string);
  available_tokens : gset string;
  io_is_valid : bool;
  match_log : logger
}.

(** The body of the loop over [sorted(io_names)] *)
Definition match_step (st : match_state) (io_name : string) : match_state :=
  let io_type := io_type_of io_name in
  let token := PyStr.last_token (PyStr.split "/"%char io_name) in
  if bool_decide (token ∉ available_tokens st) ||
     bool_decide (Some io_type ≠ spec_types !! token) then
    let potential :=
      filter (λ ss, PyStr.contains token ss = true) (available_tokens st) in
    let remaining := available_tokens st ∖ potential in
    let st :=
      match first_typed potential io_type with
      | Some test =>
          {| io_names := <[io_name := Some test]> (io_names st);
             available_tokens := available_tokens st ∖ {[ test ]};
             io_is_valid := io_is_valid st; match_log := match_log st |}
      | None => st
      end in
    let st :=
      if is_unset (io_names st) io_name then
        match first_typed remaining io_type with
        | Some test =>
            {| io_names := <[io_name := Some test]> (io_names st);
               available_tokens := available_tokens st ∖ {[ test ]};
               io_is_valid := io_is_valid st; match_log := match_log st |}
        | None => st
        end
      else st in
    if is_unset (io_names st) io_name then
      {| io_names := io_names st; available_tokens := available_tokens st;
         io_is_valid := false;
         match_log := log (match_log st) WARNING
                        ("      Node " +:+ node_name +:+ " unmatched data "
                           +:+ io_name +:+ " !") |}
    else st
  else
    {| io_names := <[io_name := Some token]> (io_names st);
       available_tokens := available_tokens st ∖ {[ token ]};
       io_is_valid := io_is_valid st; match_log := match_log st |}.

(** [t] is the first, in sorted order, of the [candidates] whose declared
    type is [io_type] *)
Definition least_typed (candidates : gset string) (io_type t : string)
  : Prop :=
  t ∈ candidates ∧ spec_types !! t = Some io_type
  ∧ ∀ t', t' ∈ candidates → spec_types !! t' = Some io_type → String.le t t'.

(** No candidate has the declared type [io_type] *)
Definition none_typed (candidates : gset string) (io_type : string) : Prop :=
  ∀ t, t ∈ candidates → spec_types !! t ≠ Some io_type.

(** The state after [test] is assigned to [io_name] and consumed *)
Definition assigned (st : match_state) (io_name test : string)
  : match_state :=
  {| io_names := <[io_name := Some test]> (io_names st);
     available_tokens := available_tokens st ∖ {[ test ]};
     io_is_valid := io_is_valid st; match_log := match_log st |}.

End match_token_types.

(** [_match_token_types]: the updated [io_names], the returned value
    ([None] when the function falls off its end) and the log *)
Definition match_token_types (io_type_of : string → string)
    (node_name : string) (names : gmap string (option string))
    (spec_types : option (gmap string string)) (lg : logger)
  : gmap string (option string) * option bool * logger :=
  match spec_types with
  | None =>
      if bool_decide (0 < size names) then (names, Some false, lg)
      else (names, None, lg)
  | Some spec_types =>
      let st :=
        foldl (match_step io_type_of node_name spec_types)
              {| io_names := names; available_tokens := dom spec_types;
                 io_is_valid := true; match_log := lg |}
              (PyStr.sorted_set (dom names)) in
      (io_names st, Some (io_is_valid st), match_log st)
  end.

End Snapshot.

(** ** chris_haros_model_merger: the remodelers *)

Module Merger.

Inductive BankType : Set :=
| NODE | NODELET | NODELET_MANAGER | TOPIC | ACTION | SERVICE | PARAMETER
| MACHINE | PACKAGE_SPECIFICATION | NODE_SPECIFICATION
| MESSAGE_SPECIFICATION | SERVICE_SPECIFICATION | ACTION_SPECIFICATION.

Global Instance BankType_eq_dec : EqDecision BankType.
Proof. solve_decision. Defined.

(** [str(bank_type)] *)
Definition BankType_str (bt : BankType) : string :=
  match bt with
  | NODE => "BankType.NODE"
  | NODELET => "BankType.NODELET"
  | NODELET_MANAGER => "BankType.NODELET_MANAGER"
  | TOPIC => "BankType.TOPIC"
  | ACTION => "BankType.ACTION"
  | SERVICE => "BankType.SERVICE"
  | PARAMETER => "BankType.PARAMETER"
  | MACHINE => "BankType.MACHINE"
  | PACKAGE_SPECIFICATION => "BankType.PACKAGE_SPECIFICATION"
  | NODE_SPECIFICATION => "BankType.NODE_SPECIFICATION"
  | MESSAGE_SPECIFICATION => "BankType.MESSAGE_SPECIFICATION"
  | SERVICE_SPECIFICATION => "BankType.SERVICE_SPECIFICATION"
  | ACTION_SPECIFICATION => "BankType.ACTION_SPECIFICATION"
  end.

(** The double quote, for the log messages that quote a name *)
Definition dq : string := String "034"%char EmptyString.

(** [str(x)] where [x] is a string or [None] *)
Definition fmt (x : option string) : string := default "None" x.

Definition REMODELER_SOURCE_NAME : string := "haros_chris_model_merger".

(** The [source] attribute of an entity: unset, a string, a list of
    strings, or something else. *)
Inductive source_value : Type :=
| SrcNone
| SrcStr (s : string)
| SrcList (l : list string)
| SrcOther (id : N).

(** The fields every [_EntityMetamodel] has, around the fields [B] of its
    kind.  No remodeler helper reads or writes [version] or [source], they
    work on the body. *)
Record model (B : Type) : Type := Model {
  name : string;
  source : source_value;
  version : Z;
  body : B
}.
Arguments Model {B} _ _ _ _.
Arguments name {B} _.
Arguments source {B} _.
Arguments version {B} _.
Arguments body {B} _.

Global Instance source_value_eq_dec : EqDecision source_value.
Proof. solve_decision. Defined.

Definition with_body {B} (m : model B) (b : B) : model B :=
  Model (name m) (source m) (version m) b.

(** *** base_remodeler.py *)

(** The test of [_check_haros_name_is_complete] *)
Definition haros_name_is_complete (haros_name : string) : bool :=
  if PyStr.contains "/" haros_name then
    bool_decide (PyStr.last_token
                   (PyStr.split "/"%char (PyStr.strip haros_name)) ≠ "?")
  else bool_decide (PyStr.strip haros_name ≠ "?").

(** The record [_check_haros_name_is_complete] logs for an incomplete name *)
Definition incomplete_record (TYPE haros_name context : string)
  : log_record :=
  let context :=
    if bool_decide (context ≠ "") then ". [In " +:+ context +:+ "]"
    else context in
  LogRecord ERROR ("[" +:+ TYPE +:+
                   "] INCOMPLETE HAROS Model Information Encountered for "
                   +:+ dq +:+ haros_name +:+ dq +:+ context +:+ ".").

(** [_check_haros_name_is_complete] *)
Definition check_haros_name_is_complete (TYPE haros_name context : string)
    (lg : logger) : bool * logger :=
  let complete := haros_name_is_complete haros_name in
  if negb complete then
    (complete, lg ++ [incomplete_record TYPE haros_name context])
  else (complete, lg).

(** The new [source] computed by [_update_chris_model_version] *)
Definition updated_source (src : source_value) : source_value :=
  match src with
  | SrcList l =>
      SrcList (PyStr.sorted_set (list_to_set l ∪ {[ REMODELER_SOURCE_NAME ]}))
  | SrcStr s =>
      SrcStr (PyStr.join ", "
                (PyStr.sorted_set
                   (list_to_set (PyStr.strip <$> PyStr.split ","%char s)
                    ∪ {[ REMODELER_SOURCE_NAME ]})))
  | _ => src
  end.

(** [_update_chris_model_version] *)
Definition update_chris_model_version {B} (TYPE : string)
    (chris_model : model B) (model_updated : bool) (lg : logger)
  : model B * logger :=
  if model_updated then
    let m := Model (name chris_model) (updated_source (source chris_model))
                   (version chris_model + 1) (body chris_model) in
    match source chris_model with
    | SrcList _ | SrcStr _ => (m, lg)
    | _ => (m, log lg ERROR
                 ("[" +:+ TYPE +:+ "] Error Setting Source(s) for CHRIS Model "
                    +:+ dq +:+ name chris_model +:+ dq +:+ "."))
    end
  else (chris_model, lg).

(** [_initialize_chris_model_version] *)
Definition initialize_chris_model_version {B} (chris_model : model B)
  : model B :=
  Model (name chris_model) (SrcStr REMODELER_SOURCE_NAME) 0 (body chris_model).

(** The action bank as the remodelers read it: action name to the suffixes
    of its topics *)
Abbreviation action_bank := (gmap string (gset string)).

(** [_topic_is_part_of_action] *)
Definition topic_is_part_of_action (TYPE : string) (actions : action_bank)
    (topic_name : string) (lg : logger) : bool * logger :=
  let topic_name_tokens := PyStr.split "/"%char topic_name in
  let topic_name_suffix := "/" +:+ PyStr.last_token topic_name_tokens in
  let topic_name_base := PyStr.join "/" (PyStr.but_last topic_name_tokens) in
  let lg := log lg DEBUG
              ("[" +:+ TYPE +:+
               "] Searching in CHRIS Action Banks for HAROS Topic Name "
               +:+ dq +:+ topic_name +:+ dq +:+ "...") in
  let found :=
    match actions !! topic_name_base with
    | Some suffixes => bool_decide (topic_name_suffix ∈ suffixes)
    | None => false
    end in
  (found,
   log lg DEBUG ("[" +:+ TYPE +:+ "] Found: " +:+ dq
                 +:+ (if found then "True" else "False") +:+ dq
                 +:+ "; HAROS Topic Name " +:+ dq +:+ topic_name +:+ dq
                 +:+ " in CHRIS Action Banks?")).

(** The abstract members of [_BaseRemodeler], for HAROS instances [H] and
    CHRIS entities with body [B]. *)
Class Remodeler (H B : Type) : Type := {
  TYPE : string;
  haros_id : H → string;
  adjust_haros_name : string → string;
  (** [bank._create_entity(name)]: the fields of a fresh entity *)
  new_body : BankType → B;
  (** [_helper_merge_haros_model_with_chris_model] *)
  helper_merge_haros_model_with_chris_model :
    action_bank → BankType → H → B → logger → B * bool * logger;
  (** the bank type [_create_new_chris_model] chooses, given the keys of
      [_chris_model_banks] and the instance name, and what it logs *)
  new_chris_model_bank_type :
    list BankType → string → H → logger → result (BankType * logger);
  (** [_helper_populate_new_chris_model] *)
  helper_populate_new_chris_model :
    action_bank → BankType → string → H → B → logger → B * logger
}.

Section base_remodeler.
Context {H B : Type} `{!Remodeler H B}.

(** [_chris_model_banks]: the banks of the remodeler's kind, in the order
    their keys are visited *)
Definition banks : Type := list (BankType * gmap string (model B)).

(** [_merge_haros_model_with_chris_model] *)
Definition merge_haros_model_with_chris_model (actions : action_bank)
    (bank_type : BankType) (haros_instance_name : string) (haros_model : H)
    (chris_model : model B) (lg : logger) : model B * logger :=
  let lg := log lg INFO ("[" +:+ TYPE +:+
                         "] Merging HAROS Instance with CHRIS Instance "
                         +:+ dq +:+ haros_instance_name +:+ dq +:+ ".") in
  let '(b, model_updated, lg) :=
    helper_merge_haros_model_with_chris_model actions bank_type haros_model
      (body chris_model) lg in
  update_chris_model_version TYPE (with_body chris_model b) model_updated lg.

(** The first bank, in key order, that has the name *)
Fixpoint locate (bs : banks) (haros_instance_name : string)
  : option (BankType * model B) :=
  match bs with
  | [] => None
  | (bank_type, bank) :: rest =>
      match bank !! haros_instance_name with
      | Some chris_model => Some (bank_type, chris_model)
      | None => locate rest haros_instance_name
      end
  end.

(** Store an entity under [n] in the bank of type [bank_type] *)
Definition store (bs : banks) (bank_type : BankType) (n : string)
    (m : model B) : banks :=
  (λ '(bt, bank), if decide (bt = bank_type) then (bt, <[n := m]> bank)
                  else (bt, bank)) <$> bs.

(** [self._chris_model_banks[bank_type][instance_name]]: a [KeyError] when
    the remodeler has no such bank, the entity created on first lookup
    otherwise *)
Definition bank_getitem (bs : banks) (bank_type : BankType) (n : string)
  : result (model B) :=
  match list_find (λ p, p.1 = bank_type) bs with
  | None => Raises (KeyError (BankType_str bank_type))
  | Some (_, (_, bank)) =>
      Returns (default (Model n SrcNone 0 (new_body bank_type)) (bank !! n))
  end.

(** The body of the loop of [remodel], for one HAROS instance *)
Definition remodel_step (actions : action_bank) (st : banks * logger)
    (haros_instance : H) : result (banks * logger) :=
  let '(bs, lg) := st in
  let haros_instance_name := adjust_haros_name (haros_id haros_instance) in
  let '(complete, lg) :=
    check_haros_name_is_complete TYPE haros_instance_name
      "Check for Main Model" lg in
  if complete then
    let lg := log lg INFO ("[" +:+ TYPE +:+ "] Locating CHRIS Instance for "
                           +:+ dq +:+ haros_instance_name +:+ dq +:+ ".") in
    match locate bs haros_instance_name with
    | Some (bank_type, chris_model) =>
        let '(m, lg) :=
          merge_haros_model_with_chris_model actions bank_type
            haros_instance_name haros_instance chris_model lg in
        Returns (store bs bank_type haros_instance_name m, lg)
    | None =>
        let lg := log lg ERROR
                    ("[" +:+ TYPE +:+ "] Could not find CHRIS Instance for "
                     +:+ dq +:+ haros_instance_name +:+ dq +:+ ".") in
        '(bank_type, lg) ←
          new_chris_model_bank_type (fst <$> bs) haros_instance_name
            haros_instance lg;
        new_chris_model_instance ←
          bank_getitem bs bank_type haros_instance_name;
        let lg := log lg INFO
                    ("[" +:+ TYPE +:+ "] Attempting to Populate New Model "
                     +:+ dq +:+ haros_instance_name +:+ dq +:+ "...") in
        let '(b, lg) :=
          helper_populate_new_chris_model actions bank_type
            haros_instance_name haros_instance
            (body new_chris_model_instance) lg in
        Returns (store bs bank_type haros_instance_name
                   (initialize_chris_model_version
                      (with_body new_chris_model_instance b)), lg)
    end
  else Returns (bs, lg).

(** [remodel] *)
Fixpoint remodel (actions : action_bank) (st : banks * logger)
    (haros_model_instances : list H) : result (banks * logger) :=
  match haros_model_instances with
  | [] => Returns st
  | h :: rest => st' ← remodel_step actions st h; remodel actions st' rest
  end.

End base_remodeler.

(** [_BaseRemodeler._create_new_chris_model]: the first key *)
Definition base_new_chris_model_bank_type {H} (TYPE : string)
    (keys : list BankType) (instance_name : string) (_ : H) (lg : logger)
  : result (BankType * logger) :=
  match keys with
  | [] => Raises IndexError
  | chosen :: _ =>
      Returns (chosen,
               log lg INFO ("[" +:+ TYPE +:+
                 "] Create new chris model from base_remodeler type=" +:+
                 BankType_str chosen +:+ " " +:+
                 dq +:+ instance_name +:+ dq +:+ "..."))
  end.

(** *** deployments/topic_remodeler.py *)

Record HarosTopic : Type := {
  ht_id : string;
  ht_type : string;
  ht_publishers : list string;     (* [link.node.id] of each link *)
  ht_subscribers : list string
}.

Record TopicBody : Type := {
  construct_type : option string;
  publisher_node_names : gset string;
  subscriber_node_names : gset string
}.

Global Instance TopicBody_eq_dec : EqDecision TopicBody.
Proof. solve_decision. Defined.

(** One loop of [_merge_haros_topic_links_with_chris_topic_nodes], over the
    node names of the links of one role *)
Definition merge_node_name (TYPE role : string)
    (st : gset string * bool * logger) (haros_node_instance_name : string)
  : gset string * bool * logger :=
  let '(names, model_updated, lg) := st in
  let '(complete, lg) :=
    check_haros_name_is_complete TYPE haros_node_instance_name
      "Check for Topic Nodes" lg in
  if complete && bool_decide (haros_node_instance_name ∉ names) then
    (names ∪ {[ haros_node_instance_name ]}, true,
     log lg INFO ("[" +:+ TYPE +:+ "] Adding HAROS Topic's " +:+ role
                  +:+ " Node " +:+ dq +:+ haros_node_instance_name +:+ dq
                  +:+ " to CHRIS Topic Instance."))
  else (names, model_updated, lg).

Definition merge_haros_topic_links_with_chris_topic_nodes
    (haros_topic_model : HarosTopic) (chris_topic_model : TopicBody)
    (lg : logger) : TopicBody * bool * logger :=
  let '(pubs, model_updated, lg) :=
    foldl (merge_node_name "TOPIC" "Publisher")
          (publisher_node_names chris_topic_model, false, lg)
          (ht_publishers haros_topic_model) in
  let '(subs, model_updated, lg) :=
    foldl (merge_node_name "TOPIC" "Subscriber")
          (subscriber_node_names chris_topic_model, model_updated, lg)
          (ht_subscribers haros_topic_model) in
  ({| construct_type := construct_type chris_topic_model;
      publisher_node_names := pubs; subscriber_node_names := subs |},
   model_updated, lg).

(** [TopicRemodeler._helper_merge_haros_model_with_chris_model] *)
Definition topic_helper_merge (_ : action_bank) (_ : BankType)
    (haros_model : HarosTopic) (chris_model : TopicBody) (lg : logger)
  : TopicBody * bool * logger :=
  let haros_topic_type := ht_type haros_model in
  let chris_topic_type := construct_type chris_model in
  let lg :=
    if bool_decide (Some haros_topic_type ≠ chris_topic_type) then
      log lg ERROR ("[TOPIC] HAROS Topic's Type " +:+ dq +:+ haros_topic_type
                    +:+ dq +:+ " does NOT Match CHRIS Topic's Type " +:+ dq
                    +:+ fmt chris_topic_type +:+ dq +:+ ".")
    else lg in
  merge_haros_topic_links_with_chris_topic_nodes haros_model chris_model lg.

(** [TopicRemodeler._helper_populate_new_chris_model] *)
Definition topic_helper_populate (_ : action_bank) (_ : BankType)
    (_ : string) (haros_model : HarosTopic) (new_chris_model : TopicBody)
    (lg : logger) : TopicBody * logger :=
  let '(b, _, lg) :=
    merge_haros_topic_links_with_chris_topic_nodes haros_model
      {| construct_type := Some (ht_type haros_model);
         publisher_node_names := publisher_node_names new_chris_model;
         subscriber_node_names := subscriber_node_names new_chris_model |}
      lg in
  (b, lg).

Global Instance TopicRemodeler : Remodeler HarosTopic TopicBody := {|
  TYPE := "TOPIC";
  haros_id := ht_id;
  adjust_haros_name := λ n, n;
  new_body := λ _, {| construct_type := None; publisher_node_names := ∅;
                      subscriber_node_names := ∅ |};
  helper_merge_haros_model_with_chris_model := topic_helper_merge;
  new_chris_model_bank_type := base_new_chris_model_bank_type "TOPIC";
  helper_populate_new_chris_model := topic_helper_populate
|}.

(** *** deployments/node_remodeler.py *)

(** A HAROS node instance; a link is the pair of the linked resource's
    name and the name of its type. *)
Record HarosNode : Type := {
  hn_id : string;
  hn_node_name : string;               (* [node.node_name] *)
  hn_nodelet_class : option string;    (* [node.nodelet_class] *)
  hn_argv : option (list string);
  hn_launch : option string;           (* [launch.path] when launched *)
  hn_writes : list (string * string);
  hn_reads : list (string * string);
  hn_servers : list (string * string);
  hn_clients : list (string * string);
  hn_publishers : list (string * string);
  hn_subscribers : list (string * string)
}.

(** The fields of a CHRIS node the remodeler reads or writes;
    [launch_file] and [client_services] exist only once written. *)
Record NodeBody : Type := {
  node : option string;
  cmdline : option (list string);
  launch_file : option string;
  set_parameter_names : gmap string (option string);
  read_parameter_names : gmap string (option string);
  provided_services : gmap string (option string);
  client_services : option (gmap string (option string));
  published_topic_names : gmap string (option string);
  subscribed_topic_names : gmap string (option string)
}.

Global Instance NodeBody_eq_dec : EqDecision NodeBody.
Proof. solve_decision. Defined.

(** The loop body shared by [_merge_haros_node_links_with_chris_node_services]
    and [_merge_haros_node_links_with_chris_node_parameters]; [kind] is
    ["Service"] or ["Parameter"]. *)
Definition merge_node_link (kind link_type : string)
    (st : gmap string (option string) * bool * logger)
    (haros_link : string * string)
  : gmap string (option string) * bool * logger :=
  let '(chris_items, model_updated, lg) := st in
  let '(haros_instance_name, haros_parent_type) := haros_link in
  let '(complete, lg) :=
    check_haros_name_is_complete "NODE" haros_instance_name
      ("Check for Node " +:+ kind +:+ "s") lg in
  if complete then
    match chris_items !! haros_instance_name with
    | Some chris_parent_type =>
        if bool_decide (Some haros_parent_type ≠ chris_parent_type) then
          (chris_items, model_updated,
           log lg ERROR ("[NODE] HAROS " +:+ dq +:+ link_type +:+ dq +:+ " "
                         +:+ kind +:+ " Parent's Type " +:+ dq
                         +:+ haros_parent_type +:+ dq +:+ " for " +:+ kind
                         +:+ " " +:+ dq +:+ haros_instance_name +:+ dq
                         +:+ " does NOT Match CHRIS " +:+ kind
                         +:+ " Parent's Type " +:+ dq
                         +:+ fmt chris_parent_type +:+ dq +:+ "."))
        else (chris_items, model_updated, lg)
    | None =>
        (<[haros_instance_name := Some haros_parent_type]> chris_items, true,
         log lg INFO ("[NODE] Adding HAROS Node's " +:+ link_type +:+ " "
                      +:+ kind +:+ " " +:+ dq +:+ haros_instance_name +:+ dq
                      +:+ " to CHRIS Node Instance."))
    end
  else (chris_items, model_updated, lg).

Definition merge_haros_node_links_with_chris_node_services
    (links : list (string * string))
    (chris_node_model_services : gmap string (option string))
    (link_type : string) (lg : logger)
  : gmap string (option string) * bool * logger :=
  foldl (merge_node_link "Service" link_type)
        (chris_node_model_services, false, lg) links.

Definition merge_haros_node_links_with_chris_node_parameters
    (links : list (string * string))
    (chris_node_model_parameters : gmap string (option string))
    (link_type : string) (lg : logger)
  : gmap string (option string) * bool * logger :=
  foldl (merge_node_link "Parameter" link_type)
        (chris_node_model_parameters, false, lg) links.

(** The inner loop body of [_merge_haros_node_links_with_chris_node_topics] *)
Definition merge_topic_link (actions : action_bank) (bank_type : string)
    (link_type : string) (st : gmap string (option string) * bool * logger)
    (haros_link : string * string)
  : gmap string (option string) * bool * logger :=
  let '(chris_node_model_topics, model_updated, lg) := st in
  let '(haros_topic_instance_name, haros_topic_parent_type) := haros_link in
  let '(complete, lg) :=
    check_haros_name_is_complete "NODE" haros_topic_instance_name
      "Check for Node Topics" lg in
  if complete then
    match chris_node_model_topics !! haros_topic_instance_name with
    | Some chris_topic_parent_type =>
        if bool_decide (Some haros_topic_parent_type ≠ chris_topic_parent_type)
        then
          (chris_node_model_topics, model_updated,
           log lg ERROR ("[NODE] HAROS " +:+ dq +:+ link_type +:+ dq
                         +:+ " Topic Parent's Type " +:+ dq
                         +:+ haros_topic_parent_type +:+ dq +:+ " for Topic "
                         +:+ dq +:+ haros_topic_instance_name +:+ dq
                         +:+ " does NOT Match CHRIS Topic Parent's Type "
                         +:+ dq +:+ fmt chris_topic_parent_type +:+ dq
                         +:+ "."))
        else (chris_node_model_topics, model_updated, lg)
    | None =>
        let '(part_of_action, lg) :=
          topic_is_part_of_action "NODE" actions haros_topic_instance_name
            lg in
        if part_of_action then (chris_node_model_topics, model_updated, lg)
        else if bool_decide (haros_topic_parent_type ≠ "bond/Status") then
          (<[haros_topic_instance_name := Some haros_topic_parent_type]>
             chris_node_model_topics, true,
           log lg INFO ("[NODE] Adding HAROS Node's " +:+ dq +:+ link_type
                        +:+ dq +:+ " Topic " +:+ dq
                        +:+ haros_topic_instance_name +:+ dq
                        +:+ " to CHRIS Node Instance."))
        else
          (chris_node_model_topics, model_updated,
           log lg ERROR ("[NODE] Found HAROS Node's " +:+ dq +:+ link_type
                         +:+ dq +:+ " Bond Topic; " +:+ dq
                         +:+ haros_topic_instance_name +:+ dq
                         +:+ " NOT added to CHRIS Node Instance (Node Exists in "
                         +:+ dq +:+ bank_type +:+ dq +:+ ")."))
    end
  else (chris_node_model_topics, model_updated, lg).

(** [_merge_haros_node_links_with_chris_node_topics]: the published links,
    then the subscribed ones *)
Definition merge_haros_node_links_with_chris_node_topics
    (actions : action_bank) (bank_type : BankType)
    (haros_node_model : HarosNode)
    (pubs subs : gmap string (option string)) (lg : logger)
  : gmap string (option string) * gmap string (option string) * bool * logger :=
  let '(pubs, model_updated, lg) :=
    foldl (merge_topic_link actions (BankType_str bank_type) "Published")
          (pubs, false, lg) (hn_publishers haros_node_model) in
  let '(subs, model_updated, lg) :=
    foldl (merge_topic_link actions (BankType_str bank_type) "Subscribed")
          (subs, model_updated, lg) (hn_subscribers haros_node_model) in
  (pubs, subs, model_updated, lg).

(** Python truthiness of the optional fields *)
Definition str_truthy (x : option string) : bool :=
  match x with None | Some EmptyString => false | Some _ => true end.
Definition list_truthy {A} (x : option (list A)) : bool :=
  match x with None | Some [] => false | Some _ => true end.

(** [NodeRemodeler._helper_merge_haros_model_with_chris_model] *)
Definition node_helper_merge (actions : action_bank) (bank_type : BankType)
    (haros_model : HarosNode) (chris_model : NodeBody) (lg : logger)
  : NodeBody * bool * logger :=
  let model_updated := false in
  let '(node', model_updated) :=
    if negb (str_truthy (node chris_model))
    then (Some (hn_node_name haros_model), true)
    else (node chris_model, model_updated) in
  let '(cmdline', model_updated) :=
    if negb (list_truthy (cmdline chris_model))
    then (hn_argv haros_model, true)
    else (cmdline chris_model, model_updated) in
  let '(launch_file', model_updated) :=
    match hn_launch haros_model with
    | Some path => (Some path, true)
    | None => (launch_file chris_model, model_updated)
    end in
  let '(set', u, lg) :=
    merge_haros_node_links_with_chris_node_parameters
      (hn_writes haros_model) (set_parameter_names chris_model) "Set" lg in
  let model_updated := model_updated || u in
  let '(read', u, lg) :=
    merge_haros_node_links_with_chris_node_parameters
      (hn_reads haros_model) (read_parameter_names chris_model) "Read" lg in
  let model_updated := model_updated || u in
  let '(provided', u, lg) :=
    merge_haros_node_links_with_chris_node_services
      (hn_servers haros_model) (provided_services chris_model) "Provided"
      lg in
  let model_updated := model_updated || u in
  let '(chris_model_client_services, u, lg) :=
    merge_haros_node_links_with_chris_node_services
      (hn_clients haros_model) ∅ "Client" lg in
  let '(clients', model_updated) :=
    if u then (Some chris_model_client_services, true)
    else (client_services chris_model, model_updated) in
  let '(pubs', subs', u, lg) :=
    merge_haros_node_links_with_chris_node_topics actions bank_type
      haros_model (published_topic_names chris_model)
      (subscribed_topic_names chris_model) lg in
  let model_updated := model_updated || u in
  ({| node := node'; cmdline := cmdline'; launch_file := launch_file';
      set_parameter_names := set'; read_parameter_names := read';
      provided_services := provided'; client_services := clients';
      published_topic_names := pubs'; subscribed_topic_names := subs' |},
   model_updated, lg).

(** [NodeRemodeler._helper_populate_new_chris_model] *)
Definition node_helper_populate (actions : action_bank)
    (bank_type : BankType) (_ : string) (haros_model : HarosNode)
    (new_chris_model : NodeBody) (lg : logger) : NodeBody * logger :=
  let launch_file' :=
    match hn_launch haros_model with
    | Some path => Some path
    | None => launch_file new_chris_model
    end in
  let '(set', _, lg) :=
    merge_haros_node_links_with_chris_node_parameters
      (hn_writes haros_model) (set_parameter_names new_chris_model) "Set"
      lg in
  let '(read', _, lg) :=
    merge_haros_node_links_with_chris_node_parameters
      (hn_reads haros_model) (read_parameter_names new_chris_model) "Read"
      lg in
  let '(provided', _, lg) :=
    merge_haros_node_links_with_chris_node_services
      (hn_servers haros_model) (provided_services new_chris_model)
      "Provided" lg in
  let '(clients', _, lg) :=
    merge_haros_node_links_with_chris_node_services
      (hn_clients haros_model) ∅ "Client" lg in
  let '(pubs', subs', _, lg) :=
    merge_haros_node_links_with_chris_node_topics actions bank_type
      haros_model (published_topic_names new_chris_model)
      (subscribed_topic_names new_chris_model) lg in
  ({| node := Some (hn_node_name haros_model);
      cmdline := hn_argv haros_model; launch_file := launch_file';
      set_parameter_names := set'; read_parameter_names := read';
      provided_services := provided'; client_services := Some clients';
      published_topic_names := pubs'; subscribed_topic_names := subs' |},
   lg).

(** [NodeRemodeler._create_new_chris_model]: the nodelet bank for a HAROS
    node that names a nodelet class, the node bank otherwise *)
Definition node_new_chris_model_bank_type (_ : list BankType)
    (instance_name : string) (haros_instance : HarosNode) (lg : logger)
  : result (BankType * logger) :=
  if str_truthy (hn_nodelet_class haros_instance) then
    Returns (NODELET,
             log lg ERROR ("[NODE] Create new chris nodelet model" +:+ dq
                           +:+ instance_name +:+ dq +:+ "."))
  else
    Returns (NODE,
             log lg ERROR ("[NODE] Create new chris node model" +:+ dq
                           +:+ instance_name +:+ dq +:+ ".")).

Global Instance NodeRemodeler : Remodeler HarosNode NodeBody := {|
  TYPE := "NODE";
  haros_id := hn_id;
  adjust_haros_name := λ n, n;
  new_body := λ _, {| node := None; cmdline := None; launch_file := None;
                      set_parameter_names := ∅; read_parameter_names := ∅;
                      provided_services := ∅; client_services := None;
                      published_topic_names := ∅;
                      subscribed_topic_names := ∅ |};
  helper_merge_haros_model_with_chris_model := node_helper_merge;
  new_chris_model_bank_type := node_new_chris_model_bank_type;
  helper_populate_new_chris_model := node_helper_populate
|}.

(** *** The merge bookkeeping, as the specification words it *)

(** The final path segment of a name *)
Definition final_segment (haros_name : string) : string :=
  PyStr.last_token (PyStr.split "/"%char haros_name).

(** The provenance tags of a [source], read the way
    [_update_chris_model_version] reads them *)
Definition source_tags (src : source_value) : list string :=
  match src with
  | SrcList l => l
  | SrcStr s => PyStr.strip <$> PyStr.split ","%char s
  | _ => []
  end.

(** The [source] is a list or a string, the two kinds the update handles *)
Definition source_is_tagged (src : source_value) : Prop :=
  match src with
  | SrcList _ | SrcStr _ => True
  | _ => False
  end.

(** The complete names among [names] *)
Definition complete_names (names : list string) : gset string :=
  list_to_set (filter (λ n, haros_name_is_complete n = true) names).

(** The topic entity after the links of a HAROS topic are merged in *)
Definition with_links (h : HarosTopic) (b : TopicBody) : TopicBody :=
  {| construct_type := construct_type b;
     publisher_node_names :=
       publisher_node_names b ∪ complete_names (ht_publishers h);
     subscriber_node_names :=
       subscriber_node_names b ∪ complete_names (ht_subscribers h) |}.

(** Every complete name among [names] is already in [known] *)
Definition no_new_names (names : list string) (known : gset string) : Prop :=
  ∀ n, n ∈ names → haros_name_is_complete n = true → n ∈ known.

(** The record a topic merge logs when the two types differ *)
Definition topic_type_conflict (haros_topic_type : string)
    (chris_topic_type : option string) : log_record :=
  LogRecord ERROR ("[TOPIC] HAROS Topic's Type " +:+ dq +:+ haros_topic_type
                   +:+ dq +:+ " does NOT Match CHRIS Topic's Type " +:+ dq
                   +:+ fmt chris_topic_type +:+ dq +:+ ".").

(** *** Scenarios *)

(** A node already merged once: its launch file is known. *)
Definition launched_node : model NodeBody :=
  Model "/talker" (SrcStr "haros_chris_model_merger, ros_snapshot") 1
    {| node := Some "demo/talker"; cmdline := Some ["talker"];
       launch_file := Some "demo/talker.launch";
       set_parameter_names := ∅; read_parameter_names := ∅;
       provided_services := ∅; client_services := None;
       published_topic_names := ∅; subscribed_topic_names := ∅ |}.

(** The HAROS node it was merged with *)
Definition haros_talker : HarosNode :=
  {| hn_id := "/talker"; hn_node_name := "demo/talker";
     hn_nodelet_class := None; hn_argv := Some ["talker"];
     hn_launch := Some "demo/talker.launch";
     hn_writes := []; hn_reads := []; hn_servers := []; hn_clients := [];
     hn_publishers := []; hn_subscribers := [] |}.

(** A topic entity whose [source] was never set, as a bank creates it on
    first lookup *)
Definition fresh_chatter : model TopicBody :=
  Model "/chatter" SrcNone 0
    {| construct_type := Some "std_msgs/String";
       publisher_node_names := ∅; subscriber_node_names := ∅ |}.

(** A topic entity as the snapshot writes it *)
Definition snapshot_chatter : model TopicBody :=
  Model "/chatter" (SrcStr "ros_snapshot") 0
    {| construct_type := Some "A/C";
       publisher_node_names := {[ "/talker" ]};
       subscriber_node_names := ∅ |}.

(** The HAROS topics they are merged with *)
Definition haros_chatter : HarosTopic :=
  {| ht_id := "/chatter"; ht_type := "std_msgs/String";
     ht_publishers := ["/talker"]; ht_subscribers := [] |}.

Definition haros_chatter_other_type : HarosTopic :=
  {| ht_id := "/chatter"; ht_type := "A/B";
     ht_publishers := ["/talker"]; ht_subscribers := [] |}.

Definition haros_placeholder : HarosTopic :=
  {| ht_id := "/camera/?"; ht_type := "sensor_msgs/Image";
     ht_publishers := ["/camera"]; ht_subscribers := [] |}.

End Merger.

(** ** chris_ros_snapshot: remapper_bank.py *)

From stdpp Require Import pretty.

Module Remapper.

(** What a data name is mapped to: [None], one key, or a list of keys *)
Inductive remap : Type :=
| RNone
| RKey (key : string)
| RKeys (keys : list string).

Global Instance remap_eq_dec : EqDecision remap.
Proof. solve_decision. Defined.

(** [RemapperBank._data_to_key_maps] *)
Abbreviation RemapperBank := (gmap string remap).

(** [RemapperBank()] *)
Definition RemapperBank_init : RemapperBank := ∅.

(** [__getitem__]: a plain dictionary lookup *)
Definition getitem (bank : RemapperBank) (data_name : string) : result remap :=
  match bank !! data_name with
  | Some v => Returns v
  | None => Raises (KeyError data_name)
  end.

Section add_remap.

(** [str(.)] of a list of strings, as [print] writes it *)
Variable str_of_list : list string → string.

(** [add_remap]; the state is the dictionary and the lines printed so far.
    A [print] of several items writes them separated by one space. *)
Definition add_remap (st : RemapperBank * list string)
    (data_name key : string) : RemapperBank * list string :=
  let '(bank, out) := st in
  match bank !! data_name with
  | None | Some RNone => (<[data_name := RKey key]> bank, out)
  | Some (RKey k) =>
      if bool_decide (key = k) then (bank, out)
      else
        (<[data_name := RKeys [k; key]]> bank,
         out ++ ["    Adding " +:+ " " +:+ key +:+ " " +:+ " to existing "
                 +:+ " " +:+ data_name +:+ " " +:+ " as list" +:+ " " +:+ k])
  | Some (RKeys l) =>
      if bool_decide (key ∈ l) then (bank, out)
      else
        (<[data_name := RKeys (l ++ [key])]> bank,
         out ++ ["    Adding " +:+ " " +:+ key +:+ " " +:+ " to existing "
                 +:+ " " +:+ data_name +:+ " " +:+ str_of_list l])
  end.

(** [spec.file_path] of a node specification: a list of file names or one *)
Inductive file_path : Type :=
| FileList (file_names : list string)
| FileOne (file_name : string).

(** The loop body of [ROSSnapshot._create_spec_remappers] for one node
    specification, given as its name and its [file_path] *)
Definition remap_spec (st : RemapperBank * list string)
    (spec : string * file_path) : RemapperBank * list string :=
  let '(name, path) := spec in
  match path with
  | FileList file_names =>
      foldl (λ st file_name, add_remap st file_name name) st file_names
  | FileOne file_name => add_remap st file_name name
  end.

(** The node remapper [_create_spec_remappers] builds from the node
    specifications, in the order the bank yields them *)
Definition create_node_remapper (specs : list (string * file_path))
  : RemapperBank * list string :=
  foldl remap_spec (RemapperBank_init, []) specs.

End add_remap.

(** The keys a data name is mapped to *)
Definition remap_keys (v : option remap) : list string :=
  match v with
  | None | Some RNone => []
  | Some (RKey k) => [k]
  | Some (RKeys l) => l
  end.

(** The file names of a [file_path] *)
Definition file_names_of (p : file_path) : list string :=
  match p with
  | FileList l => l
  | FileOne f => [f]
  end.

End Remapper.

(** ** chris_ros_snapshot: more of node_builder.py and ros_snapshot.py *)

Module Deployment.

(** *** node_builder.py: [_extract_topics_for_nodelet_or_manager] *)

(** One of its two loops, over [set(topic_names[role].keys())]; the state
    is the dictionary of the role, which the loop pops from, and the
    dictionary of extracted topics.  Reading the type of a topic without
    one is a [KeyError]. *)
Fixpoint extract_loop (topic_names_to_types : gmap string string)
    (keys : list string)
    (st : gmap string (option string) * gmap string (option string))
  : result (gmap string (option string) * gmap string (option string)) :=
  match keys with
  | [] => Returns st
  | topic_name :: rest =>
      match topic_names_to_types !! topic_name with
      | None => Raises (KeyError topic_name)
      | Some ty =>
          if bool_decide (ty = "bond/Status") then
            match st.1 !! topic_name with
            | None => Raises (KeyError topic_name)
            | Some remap =>
                extract_loop topic_names_to_types rest
                  (delete topic_name st.1, <[topic_name := remap]> st.2)
            end
          else extract_loop topic_names_to_types rest st
      end
  end.

(** [_extract_topics_for_nodelet_or_manager]: the published and the
    subscribed topics that stay, then the extracted ones of each role *)
Definition extract_topics_for_nodelet_or_manager
    (published subscribed : gmap string (option string))
    (topic_names_to_types : gmap string string)
  : result (gmap string (option string) * gmap string (option string)
            * gmap string (option string) * gmap string (option string)) :=
  '(published', nodelet_published) ←
    extract_loop topic_names_to_types (fst <$> map_to_list published)
      (published, ∅);
  '(subscribed', nodelet_subscribed) ←
    extract_loop topic_names_to_types (fst <$> map_to_list subscribed)
      (subscribed, ∅);
  Returns (published', subscribed', nodelet_published, nodelet_subscribed).

(** *** node_builder.py: the [machine] property *)

Section machine.

(** [str(.)] of a list of strings, as [format] writes it *)
Variable str_of_list : list string → string.

(** [l[0]] on the (non-empty) result of a split *)
Definition first_token (l : list string) : string := List.hd "" l.

(** The value the [machine] property computes, on first use, from the URI
    gathered for the node (a string), and what it logs *)
Definition machine (uri : string) (lg : logger) : string * logger :=
  let machine := "UNKNOWN MACHINE" in
  if PyStr.contains "UNKNOWN" uri then (machine, lg)
  else
    let tokens := PyStr.split "/"%char uri in
    if bool_decide (length tokens < 2) then
      (machine, log lg ERROR ("UNKNOWN MACHINE" +:+ ": " +:+ str_of_list tokens
                              +:+ "."))
    else
      let address :=
        if bool_decide (PyStr.last_token tokens = "")
        then PyStr.last_token (PyStr.but_last tokens)
        else PyStr.last_token tokens in
      (first_token (PyStr.split ":"%char address), lg).

End machine.

(** *** ros_snapshot.py: [_update_node_specification_data] *)

Section update_node_specification_data.

(** The values a [construct_type] property returns *)
Context {T : Type}.

(** [item_builders[spec_name].construct_type]: the type the bank builder
    of the kind resolves for a deployed name.  The property of an action
    builder extracts the type on first use and can raise; the loop asks
    each name once. *)
Variable io_type_of : string → result T.

Record update_state : Type := {
  spec_data : gmap string T;
  token_map : gmap string nat;
  builder_data : gmap string (option string)
}.

(** [spec_name.split("/")[-1]] *)
Definition spec_token_of (spec_name : string) : string :=
  PyStr.last_token (PyStr.split "/"%char spec_name).

(** The body of the loop over [sorted(builder_data)]: the type is resolved
    first; [token_map[spec_token] += 1] is a [KeyError] for a token that
    is a key of [spec_data] but has no count. *)
Definition update_step (st : update_state) (spec_name : string)
  : result update_state :=
  spec_type ← io_type_of spec_name;
  let spec_token := spec_token_of spec_name in
  if bool_decide (spec_token ∈ dom (spec_data st)) then
    match token_map st !! spec_token with
    | None => Raises (KeyError spec_token)
    | Some count =>
        let token_map' := <[spec_token := count + 1]> (token_map st) in
        let spec_token' := spec_token +:+ "_" +:+ pretty (count + 1) in
        Returns {| spec_data := <[spec_token' := spec_type]> (spec_data st);
                   token_map := token_map';
                   builder_data :=
                     <[spec_name := Some spec_token']> (builder_data st) |}
    end
  else
    Returns {| spec_data := <[spec_token := spec_type]> (spec_data st);
               token_map := <[spec_token := 0]> (token_map st);
               builder_data :=
                 <[spec_name := Some spec_token]> (builder_data st) |}.

Fixpoint update_loop (st : update_state) (spec_names : list string)
  : result update_state :=
  match spec_names with
  | [] => Returns st
  | spec_name :: rest => st' ← update_step st spec_name; update_loop st' rest
  end.

(** [_update_node_specification_data]: the updated [spec_data] and
    [builder_data] *)
Definition update_node_specification_data (spec : gmap string T)
    (builder : gmap string (option string))
  : result (gmap string T * gmap string (option string)) :=
  st ← update_loop {| spec_data := spec;
                      token_map := (λ _, 0) <$> spec;
                      builder_data := builder |}
                   (PyStr.sorted_set (dom builder));
  Returns (spec_data st, builder_data st).

End update_node_specification_data.

End Deployment.

(** * Properties *)

(** ** The primitives and the scenarios of the specification, evaluated *)

Example name_base_and_suffix :
  (Snapshot.name_base "/r/move/goal", Snapshot.name_suffix "/r/move/goal")
  = ("/r/move", "/goal").
Proof. reflexivity. Qed.

Example strip_keeps_inner_text : PyStr.strip "  /camera/? " = "/camera/?".
Proof. reflexivity. Qed.

Example sorted_is_bytewise :
  PyStr.sorted ["b"; "a"; "ab"; "B"] = ["B"; "a"; "ab"; "b"].
Proof. reflexivity. Qed.

Example action_type_prefix :
  PyStr.drop_last (String.length (Snapshot.action_type_token "Goal"))
    "pkg/MoveActionGoal" = "pkg/Move".
Proof. reflexivity. Qed.

Example snapshot_source_gains_the_tag :
  Merger.updated_source (Merger.SrcStr "ros_snapshot")
  = Merger.SrcStr "haros_chris_model_merger, ros_snapshot".
Proof. vm_compute. reflexivity. Qed.

(** The exact-match scenario: [cam/exposure] of type [int] against the
    catalog [exposure], [gain] *)
Example exact_token_match :
  Snapshot.match_token_types (λ _, "int") "/cam" {[ "cam/exposure" := None ]}
    (Some {[ "exposure" := "int"; "gain" := "int" ]}) []
  = ({[ "cam/exposure" := Some "exposure" ]}, Some true, []).
Proof. vm_compute. reflexivity. Qed.

(** The fallback scenario: [cam/brightness] gets the first key of its type
    in sorted order *)
Example fallback_token_match :
  Snapshot.match_token_types (λ _, "int") "/cam"
    {[ "cam/brightness" := None ]}
    (Some {[ "exposure" := "int"; "gain" := "int" ]}) []
  = ({[ "cam/brightness" := Some "exposure" ]}, Some true, []).
Proof. vm_compute. reflexivity. Qed.

(** No catalog at all: a node with deployed names is invalid, one without
    gets Python's [None] *)
Example no_catalog :
  Snapshot.match_token_types (λ _, "int") "/cam" {[ "cam/gain" := None ]}
    None []
  = ({[ "cam/gain" := None ]}, Some false, [])
  ∧ Snapshot.match_token_types (λ _, "int") "/cam" ∅ None [] = (∅, None, []).
Proof. split; vm_compute; reflexivity. Qed.

(** The manager and nodelet scenario: [N] publishes a [bond/Status] topic
    and provides the three services, [M] only publishes the topic. *)
Example manager_and_nodelet :
  let N := foldl (@Snapshot.add_fact Snapshot.default_filters)
             (Snapshot.NodeBuilder_init "/N")
             [Snapshot.TopicFact "/N/bond" Snapshot.published "bond/Status" None;
              Snapshot.ServiceFact "/N/list" "nodelet/NodeletList";
              Snapshot.ServiceFact "/N/load_nodelet" "nodelet/NodeletLoad";
              Snapshot.ServiceFact "/N/unload_nodelet" "nodelet/NodeletUnload"] in
  let M := foldl (@Snapshot.add_fact Snapshot.default_filters)
             (Snapshot.NodeBuilder_init "/M")
             [Snapshot.TopicFact "/N/bond" Snapshot.published "bond/Status" None] in
  (∃ N', Snapshot.classify N = Returns N'
         ∧ Snapshot.is_nodelet_manager N' = true
         ∧ Snapshot.is_nodelet N' = false)
  ∧ (∃ M', Snapshot.classify M = Returns M'
           ∧ Snapshot.is_nodelet_manager M' = false
           ∧ Snapshot.is_nodelet M' = true).
Proof. split; eexists; (split; [vm_compute; reflexivity|]); by split. Qed.
(** ** Dynamic attribute update *)

Section update_attributes_facts.
Import Metamodel.
Variable int_of_str : string → option Z.
Variable int_of_obj : N → option Z.
Variable repr_of : value → string.

(** C10 (as amended): for every key other than ["version"] whose current
    value is a string, updating with a different string turns the field
    into the two-element list of the old string followed by the new one
    and touches nothing else, and updating with the equal string leaves the
    entity and the log as they were. *)
Theorem update_attributes_string_field (e : entity) (lg : logger)
    (key old new : string) :
  key ≠ "version" →
  attrs e !! key = Some (VStr old) →
  (new ≠ old →
   update_attributes int_of_str int_of_obj repr_of (e, lg) [(key, VStr new)]
   = Returns (setattr e key (VList [VStr old; VStr new]), lg))
  ∧ update_attributes int_of_str int_of_obj repr_of (e, lg) [(key, VStr old)]
    = Returns (e, lg).
Proof.
  intros Hkey Hold. split.
  - intros Hne. simpl. unfold update_attribute. rewrite Hold. simpl.
    by repeat case_bool_decide; simplify_eq.
  - simpl. unfold update_attribute. rewrite Hold. simpl.
    by repeat case_bool_decide; simplify_eq.
Qed.

End update_attributes_facts.

(** C10, a concrete instance: a [node] field holding ["pkg/a"] *)
Lemma update_attributes_string_field_witness :
  let e := Metamodel.Entity "Node"
             {[ "name" := Metamodel.VStr "/n"; "node" := Metamodel.VStr "pkg/a" ]} in
  ("node" ≠ "version" ∧ Metamodel.attrs e !! "node" = Some (Metamodel.VStr "pkg/a")) ∧
  (("pkg/b" ≠ "pkg/a" →
   Metamodel.update_attributes (λ _, None) (λ _, None) (λ _, "") (e, [])
     [("node", Metamodel.VStr "pkg/b")]
   = Returns (Metamodel.setattr e "node"
                (Metamodel.VList [Metamodel.VStr "pkg/a"; Metamodel.VStr "pkg/b"]), []))
  ∧ Metamodel.update_attributes (λ _, None) (λ _, None) (λ _, "") (e, [])
      [("node", Metamodel.VStr "pkg/a")] = Returns (e, [])).
Proof.
  intros e. split; [split; [discriminate | reflexivity] |].
  apply (update_attributes_string_field (λ _, None) (λ _, None) (λ _, "")
           e [] "node" "pkg/a" "pkg/b"); [discriminate | reflexivity].
Defined.

(** C10 as stated fails for the key ["version"]: a string-valued version is
    joined to the new string with an underscore, also when the two are
    equal. *)
Lemma update_attributes_version_counterexample :
  let e := Metamodel.Entity "Node"
             {[ "name" := Metamodel.VStr "/n"; "version" := Metamodel.VStr "v1" ]} in
  Metamodel.attrs e !! "version" = Some (Metamodel.VStr "v1")
  ∧ Metamodel.update_attributes (λ _, None) (λ _, None) (λ _, "") (e, [])
      [("version", Metamodel.VStr "v2")]
    = Returns (Metamodel.setattr e "version" (Metamodel.VStr "v1_v2"), [])
  ∧ Metamodel.update_attributes (λ _, None) (λ _, None) (λ _, "") (e, [])
      [("version", Metamodel.VStr "v2")]
    ≠ Returns (Metamodel.setattr e "version"
                 (Metamodel.VList [Metamodel.VStr "v1"; Metamodel.VStr "v2"]), [])
  ∧ Metamodel.update_attributes (λ _, None) (λ _, None) (λ _, "") (e, [])
      [("version", Metamodel.VStr "v1")]
    ≠ Returns (e, []).
Proof.
  intros e. split; [reflexivity|]. split; [reflexivity|]. split.
  - intros Heq. apply (f_equal (λ r, match r with
                                     | Returns (x, _) => Metamodel.attrs x !! "version"
                                     | Raises _ => None end)) in Heq.
    vm_compute in Heq. discriminate.
  - intros Heq. apply (f_equal (λ r, match r with
                                     | Returns (x, _) => Metamodel.attrs x !! "version"
                                     | Raises _ => None end)) in Heq.
    vm_compute in Heq. discriminate.
Qed.

(** ** Action clients and servers: appearance counts *)

Section appearance_counts.
Import Snapshot.
Context `{Filters}.

Lemma add_or_increment_lookup counts key n :
  add_or_increment_dictionary_count counts key !! n =
  if decide (key = n) then Some (S (count_of counts n)) else counts !! n.
Proof.
  unfold add_or_increment_dictionary_count, count_of.
  destruct (counts !! key) as [c|] eqn:Hk.
  - rewrite Hk. destruct (decide (key = n)) as [<-|Hne].
    + rewrite lookup_insert_eq, Hk. simpl. f_equal. lia.
    + by rewrite lookup_insert_ne.
  - rewrite lookup_insert_eq. destruct (decide (key = n)) as [<-|Hne].
    + rewrite lookup_insert_eq, Hk. simpl. done.
    + by rewrite !lookup_insert_ne.
Qed.

Lemma add_or_increment_count counts key n :
  count_of (add_or_increment_dictionary_count counts key) n =
  count_of counts n + (if decide (key = n) then 1 else 0).
Proof.
  unfold count_of at 1. rewrite add_or_increment_lookup.
  destruct (decide (key = n)); simpl; [lia|]. unfold count_of. lia.
Qed.

Lemma add_or_increment_positive counts key :
  positive_counts counts →
  positive_counts (add_or_increment_dictionary_count counts key).
Proof.
  intros Hpos n. rewrite add_or_increment_lookup.
  destruct (decide (key = n)); [discriminate | apply Hpos].
Qed.

Lemma foldl_increment_count (l : list string) counts n :
  NoDup l →
  count_of (foldl add_or_increment_dictionary_count counts l) n =
  count_of counts n + (if decide (n ∈ l) then 1 else 0).
Proof.
  revert counts. induction l as [|k l IH]; intros counts Hnd.
  - cbn [foldl]. destruct (decide (n ∈ [])) as [[]%elem_of_nil|]. lia.
  - apply NoDup_cons in Hnd as [Hk Hnd]. cbn [foldl]. rewrite IH by done.
    rewrite add_or_increment_count.
    destruct (decide (k = n)) as [Heq|Hne], (decide (n ∈ l)) as [Hin|Hin],
      (decide (n ∈ k :: l)) as [Hin'|Hin']; try lia; exfalso;
      set_solver.
Qed.

Lemma foldl_increment_positive (l : list string) counts :
  positive_counts counts →
  positive_counts (foldl add_or_increment_dictionary_count counts l).
Proof.
  revert counts. induction l as [|k l IH]; intros counts Hpos; simpl; [done|].
  by apply IH, add_or_increment_positive.
Qed.

(** The counting loop raises exactly when a suffix has no topic builder *)
Lemma count_loop_returns names sufs suffixes counts :
  (∀ s, s ∈ suffixes → is_Some (sufs !! s)) →
  ∃ counts', count_loop names sufs suffixes counts = Returns counts'.
Proof.
  revert counts. induction suffixes as [|s l IH]; intros counts Hall; simpl.
  - by eexists.
  - destruct (Hall s) as [tb ->]; [apply list_elem_of_here|].
    apply IH. intros s' Hs'. apply Hall. by apply list_elem_of_further.
Qed.

Lemma count_loop_raises names sufs suffixes counts e :
  count_loop names sufs suffixes counts = Raises e →
  ∃ k, e = KeyError k ∧ k ∈ suffixes ∧ sufs !! k = None.
Proof.
  revert counts. induction suffixes as [|s l IH]; intros counts; simpl.
  - discriminate.
  - destruct (sufs !! s) as [tb|] eqn:Hs.
    + intros (k & -> & Hk & Hnone)%IH. exists k.
      split_and!; [done | by apply list_elem_of_further | done].
    + intros [= <-]. exists s. split_and!; [done | apply list_elem_of_here | done].
Qed.

Lemma count_loop_count names sufs suffixes counts counts' n :
  count_loop names sufs suffixes counts = Returns counts' →
  count_of counts' n = count_of counts n + appearances names sufs suffixes n.
Proof.
  unfold appearances.
  revert counts. induction suffixes as [|s l IH]; intros counts; simpl.
  - intros [= <-]. lia.
  - destruct (sufs !! s) as [tb|] eqn:Hs; [|discriminate].
    intros Hloop. rewrite (IH _ Hloop).
    rewrite foldl_increment_count by apply NoDup_elements.
    rewrite filter_cons.
    assert (appears names sufs n s = bool_decide (n ∈ names tb)) as Happ
      by (unfold appears; by rewrite Hs).
    destruct (decide (n ∈ elements (names tb))) as [Hin|Hin],
      (decide (appears names sufs n s = true)) as [Ha|Ha];
      cbn [length]; try lia; exfalso;
      rewrite Happ, bool_decide_eq_true, <-elem_of_elements in Ha; done.
Qed.

Lemma count_loop_positive names sufs suffixes counts counts' :
  positive_counts counts →
  count_loop names sufs suffixes counts = Returns counts' →
  positive_counts counts'.
Proof.
  revert counts. induction suffixes as [|s l IH]; intros counts Hpos; simpl.
  - by intros [= <-].
  - destruct (sufs !! s) as [tb|]; [|discriminate].
    apply IH. by apply foldl_increment_positive.
Qed.



End appearance_counts.

Section action_roles.
Import Snapshot.
Context `{Filters}.

Lemma count_loop_returns_inv names sufs suffixes counts counts' :
  count_loop names sufs suffixes counts = Returns counts' →
  ∀ s, s ∈ suffixes → is_Some (sufs !! s).
Proof.
  revert counts. induction suffixes as [|s l IH]; intros counts; simpl.
  - intros _ s []%elem_of_nil.
  - destruct (sufs !! s) as [tb|] eqn:Hs; [|discriminate].
    intros Hloop s' [->|Hs']%elem_of_cons; [by eexists | by eapply IH].
Qed.

Lemma count_appearances_returns a pubs subs counts :
  (∀ s, s ∈ pubs ++ subs → is_Some (topic_name_suffixes_to_builders a !! s)) →
  ∃ counts', count_action_node_appearances a pubs subs counts
             = Returns counts'.
Proof.
  intros Hall. unfold count_action_node_appearances.
  destruct (count_loop_returns publisher_node_names
              (topic_name_suffixes_to_builders a) pubs counts) as [c1 ->].
  { intros s Hs. apply Hall, elem_of_app. by left. }
  cbn [mbind result_bind]. apply count_loop_returns.
  intros s Hs. apply Hall, elem_of_app. by right.
Qed.

Lemma count_appearances_inv a pubs subs counts r :
  count_action_node_appearances a pubs subs counts = r →
  match r with
  | Returns counts' =>
      (∀ s, s ∈ pubs ++ subs →
            is_Some (topic_name_suffixes_to_builders a !! s))
      ∧ (positive_counts counts → positive_counts counts')
      ∧ ∀ n, count_of counts' n =
             count_of counts n
             + appearances publisher_node_names
                 (topic_name_suffixes_to_builders a) pubs n
             + appearances subscriber_node_names
                 (topic_name_suffixes_to_builders a) subs n
  | Raises e =>
      ∃ k, e = KeyError k ∧ k ∈ pubs ++ subs
           ∧ topic_name_suffixes_to_builders a !! k = None
  end.
Proof.
  intros <-. unfold count_action_node_appearances.
  destruct (count_loop publisher_node_names _ pubs counts) as [c1|e] eqn:H1;
    cbn [mbind result_bind].
  - destruct (count_loop subscriber_node_names _ subs c1) as [c2|e] eqn:H2.
    + split_and!.
      * intros s [?|?]%elem_of_app;
          [eapply (count_loop_returns_inv _ _ _ _ _ H1)
          |eapply (count_loop_returns_inv _ _ _ _ _ H2)]; done.
      * intros Hpos. by do 2 (eapply count_loop_positive; [|done]).
      * intros n. rewrite (count_loop_count _ _ _ _ _ n H2).
        by rewrite (count_loop_count _ _ _ _ _ n H1).
    + apply count_loop_raises in H2 as (k & -> & Hk & Hnone).
      exists k. split_and!; [done | apply elem_of_app; by right | done].
  - apply count_loop_raises in H1 as (k & -> & Hk & Hnone).
    exists k. split_and!; [done | apply elem_of_app; by left | done].
Qed.

Lemma positive_counts_empty : positive_counts ∅.
Proof. intros n. by rewrite lookup_empty. Qed.


Lemma server_suffixes_perm :
  SERVER_PUBLISHED_TOPIC_SUFFIXES ++ CLIENT_PUBLISHED_TOPIC_SUFFIXES
  ≡ₚ TOPIC_SUFFIXES.
Proof. unfold TOPIC_SUFFIXES. apply Permutation_app_comm. Qed.

Lemma gather_names_cases a lg :
  match gather_action_client_and_server_names a lg with
  | Returns (clients, servers, lg') =>
      (∀ s, s ∈ TOPIC_SUFFIXES →
            is_Some (topic_name_suffixes_to_builders a !! s))
      ∧ ∃ cc sc,
          positive_counts cc ∧ positive_counts sc
          ∧ (∀ n, count_of cc n = client_appearances a n)
          ∧ (∀ n, count_of sc n = server_appearances a n)
          ∧ gather_valid_action_node_names_based_on_appearance_counts cc lg
            = (clients,
               (gather_valid_action_node_names_based_on_appearance_counts
                  cc lg).2)
          ∧ gather_valid_action_node_names_based_on_appearance_counts sc
              (gather_valid_action_node_names_based_on_appearance_counts
                 cc lg).2
            = (servers, lg')
  | Raises e =>
      ∃ k, e = KeyError k ∧ k ∈ TOPIC_SUFFIXES
           ∧ topic_name_suffixes_to_builders a !! k = None
  end.
Proof.
  unfold gather_action_client_and_server_names.
  pose proof (count_appearances_inv a CLIENT_PUBLISHED_TOPIC_SUFFIXES
                SERVER_PUBLISHED_TOPIC_SUFFIXES ∅ _ eq_refl) as H1.
  destruct (count_action_node_appearances a CLIENT_PUBLISHED_TOPIC_SUFFIXES
              SERVER_PUBLISHED_TOPIC_SUFFIXES ∅) as [cc|e];
    cbn [mbind result_bind]; [|done].
  destruct H1 as (Hall & Hpos1 & Hc1).
  pose proof (count_appearances_inv a SERVER_PUBLISHED_TOPIC_SUFFIXES
                CLIENT_PUBLISHED_TOPIC_SUFFIXES ∅ _ eq_refl) as H2.
  destruct (count_action_node_appearances a SERVER_PUBLISHED_TOPIC_SUFFIXES
              CLIENT_PUBLISHED_TOPIC_SUFFIXES ∅) as [sc|e];
    cbn [mbind result_bind].
  - destruct H2 as (_ & Hpos2 & Hc2).
    destruct (gather_valid_action_node_names_based_on_appearance_counts cc lg)
      as [clients lg1] eqn:Hg1.
    destruct (gather_valid_action_node_names_based_on_appearance_counts sc lg1)
      as [servers lg2] eqn:Hg2.
    split; [done|]. exists cc, sc. split_and!.
    + apply Hpos1, positive_counts_empty.
    + apply Hpos2, positive_counts_empty.
    + intros n. rewrite Hc1. unfold client_appearances, count_of.
      rewrite lookup_empty. simpl. lia.
    + intros n. rewrite Hc2. unfold server_appearances, count_of.
      rewrite lookup_empty. simpl. lia.
    + by rewrite Hg1.
    + by rewrite Hg1.
  - destruct H2 as (k & -> & Hk & Hnone). exists k. split_and!; [done| |done].
    by rewrite <-server_suffixes_perm.
Qed.

(** C9: gathering the client and server names of an action returns exactly
    when the action holds a topic builder for each of the five suffixes; a
    cluster that passes [validate_action_topic_builders] but lacks one of
    the suffixes makes the counting step fail with the [KeyError] of a
    missing suffix. *)
Theorem gather_names_needs_all_five_suffixes (a : ActionBuilder)
    (lg : logger) :
  ((∃ r, gather_action_client_and_server_names a lg = Returns r)
   ↔ ∀ s, s ∈ TOPIC_SUFFIXES →
          is_Some (topic_name_suffixes_to_builders a !! s))
  ∧ (validate_action_topic_builders a = Returns true →
     (∃ s, s ∈ TOPIC_SUFFIXES ∧ topic_name_suffixes_to_builders a !! s = None) →
     ∃ k, k ∈ TOPIC_SUFFIXES ∧ topic_name_suffixes_to_builders a !! k = None
          ∧ gather_action_client_and_server_names a lg = Raises (KeyError k)
          ∧ ActionBuilder_prepare a lg = Raises (KeyError k)).
Proof.
  pose proof (gather_names_cases a lg) as Hcases. split; [split|].
  - intros [r Hr]. rewrite Hr in Hcases. destruct r as [[clients servers] lg'].
    by destruct Hcases.
  - intros Hall.
    destruct (gather_action_client_and_server_names a lg) as [r|e];
      [by eexists|].
    destruct Hcases as (k & _ & Hk & Hnone).
    destruct (Hall k Hk) as [tb Htb]. congruence.
  - intros _ (s & Hs & Hnone).
    destruct (gather_action_client_and_server_names a lg)
      as [[[clients servers] lg']|e] eqn:Hg.
    + destruct Hcases as [Hall _]. destruct (Hall s Hs) as [tb Htb]. congruence.
    + destruct Hcases as (k & -> & Hk & Hk'). exists k.
      split_and!; [done..|]. unfold ActionBuilder_prepare. by rewrite Hg.
Qed.


End action_roles.

(** C9, a concrete instance: under the default filters, the cluster of
    the three core topics passes the validation and has no [/cancel]
    topic. *)
Lemma gather_names_needs_all_five_suffixes_witness :
  let a := Snapshot.core_only_action_builder in
  Snapshot.validate_action_topic_builders a = Returns true
  ∧ (∃ s, s ∈ Snapshot.TOPIC_SUFFIXES
          ∧ Snapshot.topic_name_suffixes_to_builders a !! s = None)
  ∧ ∃ k, k ∈ Snapshot.TOPIC_SUFFIXES
         ∧ Snapshot.topic_name_suffixes_to_builders a !! k = None
         ∧ @Snapshot.gather_action_client_and_server_names
             Snapshot.default_filters a [] = Raises (KeyError k)
         ∧ @Snapshot.ActionBuilder_prepare Snapshot.default_filters a []
           = Raises (KeyError k).
Proof.
  intros a.
  assert (∃ s, s ∈ Snapshot.TOPIC_SUFFIXES
               ∧ Snapshot.topic_name_suffixes_to_builders a !! s = None)
    as Hmissing.
  { exists "/cancel". split; [apply list_elem_of_here | reflexivity]. }
  assert (Snapshot.validate_action_topic_builders a = Returns true)
    as Hvalid by (vm_compute; reflexivity).
  split; [exact Hvalid|]. split; [exact Hmissing|].
  exact (proj2 (@gather_names_needs_all_five_suffixes
                  Snapshot.default_filters a []) Hvalid Hmissing).
Defined.



(** ** Promotion of a topic cluster to an action *)

Section promotion.
Import Snapshot.
Context `{Filters}.

(** Preparing an action builder that has its five topics returns the same
    builder with its client and server names filled in. *)
Lemma prepare_returns a lg :
  (∀ s, s ∈ TOPIC_SUFFIXES →
        is_Some (topic_name_suffixes_to_builders a !! s)) →
  ∃ clients servers lg',
    ActionBuilder_prepare a lg =
    Returns ({| ab_name := ab_name a;
                ab_construct_type := ab_construct_type a;
                topic_names_to_builders := topic_names_to_builders a;
                topic_name_suffixes_to_builders :=
                  topic_name_suffixes_to_builders a;
                ab_client_node_names := clients;
                ab_server_node_names := servers |}, lg').
Proof.
  intros Hall. unfold ActionBuilder_prepare.
  pose proof (gather_names_cases a lg) as Hcases.
  destruct (gather_action_client_and_server_names a lg)
    as [[[clients servers] lg']|e]; cbn [mbind result_bind].
  - by eexists _, _, _.
  - destruct Hcases as (k & _ & Hk & Hnone).
    destruct (Hall k Hk) as [tb Htb]. congruence.
Qed.

Lemma move_action_has_all_suffixes rt pubs subs s :
  s ∈ TOPIC_SUFFIXES →
  is_Some (topic_name_suffixes_to_builders
             (move_action_builder rt pubs subs) !! s).
Proof.
  intros Hs. apply list_elem_of_In in Hs. simpl in Hs.
  destruct Hs as [<-|[<-|[<-|[<-|[<-|[]]]]]]; vm_compute; eauto.
Qed.

(** The pipeline on a bank whose extraction yields the one action builder
    of the [/r/move] cluster and empties the bank *)
Lemma move_pipeline rt pubs subs lg lg1 :
  extract_action_builders_from_internal_topic_builders
    (move_topic_bank rt pubs subs) lg
  = Returns ({[ "/r/move" := move_action_builder rt pubs subs ]},
             with_builders (move_topic_bank rt pubs subs) ∅, lg1) →
  ∃ clients servers lg2,
    build_topic_and_action_banks (move_topic_bank rt pubs subs) ∅ lg
    = (m ← ActionBuilder_extract_metamodel
             {| ab_name := "/r/move"; ab_construct_type := None;
                topic_names_to_builders :=
                  topic_names_to_builders (move_action_builder rt pubs subs);
                topic_name_suffixes_to_builders :=
                  topic_name_suffixes_to_builders
                    (move_action_builder rt pubs subs);
                ab_client_node_names := clients;
                ab_server_node_names := servers |};
       Returns (∅, {[ "/r/move" := m ]}, lg2)).
Proof.
  intros Hext. unfold build_topic_and_action_banks. rewrite Hext.
  cbn [mbind result_bind]. rewrite map_to_list_singleton.
  cbn [fmap list_fmap snd add_entity_builders foldl].
  change (ab_name (move_action_builder rt pubs subs)) with "/r/move".
  rewrite insert_empty.
  unfold action_bank_prepare. rewrite map_to_list_singleton.
  cbn [action_bank_prepare_loop].
  destruct (prepare_returns (move_action_builder rt pubs subs) lg1)
    as (clients & servers & lg2 & ->).
  { apply move_action_has_all_suffixes. }
  cbn [mbind result_bind action_bank_prepare_loop].
  exists clients, servers, lg2.
  rewrite insert_singleton_eq.
  unfold action_bank_extract_metamodel. rewrite map_to_list_singleton.
  cbn [action_bank_extract_loop].
  change (ab_name (move_action_builder rt pubs subs)) with "/r/move".
  change (ab_construct_type (move_action_builder rt pubs subs)) with (@None string).
  unfold topic_bank_extract_metamodel, topic_bank_prepare.
  cbn [names_to_entity_builders with_builders].
  rewrite map_filter_empty, fmap_empty.
  match goal with
  | |- context [ActionBuilder_extract_metamodel ?x] =>
      destruct (ActionBuilder_extract_metamodel x) as [m|e]
  end; cbn [mbind result_bind]; [|done].
  by rewrite insert_empty.
Qed.

(** C3: the five topics of [/r/move], with [/r/move/result] of type
    [pkg/MoveActionResult] and whatever nodes publish or subscribe to them,
    give exactly one action, named [/r/move] with construct type
    [pkg/Move], and no topic is left in the topic bank. *)
Theorem move_cluster_is_promoted (pubs subs : string → gset string)
    (lg : logger) :
  ∃ actions act lg',
    build_topic_and_action_banks
      (move_topic_bank "pkg/MoveActionResult" pubs subs) ∅ lg
    = Returns (∅, actions, lg')
    ∧ actions = {[ "/r/move" := act ]}
    ∧ action_name act = "/r/move"
    ∧ action_construct_type act = Some "pkg/Move"
    ∧ dom (suffix_names_to_topics act) = list_to_set TOPIC_SUFFIXES.
Proof.
  destruct (move_pipeline "pkg/MoveActionResult" pubs subs lg
              (log (log lg INFO
                 "Searching topics in topic bank for corresponding actions.")
                 INFO "Action /r/move is valid. Removing corresponding topics from topic bank."))
    as (clients & servers & lg2 & ->).
  { vm_compute. reflexivity. }
  eexists _, _, lg2. split; [vm_compute; reflexivity|].
  split; [reflexivity|]. split; [reflexivity|]. split; [reflexivity|].
  vm_compute. reflexivity.
Qed.

(** C4 (what the code does): with [/r/move/result] of type
    [other/MoveActionResult] the cluster still passes
    [validate_action_topic_builders], which never compares the prefixes of
    the core types: the action builder is kept and the five topics leave
    the topic bank.  The mismatch is met only when the action's construct
    type is extracted, as a [ValueError] that nothing catches. *)
Theorem mismatched_prefix_cluster_is_promoted_then_raises
    (pubs subs : string → gset string) (lg : logger) :
  validate_action_topic_builders
    (move_action_builder "other/MoveActionResult" pubs subs) = Returns true
  ∧ extract_action_builders_from_internal_topic_builders
      (move_topic_bank "other/MoveActionResult" pubs subs) lg
    = Returns
        ({[ "/r/move" :=
              move_action_builder "other/MoveActionResult" pubs subs ]},
         with_builders (move_topic_bank "other/MoveActionResult" pubs subs) ∅,
         log (log lg INFO
                "Searching topics in topic bank for corresponding actions.")
             INFO "Action /r/move is valid. Removing corresponding topics from topic bank.")
  ∧ build_topic_and_action_banks
      (move_topic_bank "other/MoveActionResult" pubs subs) ∅ lg
    = Raises (ValueError " ActionBuilder: Invalid construct type pkg/Move for /r/move - conflicts with other/MoveActionResult").
Proof.
  split; [vm_compute; reflexivity|].
  assert (extract_action_builders_from_internal_topic_builders
            (move_topic_bank "other/MoveActionResult" pubs subs) lg
          = Returns
              ({[ "/r/move" :=
                    move_action_builder "other/MoveActionResult" pubs subs ]},
               with_builders
                 (move_topic_bank "other/MoveActionResult" pubs subs) ∅,
               log (log lg INFO
                 "Searching topics in topic bank for corresponding actions.")
                 INFO "Action /r/move is valid. Removing corresponding topics from topic bank."))
    as Hext by (vm_compute; reflexivity).
  split; [done|].
  destruct (move_pipeline _ _ _ _ _ Hext) as (clients & servers & lg2 & ->).
  vm_compute. reflexivity.
Qed.

End promotion.

(** ** Nodelet manager classification *)

Section nodelet_manager.
Import Snapshot.
Context `{Filters}.

Lemma topics_consistent_init name : topics_consistent (NodeBuilder_init name).
Proof. split; cbn; set_solver. Qed.

Lemma topics_consistent_add_fact nb f :
  topics_consistent nb → topics_consistent (add_fact nb f).
Proof.
  intros [Hdom Hty]. destruct f as [n st ty remap|n ty]; cbn.
  - unfold add_topic_name. destruct (topic_should_filter_out n); [done|].
    split; cbn; destruct st; rewrite ?dom_insert_L; set_solver.
  - unfold add_service_name_and_type.
    by destruct (service_type_should_filter_out ty).
Qed.

Lemma topics_consistent_facts facts nb :
  topics_consistent nb → topics_consistent (foldl add_fact nb facts).
Proof.
  revert nb. induction facts as [|f facts IH]; intros nb Hnb; cbn; [done|].
  by apply IH, topics_consistent_add_fact.
Qed.

Lemma bond_loop_spec types verdict names :
  (∀ t, t ∈ names → is_Some (types !! t)) →
  ∃ b, bond_loop types verdict names = Returns b
       ∧ (b = true ↔
          verdict = true ∧ ∃ t, t ∈ names ∧ types !! t = Some "bond/Status").
Proof.
  induction names as [|t names IH]; intros Hall; cbn.
  - exists false. split; [done|]. split; [done|].
    intros (_ & t & []%elem_of_nil & _).
  - destruct (Hall t) as [ty Hty]; [apply list_elem_of_here|]. rewrite Hty.
    case_bool_decide as Hbond.
    + exists verdict. split; [done|]. subst ty. split; [|naive_solver].
      intros ->. split; [done|]. exists t. split; [apply list_elem_of_here|done].
    + destruct IH as (b & -> & Hb).
      { intros t' Ht'. apply Hall. by apply list_elem_of_further. }
      exists b. split; [done|]. rewrite Hb. split.
      * intros (-> & t' & Ht' & Hty'). split; [done|]. exists t'.
        split; [by apply list_elem_of_further|done].
      * intros (-> & t' & [->|Ht']%elem_of_cons & Hty'); [congruence|].
        split; [done|]. by exists t'.
Qed.

Lemma elem_of_service_types nb ty :
  ty ∈ service_types nb ↔ ∃ n, service_names_to_types nb !! n = Some ty.
Proof.
  unfold service_types. rewrite elem_of_list_to_set, list_elem_of_fmap. split.
  - intros ([n ty'] & -> & Hin%elem_of_map_to_list). by exists n.
  - intros [n Hn]. exists (n, ty). split; [done|]. by apply elem_of_map_to_list.
Qed.

Lemma provides_nodelet_services_spec nb :
  provides_nodelet_services nb = true ↔ provides_nodelet_triad nb.
Proof.
  unfold provides_nodelet_services, provides_nodelet_triad.
  rewrite !andb_true_iff, !bool_decide_eq_true, !elem_of_service_types.
  split.
  - intros [[H1 H2] H3] ty Hty. apply list_elem_of_In in Hty. simpl in Hty.
    destruct Hty as [<-|[<-|[<-|[]]]]; done.
  - intros Hall. split_and!; apply Hall; apply list_elem_of_In; simpl; auto.
Qed.

(** C5 (as amended): a node populated with any facts is classified as a
    nodelet manager exactly when one of the topics it publishes or
    subscribes to has type [bond/Status] and the types of its provided
    services include [nodelet/NodeletList], [nodelet/NodeletLoad] and
    [nodelet/NodeletUnload]; with such a topic and without the three
    services it is a nodelet. *)
Theorem nodelet_manager_classification (name : string)
    (facts : list node_fact) :
  let nb := foldl add_fact (NodeBuilder_init name) facts in
  ∃ nb',
    classify nb = Returns nb'
    ∧ (is_nodelet_manager nb' = true
       ↔ has_bond_topic nb ∧ provides_nodelet_triad nb)
    ∧ (is_nodelet nb' = true
       ↔ has_bond_topic nb ∧ ¬ provides_nodelet_triad nb).
Proof.
  intros nb.
  destruct (topics_consistent_facts facts (NodeBuilder_init name)
              (topics_consistent_init name)) as [Hdom Hty].
  fold nb in Hdom, Hty.
  assert (∀ t, t ∈ (map_to_list (all_topic_names nb)).*1 →
               is_Some (topic_names_to_types nb !! t)) as Hall.
  { intros t Ht. apply elem_of_dom, Hty, elem_of_dom.
    apply list_elem_of_fmap in Ht as ([t' r] & -> & Ht).
    apply elem_of_map_to_list in Ht. by eexists. }
  assert ((∃ t, t ∈ (map_to_list (all_topic_names nb)).*1
                ∧ topic_names_to_types nb !! t = Some "bond/Status")
          ↔ has_bond_topic nb) as Hbond.
  { unfold has_bond_topic. split; intros (t & Ht & Hb); exists t; (split; [|done]).
    - apply elem_of_union. rewrite <-Hdom. apply elem_of_dom.
      apply list_elem_of_fmap in Ht as ([t' r] & -> & Ht).
      apply elem_of_map_to_list in Ht. by eexists.
    - apply elem_of_union in Ht. rewrite <-Hdom in Ht.
      apply elem_of_dom in Ht as [r Hr]. apply list_elem_of_fmap.
      exists (t, r). split; [done|]. by apply elem_of_map_to_list. }
  unfold classify, gather_nodelet_manager_status, gather_nodelet_status.
  destruct (bond_loop_spec (topic_names_to_types nb)
              (provides_nodelet_services nb)
              ((map_to_list (all_topic_names nb)).*1) Hall)
    as (manager & -> & Hm).
  cbn [mbind result_bind topic_names_to_types all_topic_names
       is_nodelet_manager].
  destruct (bond_loop_spec (topic_names_to_types nb) (negb manager)
              ((map_to_list (all_topic_names nb)).*1) Hall)
    as (nodelet & -> & Hn).
  cbn [mbind result_bind]. eexists. split; [done|].
  cbn [is_nodelet_manager is_nodelet].
  rewrite Hbond in Hm, Hn. rewrite provides_nodelet_services_spec in Hm.
  split; [rewrite Hm; apply and_comm|]. rewrite Hn, negb_true_iff. split.
  - intros [Hf Hb]. split; [done|]. intros Ht.
    assert (manager = true) by (by apply Hm). congruence.
  - intros [Hb Hnt]. split; [|done]. destruct manager; [|done].
    exfalso. by apply Hnt, Hm.
Qed.

End nodelet_manager.

(** C5 as stated fails: a node that only subscribes to a [bond/Status]
    topic and provides the three services is a nodelet manager, and it
    publishes no topic at all. *)
Lemma subscribing_manager_counterexample :
  ∃ nb',
    Snapshot.classify (@Snapshot.subscribing_manager Snapshot.default_filters)
    = Returns nb'
    ∧ Snapshot.is_nodelet_manager nb' = true
    ∧ Snapshot.published_topic_names
        (@Snapshot.subscribing_manager Snapshot.default_filters) = ∅
    ∧ ¬ Snapshot.publishes_bond_topic
          (@Snapshot.subscribing_manager Snapshot.default_filters).
Proof.
  eexists. split; [vm_compute; reflexivity|]. split; [reflexivity|].
  split; [reflexivity|]. intros (t & Ht & _).
  by apply elem_of_dom in Ht as [r Hr].
Qed.

(** ** Token matching *)

Section sorted_find.

Lemma sorted_set_sorted (s : gset string) :
  StronglySorted String.le (PyStr.sorted_set s).
Proof. apply (StronglySorted_merge_sort String.le). Qed.

Lemma elem_of_sorted_set (s : gset string) x : x ∈ PyStr.sorted_set s ↔ x ∈ s.
Proof.
  unfold PyStr.sorted_set, PyStr.sorted.
  by rewrite (merge_sort_Permutation String.le), elem_of_elements.
Qed.

Lemma NoDup_sorted_set (s : gset string) : NoDup (PyStr.sorted_set s).
Proof.
  unfold PyStr.sorted_set, PyStr.sorted.
  rewrite (merge_sort_Permutation String.le). apply NoDup_elements.
Qed.

Lemma find_sorted_least (p : string → bool) (l : list string) x :
  StronglySorted String.le l →
  List.find p l = Some x →
  x ∈ l ∧ p x = true ∧ ∀ y, y ∈ l → p y = true → String.le x y.
Proof.
  induction 1 as [|a l Hl IH Ha]; cbn; [done|].
  destruct (p a) eqn:Hpa.
  - intros [= <-]. split; [apply list_elem_of_here|]. split; [done|].
    intros y [->|Hy]%elem_of_cons _; [done|].
    rewrite Forall_forall in Ha. by apply Ha.
  - intros (Hx & Hpx & Hleast)%IH. split; [by apply list_elem_of_further|].
    split; [done|]. intros y [->|Hy]%elem_of_cons Hpy; [congruence|].
    by apply Hleast.
Qed.

Lemma find_none_iff (p : string → bool) (l : list string) :
  List.find p l = None ↔ ∀ y, y ∈ l → p y = false.
Proof.
  induction l as [|a l IH]; cbn.
  - split; [intros _ y []%elem_of_nil | done].
  - destruct (p a) eqn:Hpa.
    + split; [done|]. intros Hall.
      specialize (Hall a (list_elem_of_here _ _)). congruence.
    + rewrite IH. split.
      * intros Hall y [->|Hy]%elem_of_cons; [done | by apply Hall].
      * intros Hall y Hy. by apply Hall, list_elem_of_further.
Qed.

End sorted_find.

Section token_matching.
Import Snapshot.
Variable io_type_of : string → string.
Variable node_name : string.
Variable spec_types : gmap string string.

Lemma first_typed_least candidates io_type t :
  least_typed spec_types candidates io_type t →
  first_typed spec_types candidates io_type = Some t.
Proof.
  intros (Hin & Hty & Hleast). unfold first_typed.
  destruct (List.find _ (PyStr.sorted_set candidates)) as [x|] eqn:Hfind.
  - apply find_sorted_least in Hfind as (Hx & Hpx & Hxleast);
      [|apply sorted_set_sorted].
    apply bool_decide_eq_true in Hpx. apply elem_of_sorted_set in Hx.
    f_equal. apply (anti_symm String.le).
    + apply Hxleast; [by apply elem_of_sorted_set|].
      by apply bool_decide_eq_true.
    + by apply Hleast.
  - rewrite find_none_iff in Hfind.
    specialize (Hfind t (proj2 (elem_of_sorted_set _ _) Hin)).
    apply bool_decide_eq_false in Hfind. done.
Qed.

Lemma first_typed_none candidates io_type :
  none_typed spec_types candidates io_type →
  first_typed spec_types candidates io_type = None.
Proof.
  intros Hnone. unfold first_typed. apply find_none_iff.
  intros y Hy%elem_of_sorted_set. apply bool_decide_eq_false. by apply Hnone.
Qed.

Lemma is_unset_insert (names : gmap string (option string)) io_name t :
  is_unset (<[io_name := Some t]> names) io_name = false.
Proof.
  unfold is_unset. rewrite lookup_insert_eq. by apply bool_decide_eq_false.
Qed.

(** C7 (as amended): for a deployed name that is still unset and has no
    exact match (its final segment is not an available catalog key of its
    resolved type), the matcher first looks at the available keys that
    contain the final segment as a substring: the first of them in sorted
    order whose declared type is the resolved type is assigned and
    consumed.  Only when none of them has that type does it assign and
    consume the first remaining key, in sorted order, of that type; and
    when no available key has the type, the name stays unset, the result
    turns invalid and a warning is logged. *)
Theorem match_step_prefers_containing_key (st : match_state)
    (io_name : string) :
  let token := PyStr.last_token (PyStr.split "/"%char io_name) in
  let io_type := io_type_of io_name in
  let potential :=
    filter (λ ss, PyStr.contains token ss = true) (available_tokens st) in
  io_names st !! io_name = Some None →
  token ∉ available_tokens st ∨ spec_types !! token ≠ Some io_type →
  (∀ t, least_typed spec_types potential io_type t →
        match_step io_type_of node_name spec_types st io_name
        = assigned st io_name t)
  ∧ (none_typed spec_types potential io_type →
     ∀ t, least_typed spec_types (available_tokens st ∖ potential) io_type t →
          match_step io_type_of node_name spec_types st io_name
          = assigned st io_name t)
  ∧ (none_typed spec_types (available_tokens st) io_type →
     let st' := match_step io_type_of node_name spec_types st io_name in
     io_names st' = io_names st ∧ available_tokens st' = available_tokens st
     ∧ io_is_valid st' = false
     ∧ match_log st'
       = log (match_log st) WARNING
           ("      Node " +:+ node_name +:+ " unmatched data " +:+ io_name
              +:+ " !")).
Proof.
  intros token io_type potential Hunset Hnoexact.
  assert (bool_decide (token ∉ available_tokens st)
          || bool_decide (Some io_type ≠ spec_types !! token) = true) as Hcond.
  { apply orb_true_iff. destruct Hnoexact as [?|?];
      [left|right]; apply bool_decide_eq_true; [done|congruence]. }
  assert (is_unset (io_names st) io_name = true) as Hu
    by (by apply bool_decide_eq_true).
  split_and!.
  - intros t Ht. unfold match_step. fold token io_type. rewrite Hcond.
    fold potential. rewrite (first_typed_least _ _ _ Ht).
    cbn [io_names]. rewrite is_unset_insert. cbn [io_names].
    by rewrite is_unset_insert.
  - intros Hnone t Ht. unfold match_step. fold token io_type. rewrite Hcond.
    fold potential. rewrite (first_typed_none _ _ Hnone), Hu.
    rewrite (first_typed_least _ _ _ Ht).
    cbn [io_names]. by rewrite is_unset_insert.
  - intros Hnone. unfold match_step. fold token io_type. rewrite Hcond.
    fold potential.
    rewrite (first_typed_none potential), Hu.
    2: { intros t Ht. apply Hnone. unfold potential in Ht. set_solver. }
    rewrite (first_typed_none (available_tokens st ∖ potential)), Hu.
    2: { intros t Ht. apply Hnone. set_solver. }
    done.
Qed.

End token_matching.

(** C7, a concrete instance: the deployed parameter [cam/exposure] of type
    [int] against the catalog keys [exposure_1] and [gain], both [int]:
    [exposure_1] contains the segment [exposure] and is assigned. *)
Lemma match_step_prefers_containing_key_witness :
  let spec_types : gmap string string :=
    {[ "exposure_1" := "int"; "gain" := "int" ]} in
  let st := {| Snapshot.io_names := {[ "cam/exposure" := None ]};
               Snapshot.available_tokens := dom spec_types;
               Snapshot.io_is_valid := true; Snapshot.match_log := [] |} in
  (Snapshot.io_names st !! "cam/exposure" = Some None
   ∧ ("exposure" ∉ Snapshot.available_tokens st
      ∨ spec_types !! "exposure" ≠ Some "int"))
  ∧ Snapshot.match_step (λ _, "int") "/cam" spec_types st "cam/exposure"
    = Snapshot.assigned st "cam/exposure" "exposure_1".
Proof.
  intros spec_types st.
  assert (Snapshot.io_names st !! "cam/exposure" = Some None) as Hunset
    by reflexivity.
  assert ("exposure" ∉ Snapshot.available_tokens st
          ∨ spec_types !! "exposure" ≠ Some "int") as Hnoexact
    by (right; discriminate).
  split; [by split|].
  apply (proj1 (match_step_prefers_containing_key (λ _, "int") "/cam"
                  spec_types st "cam/exposure" Hunset Hnoexact)).
  split_and!.
  - apply elem_of_filter. split; [reflexivity|].
    change ("exposure_1" ∈ dom spec_types). apply elem_of_dom. by eexists.
  - reflexivity.
  - intros t' [Hsub Hin]%elem_of_filter _.
    change (t' ∈ dom spec_types) in Hin.
    apply elem_of_dom in Hin as [ty Hty].
    destruct (decide (t' = "exposure_1")) as [->|Hne1]; [done|].
    destruct (decide (t' = "gain")) as [->|Hne2]; [discriminate Hsub|].
    unfold spec_types in Hty.
    rewrite lookup_insert_ne in Hty by done.
    rewrite lookup_singleton_ne in Hty by done. discriminate.
Defined.

(** C7 as stated fails: the catalog key [gain] is a substring of the
    deployed segment [gain_x] and has its type, yet the matcher does not
    prefer it; no key contains [gain_x], so the first key of the type in
    sorted order, [aaa], is assigned. *)
Lemma key_inside_segment_counterexample :
  let spec_types : gmap string string :=
    {[ "aaa" := "int"; "gain" := "int" ]} in
  PyStr.last_token (PyStr.split "/"%char "cam/gain_x") = "gain_x"
  ∧ PyStr.contains "gain" "gain_x" = true
  ∧ spec_types !! "gain" = Some "int"
  ∧ PyStr.contains "aaa" "gain_x" = false
  ∧ Snapshot.match_token_types (λ _, "int") "/cam"
      {[ "cam/gain_x" := None ]} (Some spec_types) []
    = ({[ "cam/gain_x" := Some "aaa" ]}, Some true, []).
Proof. intros spec_types. split_and!; vm_compute; reflexivity. Qed.

(** ** Python string primitives *)

Section pystr_facts.

Lemma split_nonempty sep s : PyStr.split sep s ≠ [].
Proof.
  destruct s as [|a s]; cbn; [done|].
  destruct (decide (a = sep)); [done|]. by destruct (PyStr.split sep s).
Qed.

(** A split into one piece gives the string back *)
Lemma split_singleton sep s h : PyStr.split sep s = [h] → h = s.
Proof.
  revert h. induction s as [|a s IH]; intros h; cbn.
  - by intros [= <-].
  - destruct (decide (a = sep)).
    + intros [= <- Hnil]. by apply split_nonempty in Hnil.
    + destruct (PyStr.split sep s) as [|h' t] eqn:Hs;
        [by apply split_nonempty in Hs|].
      intros [= <- ->]. f_equal. by apply IH.
Qed.

Lemma last_token_split_cons sep a s :
  PyStr.last_token (PyStr.split sep (String a s)) =
  if decide (a = sep) then PyStr.last_token (PyStr.split sep s)
  else match PyStr.split sep s with
       | [_] | [] => String a s
       | _ => PyStr.last_token (PyStr.split sep s)
       end.
Proof.
  unfold PyStr.last_token. cbn [PyStr.split].
  destruct (decide (a = sep)).
  - pose proof (split_nonempty sep s).
    by destruct (PyStr.split sep s).
  - destruct (PyStr.split sep s) as [|h [|h' t]] eqn:Hs;
      [by apply split_nonempty in Hs| |done].
    apply split_singleton in Hs. by subst.
Qed.

Lemma last_token_split_empty sep : 
  PyStr.last_token (PyStr.split sep "") = "".
Proof. done. Qed.

(** A string whose last piece is ["?"] keeps it when leading white space
    is dropped, and has no trailing white space to drop. *)
Lemma lstrip_final_segment s :
  PyStr.last_token (PyStr.split "/"%char s) = "?" →
  PyStr.last_token (PyStr.split "/"%char (PyStr.lstrip s)) = "?".
Proof.
  induction s as [|a s IH]; [done|]. intros Hlast. cbn [PyStr.lstrip].
  destruct (Ascii.is_space a) eqn:Hsp; [|done].
  rewrite last_token_split_cons in Hlast.
  destruct (decide (a = "/"%char)) as [->|_]; [done|].
  destruct (PyStr.split "/"%char s) as [|h [|h' t]] eqn:Hs.
  - by apply split_nonempty in Hs.
  - injection Hlast as -> ->. done.
  - by apply IH.
Qed.

Lemma rstrip_final_segment s :
  PyStr.last_token (PyStr.split "/"%char s) = "?" → PyStr.rstrip s = s.
Proof.
  induction s as [|a s IH]; [done|]. intros Hlast. cbn [PyStr.rstrip].
  rewrite last_token_split_cons in Hlast.
  assert (PyStr.last_token (PyStr.split "/"%char s) = "?" →
          match PyStr.rstrip s with
          | "" => if Ascii.is_space a then "" else String a ""
          | String a0 s0 => String a (String a0 s0)
          end = String a s) as Hrec.
  { intros Hs. rewrite (IH Hs). destruct s; [done|done]. }
  destruct (decide (a = "/"%char)) as [->|_]; [by apply Hrec|].
  destruct (PyStr.split "/"%char s) as [|h [|h' t]] eqn:Hs.
  - by apply split_nonempty in Hs.
  - injection Hlast as -> ->. done.
  - by apply Hrec.
Qed.

Lemma strip_final_segment s :
  PyStr.last_token (PyStr.split "/"%char s) = "?" →
  PyStr.last_token (PyStr.split "/"%char (PyStr.strip s)) = "?".
Proof.
  intros Hlast. unfold PyStr.strip. rewrite (rstrip_final_segment s Hlast).
  by apply lstrip_final_segment.
Qed.

Lemma contains_char_cons c a s :
  PyStr.contains (String c "") (String a s) =
  if decide (c = a) then true else PyStr.contains (String c "") s.
Proof.
  cbn [PyStr.contains String.prefix].
  destruct (Ascii.ascii_dec c a), (decide (c = a)); try done.
  by destruct s.
Qed.

(** Without a slash the whole string is its only piece *)
Lemma split_no_slash s :
  PyStr.contains "/" s = false → PyStr.split "/"%char s = [s].
Proof.
  induction s as [|a s IH]; [done|]. rewrite contains_char_cons.
  cbn [PyStr.split].
  destruct (decide ("/"%char = a)) as [<-|Hne]; [done|].
  rewrite decide_False by done. intros Hc. by rewrite (IH Hc).
Qed.

Lemma contains_char_nil c : PyStr.contains (String c "") "" = false.
Proof. done. Qed.

Lemma split_no_sep c s :
  PyStr.contains (String c "") s = false → PyStr.split c s = [s].
Proof.
  induction s as [|a s IH]; [done|]. rewrite contains_char_cons.
  cbn [PyStr.split].
  destruct (decide (c = a)) as [<-|Hne]; [done|].
  rewrite decide_False by done. intros Hc. by rewrite (IH Hc).
Qed.

(** No piece of a split holds the separator *)
Lemma split_pieces_no_sep c s x :
  x ∈ PyStr.split c s → PyStr.contains (String c "") x = false.
Proof.
  revert x. induction s as [|a s IH]; intros x; cbn [PyStr.split].
  - by intros ->%list_elem_of_singleton.
  - destruct (decide (a = c)) as [->|Hne].
    + intros [->|Hx]%elem_of_cons; [done | by apply IH].
    + destruct (PyStr.split c s) as [|h t] eqn:Hs;
        [by apply split_nonempty in Hs|].
      intros [->|Hx]%elem_of_cons.
      * rewrite contains_char_cons, decide_False by done.
        apply IH, list_elem_of_here.
      * by apply IH, list_elem_of_further.
Qed.

Lemma split_app_sep c x rest :
  PyStr.contains (String c "") x = false →
  PyStr.split c (x +:+ String c rest) = x :: PyStr.split c rest.
Proof.
  induction x as [|a x IH].
  - intros _. change ("" +:+ String c rest) with (String c rest).
    cbn [PyStr.split]. by rewrite decide_True.
  - rewrite contains_char_cons.
    destruct (decide (c = a)) as [<-|Hne]; [done|]. intros Hx.
    change (String a x +:+ String c rest)
      with (String a (x +:+ String c rest)).
    cbn [PyStr.split]. rewrite decide_False by done. by rewrite (IH Hx).
Qed.

(** Stripping: idempotent, blind to a leading space, and it adds no
    character *)
Lemma lstrip_idemp s : PyStr.lstrip (PyStr.lstrip s) = PyStr.lstrip s.
Proof.
  induction s as [|a s IH]; [done|]. cbn [PyStr.lstrip].
  destruct (Ascii.is_space a) eqn:Ha; [done|]. cbn [PyStr.lstrip].
  by rewrite Ha.
Qed.

Lemma rstrip_cons a s :
  PyStr.rstrip (String a s) =
  match PyStr.rstrip s with
  | "" => if Ascii.is_space a then "" else String a ""
  | r => String a r
  end.
Proof. done. Qed.

Lemma rstrip_idemp s : PyStr.rstrip (PyStr.rstrip s) = PyStr.rstrip s.
Proof.
  induction s as [|a s IH]; [done|]. rewrite rstrip_cons.
  destruct (PyStr.rstrip s) as [|b r] eqn:Hr.
  - destruct (Ascii.is_space a) eqn:Ha; [done|].
    rewrite rstrip_cons. cbn [PyStr.rstrip]. by rewrite Ha.
  - rewrite rstrip_cons, IH. done.
Qed.

Lemma rstrip_lstrip s :
  PyStr.rstrip s = s → PyStr.rstrip (PyStr.lstrip s) = PyStr.lstrip s.
Proof.
  induction s as [|a s IH]; [done|]. intros Hs. cbn [PyStr.lstrip].
  destruct (Ascii.is_space a) eqn:Ha; [|done].
  apply IH. rewrite rstrip_cons in Hs.
  destruct (PyStr.rstrip s) as [|b r]; [by rewrite Ha in Hs|].
  by injection Hs.
Qed.

Lemma strip_idemp s : PyStr.strip (PyStr.strip s) = PyStr.strip s.
Proof.
  unfold PyStr.strip.
  rewrite (rstrip_lstrip (PyStr.rstrip s)) by apply rstrip_idemp.
  apply lstrip_idemp.
Qed.

Lemma strip_space_cons s : PyStr.strip (String " " s) = PyStr.strip s.
Proof.
  unfold PyStr.strip. rewrite rstrip_cons.
  by destruct (PyStr.rstrip s).
Qed.

Lemma lstrip_no_char c s :
  PyStr.contains (String c "") s = false →
  PyStr.contains (String c "") (PyStr.lstrip s) = false.
Proof.
  induction s as [|a s IH]; [done|]. intros Hs. cbn [PyStr.lstrip].
  destruct (Ascii.is_space a); [|done]. apply IH.
  rewrite contains_char_cons in Hs. by destruct (decide (c = a)).
Qed.

Lemma rstrip_no_char c s :
  PyStr.contains (String c "") s = false →
  PyStr.contains (String c "") (PyStr.rstrip s) = false.
Proof.
  induction s as [|a s IH]; [done|]. rewrite contains_char_cons.
  destruct (decide (c = a)) as [<-|Hne]; [done|]. intros Hs.
  rewrite rstrip_cons. specialize (IH Hs).
  destruct (PyStr.rstrip s) as [|b r].
  - destruct (Ascii.is_space a); [done|].
    by rewrite contains_char_cons, decide_False.
  - by rewrite contains_char_cons, decide_False.
Qed.

Lemma strip_no_char c s :
  PyStr.contains (String c "") s = false →
  PyStr.contains (String c "") (PyStr.strip s) = false.
Proof. intros Hs. by apply lstrip_no_char, rstrip_no_char. Qed.

(** Splitting a joined list of comma-free strings at the commas gives the
    strings back, each but the first after a space. *)
Lemma split_join (l : list string) :
  (∀ x, x ∈ l → PyStr.contains "," x = false) →
  PyStr.split ","%char (PyStr.join ", " l) =
  match l with
  | [] => [""]
  | h :: t => h :: (String " "%char <$> t)
  end.
Proof.
  induction l as [|x [|y l] IH]; intros Hl.
  - done.
  - cbn [PyStr.join]. apply split_no_sep, Hl, list_elem_of_here.
  - change (PyStr.join ", " (x :: y :: l))
      with (x +:+ String ","%char (String " "%char (PyStr.join ", " (y :: l)))).
    rewrite split_app_sep by apply Hl, list_elem_of_here.
    cbn [PyStr.split]. rewrite decide_False by done.
    rewrite IH by (intros z Hz; by apply Hl, list_elem_of_further).
    done.
Qed.

Lemma strip_split_join (l : list string) :
  l ≠ [] →
  (∀ x, x ∈ l → PyStr.contains "," x = false ∧ PyStr.strip x = x) →
  PyStr.strip <$> PyStr.split ","%char (PyStr.join ", " l) = l.
Proof.
  intros Hne Hl. rewrite split_join by (intros x Hx; by apply Hl).
  destruct l as [|h t]; [done|]. cbn [fmap list_fmap]. f_equal.
  - apply Hl, list_elem_of_here.
  - rewrite <-list_fmap_compose.
    rewrite <-(list_fmap_id t) at 2. apply list_fmap_ext.
    intros i x Hx. unfold compose. rewrite strip_space_cons.
    apply Hl, list_elem_of_further. by eapply list_elem_of_lookup_2.
Qed.

End pystr_facts.

(** ** The remodelers *)

Section incomplete_names.
Import Merger.

Lemma final_segment_incomplete haros_name :
  final_segment haros_name = "?" → haros_name_is_complete haros_name = false.
Proof.
  unfold final_segment, haros_name_is_complete. intros Hlast.
  destruct (PyStr.contains "/" haros_name) eqn:Hslash.
  - apply bool_decide_eq_false. intros Hne. by apply Hne, strip_final_segment.
  - rewrite split_no_slash in Hlast by done. cbn in Hlast. by subst.
Qed.

Lemma check_incomplete TYPE haros_name context lg :
  haros_name_is_complete haros_name = false →
  check_haros_name_is_complete TYPE haros_name context lg
  = (false, lg ++ [incomplete_record TYPE haros_name context]).
Proof. intros Hc. unfold check_haros_name_is_complete. by rewrite Hc. Qed.

Lemma check_complete TYPE haros_name context lg :
  haros_name_is_complete haros_name = true →
  check_haros_name_is_complete TYPE haros_name context lg = (true, lg).
Proof. intros Hc. unfold check_haros_name_is_complete. by rewrite Hc. Qed.

(** C8: a specification entity whose (adjusted) name ends in the segment
    ["?"] is neither merged nor created, whatever the kind of remodeler:
    the step returns the banks as they were, and the log gains the one
    record, of level [ERROR], that reports the incomplete name. *)
Theorem incomplete_name_is_skipped {H B : Type} `{!Remodeler H B}
    (actions : action_bank) (bs : banks) (lg : logger) (haros_instance : H) :
  final_segment (adjust_haros_name (haros_id haros_instance)) = "?" →
  remodel_step actions (bs, lg) haros_instance
  = Returns (bs, lg ++ [incomplete_record TYPE
                          (adjust_haros_name (haros_id haros_instance))
                          "Check for Main Model"]).
Proof.
  intros Hlast. unfold remodel_step.
  by rewrite check_incomplete by (by apply final_segment_incomplete).
Qed.

End incomplete_names.

(** C8, a concrete instance: the HAROS topic [/camera/?] against a topic
    bank that holds [/chatter] *)
Lemma incomplete_name_is_skipped_witness :
  let bs : @Merger.banks Merger.TopicBody :=
    [(Merger.TOPIC, {[ "/chatter" := Merger.snapshot_chatter ]})] in
  Merger.final_segment (Merger.ht_id Merger.haros_placeholder) = "?"
  ∧ Merger.remodel_step ∅ (bs, []) Merger.haros_placeholder
    = Returns (bs, [Merger.incomplete_record "TOPIC" "/camera/?"
                      "Check for Main Model"]).
Proof.
  intros bs. split; [reflexivity|].
  exact (incomplete_name_is_skipped ∅ bs [] Merger.haros_placeholder
           eq_refl).
Defined.

Section topic_merge.
Import Merger.

Lemma complete_names_nil : complete_names [] = ∅.
Proof. done. Qed.

Lemma complete_names_cons n names :
  complete_names (n :: names) =
  if haros_name_is_complete n then {[ n ]} ∪ complete_names names
  else complete_names names.
Proof.
  unfold complete_names. rewrite filter_cons.
  destruct (haros_name_is_complete n); [by rewrite decide_True|].
  by rewrite decide_False.
Qed.

Lemma no_new_names_complete names known :
  no_new_names names known ↔ known ∪ complete_names names = known.
Proof.
  unfold no_new_names, complete_names. split.
  - intros Hall. apply set_eq. intros x.
    rewrite elem_of_union, elem_of_list_to_set, list_elem_of_filter.
    naive_solver.
  - intros Heq n Hn Hc. rewrite <-Heq.
    apply elem_of_union. right.
    apply elem_of_list_to_set, list_elem_of_filter. done.
Qed.

(** The loop over the links of one role adds the complete names it does
    not know yet, raises the flag exactly when it adds one, and only adds
    to the log. *)
Lemma merge_names_fold TYPE role names known flag lg :
  ∃ lg',
    foldl (merge_node_name TYPE role) (known, flag, lg) names
    = (known ∪ complete_names names,
       flag || bool_decide (known ∪ complete_names names ≠ known), lg')
    ∧ ∀ x, x ∈ lg → x ∈ lg'.
Proof.
  revert known flag lg. induction names as [|n names IH]; intros known flag lg.
  - exists lg. rewrite complete_names_nil, union_empty_r_L. split; [|done].
    cbn. by rewrite bool_decide_eq_false_2, orb_false_r by (by intros []).
  - cbn [foldl]. rewrite complete_names_cons. unfold merge_node_name at 2.
    destruct (haros_name_is_complete n) eqn:Hc.
    + rewrite check_complete by done. cbn [andb].
      case_bool_decide as Hn.
      * destruct (IH (known ∪ {[ n ]}) true
                    (log lg INFO ("[" +:+ TYPE +:+ "] Adding HAROS Topic's "
                       +:+ role +:+ " Node " +:+ dq +:+ n +:+ dq
                       +:+ " to CHRIS Topic Instance.")))
          as (lg' & -> & Hlg).
        exists lg'. split.
        -- replace (known ∪ {[ n ]} ∪ complete_names names)
             with (known ∪ ({[ n ]} ∪ complete_names names)) by set_solver.
           rewrite (bool_decide_eq_true_2
                      (known ∪ ({[ n ]} ∪ complete_names names) ≠ known)).
           { by rewrite orb_true_r. }
           intros Heq. apply Hn. rewrite <-Heq. set_solver.
        -- intros x Hx. apply Hlg, elem_of_app. by left.
      * destruct (IH known flag lg) as (lg' & -> & Hlg).
        exists lg'. split; [|done].
        replace (known ∪ ({[ n ]} ∪ complete_names names))
          with (known ∪ complete_names names) by set_solver. done.
    + rewrite check_incomplete by done. cbn [andb].
      destruct (IH known flag (lg ++ [incomplete_record TYPE n
                                        "Check for Topic Nodes"]))
        as (lg' & -> & Hlg).
      exists lg'. split; [done|]. intros x Hx. apply Hlg, elem_of_app. by left.
Qed.

Lemma topic_body_neq (b b' : TopicBody) :
  construct_type b' = construct_type b →
  b' ≠ b ↔ publisher_node_names b' ≠ publisher_node_names b
           ∨ subscriber_node_names b' ≠ subscriber_node_names b.
Proof.
  destruct b as [t p s], b' as [t' p' s']. cbn. intros ->. split.
  - intros Hne. destruct (decide (p' = p)) as [->|?]; [|by left].
    right. intros ->. done.
  - intros [Hne|Hne] [= ]; done.
Qed.

(** A topic merge adds the complete publisher and subscriber names of the
    HAROS topic, never touches the type, and returns the flag [True]
    exactly when the entity changed. *)
Lemma topic_helper_merge_spec actions bank_type h b lg :
  ∃ lg',
    topic_helper_merge actions bank_type h b lg
    = (with_links h b, bool_decide (with_links h b ≠ b), lg')
    ∧ (∀ x, x ∈ lg → x ∈ lg')
    ∧ (Some (ht_type h) ≠ construct_type b →
       topic_type_conflict (ht_type h) (construct_type b) ∈ lg').
Proof.
  unfold topic_helper_merge, merge_haros_topic_links_with_chris_topic_nodes.
  set (lg0 := if bool_decide (Some (ht_type h) ≠ construct_type b)
              then _ else lg).
  assert ((∀ x, x ∈ lg → x ∈ lg0)
          ∧ (Some (ht_type h) ≠ construct_type b →
             topic_type_conflict (ht_type h) (construct_type b) ∈ lg0))
    as [Hlg0 Hconf].
  { unfold lg0. case_bool_decide as Hty.
    - split; [intros x Hx; apply elem_of_app; by left|].
      intros _. apply elem_of_app. right. apply list_elem_of_here.
    - by split. }
  destruct (merge_names_fold "TOPIC" "Publisher" (ht_publishers h)
              (publisher_node_names b) false lg0) as (lg1 & -> & Hlg1).
  destruct (merge_names_fold "TOPIC" "Subscriber" (ht_subscribers h)
              (subscriber_node_names b)
              (false || bool_decide (publisher_node_names b
                                     ∪ complete_names (ht_publishers h)
                                     ≠ publisher_node_names b)) lg1)
    as (lg2 & -> & Hlg2).
  exists lg2. split_and!; [|naive_solver..].
  f_equal. f_equal. cbn [orb].
  rewrite <-bool_decide_or. apply bool_decide_ext.
  by rewrite (topic_body_neq b (with_links h b)).
Qed.

End topic_merge.

Section topic_conflict.
Import Merger.

Lemma with_links_id h b :
  no_new_names (ht_publishers h) (publisher_node_names b) →
  no_new_names (ht_subscribers h) (subscriber_node_names b) →
  with_links h b = b.
Proof.
  intros Hp%no_new_names_complete Hs%no_new_names_complete.
  unfold with_links. rewrite Hp, Hs. by destruct b.
Qed.

(** C2: when the HAROS topic and the CHRIS topic of the same name disagree
    on the type, the merge step returns (nothing is raised), the CHRIS
    topic keeps its type, the conflict is logged, and if the HAROS topic
    brings no publisher or subscriber the CHRIS topic does not know, the
    entity, its version included, is left exactly as it was. *)
Theorem topic_type_conflict_keeps_deployment_type (actions : action_bank)
    (bs : @banks TopicBody) (lg : logger) (h : HarosTopic)
    (bank_type : BankType) (chris : model TopicBody) :
  haros_name_is_complete (ht_id h) = true →
  locate bs (ht_id h) = Some (bank_type, chris) →
  Some (ht_type h) ≠ construct_type (body chris) →
  ∃ m lg',
    remodel_step actions (bs, lg) h
    = Returns (store bs bank_type (ht_id h) m, lg')
    ∧ construct_type (body m) = construct_type (body chris)
    ∧ topic_type_conflict (ht_type h) (construct_type (body chris)) ∈ lg'
    ∧ (no_new_names (ht_publishers h) (publisher_node_names (body chris)) →
       no_new_names (ht_subscribers h) (subscriber_node_names (body chris)) →
       m = chris ∧ version m = version chris).
Proof.
  intros Hcomplete Hlocate Hconflict. unfold remodel_step.
  cbn [adjust_haros_name haros_id TopicRemodeler TYPE].
  rewrite check_complete, Hlocate by done.
  unfold merge_haros_model_with_chris_model.
  cbn [helper_merge_haros_model_with_chris_model TopicRemodeler TYPE].
  match goal with
  | |- context [topic_helper_merge actions bank_type h (body chris) ?l] =>
      destruct (topic_helper_merge_spec actions bank_type h (body chris) l)
        as (lg' & -> & Hlg & Hconf)
  end.
  specialize (Hconf Hconflict).
  unfold update_chris_model_version. case_bool_decide as Hchanged.
  - cbn [source with_body name version body].
    destruct (source chris); (eexists _, _; split; [reflexivity|]);
      (split; [done|]); (split; [try done; apply elem_of_app; by left|]);
      intros Hp Hs; destruct Hchanged; by apply with_links_id.
  - rewrite Hchanged.
    exists chris, lg'. split; [by destruct chris|]. done.
Qed.

End topic_conflict.

(** C2, the scenario of the specification: HAROS declares [/chatter] with
    type [A/B], the deployment has it with type [A/C] and already knows
    its publisher. *)
Lemma topic_type_conflict_keeps_deployment_type_witness :
  let bs : @Merger.banks Merger.TopicBody :=
    [(Merger.TOPIC, {[ "/chatter" := Merger.snapshot_chatter ]})] in
  let h := Merger.haros_chatter_other_type in
  (Merger.haros_name_is_complete (Merger.ht_id h) = true
   ∧ Merger.locate bs (Merger.ht_id h)
     = Some (Merger.TOPIC, Merger.snapshot_chatter)
   ∧ Some (Merger.ht_type h)
     ≠ Merger.construct_type (Merger.body Merger.snapshot_chatter))
  ∧ ∃ m lg',
      Merger.remodel_step ∅ (bs, []) h
      = Returns (Merger.store bs Merger.TOPIC (Merger.ht_id h) m, lg')
      ∧ Merger.construct_type (Merger.body m) = Some "A/C"
      ∧ Merger.topic_type_conflict "A/B" (Some "A/C") ∈ lg'
      ∧ (Merger.no_new_names (Merger.ht_publishers h)
           (Merger.publisher_node_names (Merger.body Merger.snapshot_chatter)) →
         Merger.no_new_names (Merger.ht_subscribers h)
           (Merger.subscriber_node_names (Merger.body Merger.snapshot_chatter)) →
         m = Merger.snapshot_chatter
         ∧ Merger.version m = Merger.version Merger.snapshot_chatter).
Proof.
  intros bs h.
  assert (Some (Merger.ht_type h)
          ≠ Merger.construct_type (Merger.body Merger.snapshot_chatter))
    as Hne by discriminate.
  split; [split_and!; [reflexivity | reflexivity | exact Hne]|].
  exact (topic_type_conflict_keeps_deployment_type ∅ bs [] h Merger.TOPIC
           Merger.snapshot_chatter eq_refl eq_refl Hne).
Defined.

Section provenance.
Import Merger.

Lemma list_to_set_sorted_set (S : gset string) :
  list_to_set (PyStr.sorted_set S) = S.
Proof.
  apply set_eq. intros x. by rewrite elem_of_list_to_set, elem_of_sorted_set.
Qed.

Lemma sorted_set_tagged_idemp (S : gset string) :
  PyStr.sorted_set
    (list_to_set (PyStr.sorted_set (S ∪ {[ REMODELER_SOURCE_NAME ]}))
     ∪ {[ REMODELER_SOURCE_NAME ]})
  = PyStr.sorted_set (S ∪ {[ REMODELER_SOURCE_NAME ]}).
Proof. rewrite list_to_set_sorted_set. f_equal. set_solver. Qed.

(** The tags of an updated string source are the strings that were
    joined. *)
Lemma source_tags_updated_str s :
  source_tags (updated_source (SrcStr s))
  = PyStr.sorted_set
      (list_to_set (PyStr.strip <$> PyStr.split ","%char s)
       ∪ {[ REMODELER_SOURCE_NAME ]}).
Proof.
  cbn [updated_source source_tags]. apply strip_split_join.
  - intros Hnil.
    assert (REMODELER_SOURCE_NAME ∈ PyStr.sorted_set
              (list_to_set (PyStr.strip <$> PyStr.split ","%char s)
               ∪ {[ REMODELER_SOURCE_NAME ]})) as Hin
      by (apply elem_of_sorted_set; set_solver).
    rewrite Hnil in Hin. by apply elem_of_nil in Hin.
  - intros x [Hx|Hx]%elem_of_sorted_set%elem_of_union.
    + apply elem_of_list_to_set, list_elem_of_fmap in Hx as (y & -> & Hy).
      split; [|apply strip_idemp].
      by apply strip_no_char, (split_pieces_no_sep _ s).
    + apply elem_of_singleton in Hx as ->. by split.
Qed.

Lemma updated_source_spec src :
  source_is_tagged src →
  source_is_tagged (updated_source src)
  ∧ NoDup (source_tags (updated_source src))
  ∧ (∀ x, x ∈ source_tags (updated_source src)
          ↔ x ∈ source_tags src ∨ x = REMODELER_SOURCE_NAME)
  ∧ updated_source (updated_source src) = updated_source src.
Proof.
  destruct src as [|s|l|]; [done| | |done]; intros _.
  - split; [done|]. rewrite source_tags_updated_str. split_and!.
    + apply NoDup_sorted_set.
    + intros x. rewrite elem_of_sorted_set, elem_of_union,
        elem_of_list_to_set, elem_of_singleton. done.
    + pose proof (source_tags_updated_str s) as Htags.
      cbn [updated_source source_tags] in Htags.
      cbn [updated_source]. rewrite Htags.
      by rewrite sorted_set_tagged_idemp.
  - split; [done|]. cbn [updated_source source_tags]. split_and!.
    + apply NoDup_sorted_set.
    + intros x. rewrite elem_of_sorted_set, elem_of_union,
        elem_of_list_to_set, elem_of_singleton. done.
    + by rewrite sorted_set_tagged_idemp.
Qed.

Lemma updated_source_untagged src :
  ¬ source_is_tagged src → updated_source src = src.
Proof. by destruct src. Qed.

End provenance.

Section node_merge.
Import Merger.

(** A step of the loops over node links never lowers the flag, and leaves
    the dictionary alone unless it raises it; so do the loops. *)
Lemma merge_node_link_step kind link_type items flag lg link :
  (flag = true →
   (merge_node_link kind link_type (items, flag, lg) link).1.2 = true)
  ∧ ((merge_node_link kind link_type (items, flag, lg) link).1.2 = false →
     (merge_node_link kind link_type (items, flag, lg) link).1.1 = items).
Proof.
  destruct link as [n ty]. unfold merge_node_link.
  destruct (check_haros_name_is_complete "NODE" n _ lg) as [[] lg1]; [|done].
  destruct (items !! n) as [chris_type|]; [by case_bool_decide|done].
Qed.

Lemma merge_topic_link_step actions bank_type link_type items flag lg link :
  (flag = true →
   (merge_topic_link actions bank_type link_type (items, flag, lg) link).1.2
   = true)
  ∧ ((merge_topic_link actions bank_type link_type
        (items, flag, lg) link).1.2 = false →
     (merge_topic_link actions bank_type link_type
        (items, flag, lg) link).1.1 = items).
Proof.
  destruct link as [n ty]. unfold merge_topic_link.
  destruct (check_haros_name_is_complete "NODE" n _ lg) as [[] lg1]; [|done].
  destruct (items !! n) as [chris_type|]; [by case_bool_decide|].
  destruct (topic_is_part_of_action "NODE" actions n lg1) as [[] lg2];
    [done|]. by case_bool_decide.
Qed.

Lemma flagged_fold {A L : Type} (step : A * bool * list L → string * string → A * bool * list L)
    (links : list (string * string)) items flag (lg : list L) :
  (∀ items flag lg link,
     (flag = true → (step (items, flag, lg) link).1.2 = true)
     ∧ ((step (items, flag, lg) link).1.2 = false →
        (step (items, flag, lg) link).1.1 = items)) →
  (flag = true → (foldl step (items, flag, lg) links).1.2 = true)
  ∧ ((foldl step (items, flag, lg) links).1.2 = false →
     (foldl step (items, flag, lg) links).1.1 = items).
Proof.
  intros Hstep. revert items flag lg.
  induction links as [|link links IH]; intros items flag lg; [done|].
  cbn [foldl]. destruct (Hstep items flag lg link) as [Ht Hf].
  destruct (step (items, flag, lg) link) as [[items1 flag1] lg1].
  cbn [fst snd] in Ht, Hf. destruct (IH items1 flag1 lg1) as [IHt IHf].
  split.
  - intros Hflag. by apply IHt, Ht.
  - intros Hfalse. rewrite (IHf Hfalse). apply Hf.
    destruct flag1; [|done]. by rewrite IHt in Hfalse.
Qed.

Lemma merge_node_link_fold kind link_type links items flag lg :
  (flag = true →
   (foldl (merge_node_link kind link_type) (items, flag, lg) links).1.2
   = true)
  ∧ ((foldl (merge_node_link kind link_type) (items, flag, lg) links).1.2
     = false →
     (foldl (merge_node_link kind link_type) (items, flag, lg) links).1.1
     = items).
Proof. apply flagged_fold. intros. apply merge_node_link_step. Qed.

Lemma merge_topic_link_fold actions bank_type link_type links items flag lg :
  (flag = true →
   (foldl (merge_topic_link actions bank_type link_type)
          (items, flag, lg) links).1.2 = true)
  ∧ ((foldl (merge_topic_link actions bank_type link_type)
            (items, flag, lg) links).1.2 = false →
     (foldl (merge_topic_link actions bank_type link_type)
            (items, flag, lg) links).1.1 = items).
Proof. apply flagged_fold. intros. apply merge_topic_link_step. Qed.

(** A node merge that changes a field returns the flag [True]. *)
Lemma node_helper_merge_flag actions bank_type h b lg :
  (node_helper_merge actions bank_type h b lg).1.2 = false →
  (node_helper_merge actions bank_type h b lg).1.1 = b.
Proof.
  unfold node_helper_merge,
    merge_haros_node_links_with_chris_node_parameters,
    merge_haros_node_links_with_chris_node_services,
    merge_haros_node_links_with_chris_node_topics.
  destruct (str_truthy (node b)) eqn:Hnode; cbn [negb];
    [|intros Hflag; exfalso; revert Hflag].
  2: { destruct (list_truthy (cmdline b)), (hn_launch h);
       repeat (match goal with
               | |- context [foldl ?f ?a ?l] =>
                   destruct (foldl f a l) as [[? ?] ?]
               end); cbn; by destruct_all bool. }
  destruct (list_truthy (cmdline b)) eqn:Hcmd; cbn [negb];
    [|intros Hflag; exfalso; revert Hflag].
  2: { destruct (hn_launch h);
       repeat (match goal with
               | |- context [foldl ?f ?a ?l] =>
                   destruct (foldl f a l) as [[? ?] ?]
               end); cbn; by destruct_all bool. }
  destruct (hn_launch h) as [path|] eqn:Hlaunch;
    [intros Hflag; exfalso; revert Hflag|].
  { repeat (match goal with
            | |- context [foldl ?f ?a ?l] =>
                destruct (foldl f a l) as [[? ?] ?]
            end); cbn; by destruct_all bool. }
  pose proof (merge_node_link_fold "Parameter" "Set" (hn_writes h)
                (set_parameter_names b) false lg) as [_ H1].
  destruct (foldl (merge_node_link "Parameter" "Set") _ (hn_writes h))
    as [[set' u1] lg1].
  pose proof (merge_node_link_fold "Parameter" "Read" (hn_reads h)
                (read_parameter_names b) false lg1) as [_ H2].
  destruct (foldl (merge_node_link "Parameter" "Read") _ (hn_reads h))
    as [[read' u2] lg2].
  pose proof (merge_node_link_fold "Service" "Provided" (hn_servers h)
                (provided_services b) false lg2) as [_ H3].
  destruct (foldl (merge_node_link "Service" "Provided") _ (hn_servers h))
    as [[provided' u3] lg3].
  destruct (foldl (merge_node_link "Service" "Client") _ (hn_clients h))
    as [[clients' u4] lg4].
  pose proof (merge_topic_link_fold actions (BankType_str bank_type)
                "Published" (hn_publishers h) (published_topic_names b)
                false lg4) as [_ H5].
  destruct (foldl (merge_topic_link actions (BankType_str bank_type)
                     "Published") _ (hn_publishers h)) as [[pubs' u5] lg5].
  pose proof (merge_topic_link_fold actions (BankType_str bank_type)
                "Subscribed" (hn_subscribers h) (subscribed_topic_names b)
                u5 lg5) as [H6t H6].
  destruct (foldl (merge_topic_link actions (BankType_str bank_type)
                     "Subscribed") _ (hn_subscribers h)) as [[subs' u6] lg6].
  cbn in *. destruct u1, u2, u3, u4, u5, u6; cbn; try done.
  - intros _. by specialize (H6t eq_refl).
  - intros _. rewrite H1, H2, H3, H5, H6 by done. by destruct b.
Qed.

End node_merge.

Section version_bookkeeping.
Import Merger.

(** C1 (as amended): the version and the source of a merged entity follow
    the flag its kind's merge helper returns.  With the flag [False] they
    are untouched; with the flag [True] the version goes up by exactly 1
    and the source is updated: a source that is a list or a
    comma-separated string gains the remodeler's tag, holds every tag
    once, and a repeated update leaves it as it is, while a source of
    another kind stays as it was.  A topic merge returns the flag [True]
    exactly when it changed the entity, and a node merge returns it
    whenever it changed the entity. *)
Theorem version_follows_the_merge_flag :
  (∀ (H B : Type) (R : Remodeler H B) (actions : action_bank)
     (bank_type : BankType) (haros_instance_name : string) (h : H)
     (chris : model B) (lg : logger),
     let r := helper_merge_haros_model_with_chris_model actions bank_type h
                (body chris)
                (log lg INFO
                   ("[" +:+ TYPE +:+
                    "] Merging HAROS Instance with CHRIS Instance " +:+
                    dq +:+ haros_instance_name +:+ dq +:+ ".")) in
     let m := (merge_haros_model_with_chris_model actions bank_type
                 haros_instance_name h chris lg).1 in
     body m = r.1.1 ∧ name m = name chris
     ∧ (r.1.2 = false → version m = version chris ∧ source m = source chris)
     ∧ (r.1.2 = true →
        version m = (version chris + 1)%Z
        ∧ source m = updated_source (source chris)))
  ∧ (∀ src,
       source_is_tagged src →
       source_is_tagged (updated_source src)
       ∧ NoDup (source_tags (updated_source src))
       ∧ (∀ x, x ∈ source_tags (updated_source src)
               ↔ x ∈ source_tags src ∨ x = REMODELER_SOURCE_NAME)
       ∧ updated_source (updated_source src) = updated_source src)
  ∧ (∀ src, ¬ source_is_tagged src → updated_source src = src)
  ∧ (∀ actions bank_type h b lg,
       (topic_helper_merge actions bank_type h b lg).1.2 = true
       ↔ (topic_helper_merge actions bank_type h b lg).1.1 ≠ b)
  ∧ (∀ actions bank_type h b lg,
       (node_helper_merge actions bank_type h b lg).1.1 ≠ b →
       (node_helper_merge actions bank_type h b lg).1.2 = true).
Proof.
  split_and!.
  - intros H B R actions bank_type nm h chris lg r m. subst r m.
    unfold merge_haros_model_with_chris_model.
    destruct (helper_merge_haros_model_with_chris_model _ _ _ _ _)
      as [[b updated] lg1].
    unfold update_chris_model_version. cbn [fst snd].
    destruct updated.
    + cbn [with_body source name version body].
      by destruct (source chris).
    + done.
  - apply updated_source_spec.
  - apply updated_source_untagged.
  - intros actions bank_type h b lg.
    destruct (topic_helper_merge_spec actions bank_type h b lg)
      as (lg' & -> & _). cbn [fst snd]. apply bool_decide_eq_true.
  - intros actions bank_type h b lg Hne.
    destruct ((node_helper_merge actions bank_type h b lg).1.2) eqn:Hflag;
      [done|]. by apply node_helper_merge_flag in Hflag.
Qed.

End version_bookkeeping.

(** C1, a concrete instance: the HAROS topic [/chatter] brings the
    publisher [/talker] to a topic entity the snapshot wrote without it. *)
Lemma version_follows_the_merge_flag_witness :
  let chris : Merger.model Merger.TopicBody :=
    Merger.Model "/chatter" (Merger.SrcStr "ros_snapshot") 0
      {| Merger.construct_type := Some "std_msgs/String";
         Merger.publisher_node_names := ∅;
         Merger.subscriber_node_names := ∅ |} in
  let m := (Merger.merge_haros_model_with_chris_model ∅ Merger.TOPIC
              "/chatter" Merger.haros_chatter chris []).1 in
  (Merger.topic_helper_merge ∅ Merger.TOPIC Merger.haros_chatter
     (Merger.body chris)
     [LogRecord INFO
        ("[TOPIC] Merging HAROS Instance with CHRIS Instance "
           +:+ Merger.dq +:+ "/chatter" +:+ Merger.dq +:+ ".")]).1.2 = true
  ∧ Merger.version m = 1%Z
  ∧ Merger.source m
    = Merger.SrcStr "haros_chris_model_merger, ros_snapshot"
  ∧ Merger.updated_source (Merger.source m) = Merger.source m.
Proof.
  intros chris m.
  destruct version_follows_the_merge_flag as (Hmerge & Hsrc & _).
  destruct (Hmerge _ _ Merger.TopicRemodeler ∅ Merger.TOPIC "/chatter"
              Merger.haros_chatter chris []) as (_ & _ & _ & Hflag).
  assert ((Merger.topic_helper_merge ∅ Merger.TOPIC Merger.haros_chatter
             (Merger.body chris)
             [LogRecord INFO
                ("[TOPIC] Merging HAROS Instance with CHRIS Instance "
                   +:+ Merger.dq +:+ "/chatter" +:+ Merger.dq +:+ ".")]).1.2
          = true) as Hupdated by (vm_compute; reflexivity).
  destruct (Hflag Hupdated) as [Hv Hs]. fold m in Hv, Hs.
  split; [exact Hupdated|]. split; [exact Hv|].
  split; [rewrite Hs; vm_compute; reflexivity|].
  rewrite Hs. apply (Hsrc (Merger.source chris)). exact I.
Defined.

(** C1 as stated fails twice.  Merging the HAROS node [/talker] again
    into the node it was already merged into changes no field, yet the
    version goes up, because a launch file is written, and flagged,
    whether or not it differs.  And merging a new publisher into a topic
    whose source was never set changes a field and bumps the version, but
    adds no tag. *)
Lemma merge_flag_counterexample :
  (let m := (Merger.merge_haros_model_with_chris_model ∅ Merger.NODE
               "/talker" Merger.haros_talker Merger.launched_node []).1 in
   Merger.body m = Merger.body Merger.launched_node
   ∧ Merger.version m = (Merger.version Merger.launched_node + 1)%Z)
  ∧ (let m := (Merger.merge_haros_model_with_chris_model ∅ Merger.TOPIC
                 "/chatter" Merger.haros_chatter Merger.fresh_chatter []).1 in
     Merger.body m ≠ Merger.body Merger.fresh_chatter
     ∧ Merger.version m = (Merger.version Merger.fresh_chatter + 1)%Z
     ∧ Merger.source m = Merger.SrcNone
     ∧ Merger.REMODELER_SOURCE_NAME ∉ Merger.source_tags (Merger.source m)).
Proof.
  split.
  - split; vm_compute; reflexivity.
  - split_and!; [|vm_compute; reflexivity..|].
    + intros Heq.
      apply (f_equal (λ b, bool_decide
                             ("/talker" ∈ Merger.publisher_node_names b)))
        in Heq.
      vm_compute in Heq. discriminate.
    + intros Hin. vm_compute in Hin. by apply elem_of_nil in Hin.
Qed.

(** ** Dynamic attribute update: the other branches *)

Section update_attributes_branches.
Import Metamodel.
Variable int_of_str : string → option Z.
Variable int_of_obj : N → option Z.
Variable repr_of : value → string.

Lemma value_eqb_none (v : value) : value_eqb v VNone = true ↔ v = VNone.
Proof. destruct v; cbn; split; intros; done. Qed.

Lemma update_attribute_effect e lg key new e' lg' :
  update_attribute int_of_str int_of_obj repr_of (e, lg) (key, new) = Returns (e', lg') →
  cls e' = cls e
  ∧ (∀ k, k ≠ key → attrs e' !! k = attrs e !! k)
  ∧ key ∈ dom (attrs e')
  ∧ lg `prefix_of` lg'.
Proof.
  assert (Hset : ∀ v, cls (setattr e key v) = cls e
                      ∧ (∀ k, k ≠ key → attrs (setattr e key v) !! k = attrs e !! k)
                      ∧ key ∈ dom (attrs (setattr e key v))).
  { intros v. split; [done|]. split.
    - intros k Hk. cbn. by rewrite lookup_insert_ne.
    - cbn. set_solver. }
  unfold Metamodel.update_attribute.
  destruct (attrs e !! key) as [val|] eqn:Hval.
  - assert (Hid : cls e = cls e
                  ∧ (∀ k, k ≠ key → attrs e !! k = attrs e !! k)
                  ∧ key ∈ dom (attrs e)).
    { split; [done|]. split; [done|]. by apply elem_of_dom. }
    intros Hr. cbn in Hr.
    repeat match type of Hr with
           | Returns _ = Returns _ => simplify_eq
           | Raises _ = Returns _ => discriminate
           | context [?x ≫= _] => destruct x eqn:?; cbn in Hr
           | context [match ?x with _ => _ end] => destruct x eqn:?; cbn in Hr
           end;
      match goal with
      | |- cls (setattr _ _ ?v) = _ ∧ _ => destruct (Hset v) as (? & ? & ?)
      | |- _ => destruct Hid as (? & ? & ?)
      end; split_and!; done || reflexivity.
  - destruct (attrs e !! "name"); [|done]. intros ?; simplify_eq.
    destruct (Hset new) as (? & ? & ?). split_and!; try done.
    by apply prefix_app_r.
Qed.

(** X1: a call of [update_attributes] that returns has left the class and
    every attribute it was not asked to update as they were, has removed no
    attribute, has added only attributes named in the call, and has only
    appended to the log. *)
Theorem update_attributes_frame (kwargs : list (string * value))
    (e e' : entity) (lg lg' : logger) :
  update_attributes int_of_str int_of_obj repr_of (e, lg) kwargs = Returns (e', lg') →
  cls e' = cls e
  ∧ (∀ k, k ∉ kwargs.*1 → attrs e' !! k = attrs e !! k)
  ∧ dom (attrs e) ⊆ dom (attrs e')
  ∧ dom (attrs e') ⊆ dom (attrs e) ∪ list_to_set kwargs.*1
  ∧ lg `prefix_of` lg'.
Proof.
  revert e lg. induction kwargs as [|[key new] kwargs IH]; intros e lg Hr.
  - cbn in Hr. simplify_eq. split_and!; try done; set_solver.
  - change (update_attribute int_of_str int_of_obj repr_of (e, lg) (key, new)
            ≫= (λ st', update_attributes int_of_str int_of_obj repr_of st' kwargs)
            = Returns (e', lg')) in Hr.
    destruct (update_attribute int_of_str int_of_obj repr_of (e, lg)
                (key, new)) as [[e1 lg1]|] eqn:H1; [|done].
    change (update_attributes int_of_str int_of_obj repr_of (e1, lg1) kwargs
            = Returns (e', lg')) in Hr.
    apply update_attribute_effect in H1 as (Hc1 & Hf1 & Hk1 & Hl1).
    apply IH in Hr as (Hc & Hf & Hd & Hd' & Hl).
    assert (Hsub : dom (attrs e) ⊆ dom (attrs e1)).
    { intros k Hk. destruct (decide (k = key)) as [Heq|Hne]; [by subst|].
      apply elem_of_dom. rewrite Hf1 by done. by apply elem_of_dom. }
    assert (Hsup : dom (attrs e1) ⊆ dom (attrs e) ∪ {[ key ]}).
    { intros k Hk. destruct (decide (k = key)) as [Heq|Hne]; [set_solver|].
      apply elem_of_union_l, elem_of_dom. rewrite <- Hf1 by done.
      by apply elem_of_dom. }
    split_and!.
    + congruence.
    + intros k Hk. cbn in Hk. rewrite Hf by set_solver. apply Hf1. set_solver.
    + set_solver.
    + cbn. set_solver.
    + by etrans.
Qed.

(** X2: an integer [version] is never left as it was by an update other
    than [None]: it becomes one more than the larger of the old number and
    the number given, so it strictly exceeds both; an update that is no
    number counts as the old one.  Nothing is logged. *)
Theorem update_attributes_integer_version (e : entity) (lg : logger) (n : Z)
    (new : value) :
  attrs e !! "version" = Some (VInt n) →
  new ≠ VNone →
  update_attributes int_of_str int_of_obj repr_of (e, lg) [("version", new)]
  = Returns (setattr e "version"
               (VInt (Z.max n (default n (py_int int_of_str int_of_obj new)) + 1)),
             lg)
  ∧ (n < Z.max n (default n (py_int int_of_str int_of_obj new)) + 1)%Z
  ∧ (∀ n2, py_int int_of_str int_of_obj new = Some n2 →
           (n2 < Z.max n (default n (py_int int_of_str int_of_obj new)) + 1)%Z).
Proof.
  intros Hv Hnew. split; [|split].
  - cbn. unfold Metamodel.update_attribute. rewrite Hv.
    rewrite andb_false_r.
    destruct (value_eqb new VNone) eqn:Hn;
      [by apply value_eqb_none in Hn|].
    cbn. destruct (py_int int_of_str int_of_obj new); cbn; [done|].
    by rewrite Z.max_id.
  - lia.
  - intros n2 ->. cbn. lia.
Qed.

(** X3: [None] never erases: updating an attribute that holds a value with
    [None] changes nothing (also for [version]), while an attribute that
    holds [None] takes any new value as it is. *)
Theorem update_attributes_none (e : entity) (lg : logger) (key : string)
    (val new : value) :
  attrs e !! key = Some val →
  (val ≠ VNone → update_attributes int_of_str int_of_obj repr_of (e, lg) [(key, VNone)] = Returns (e, lg))
  ∧ (val = VNone →
     update_attributes int_of_str int_of_obj repr_of (e, lg) [(key, new)]
     = Returns (setattr e key new, lg)).
Proof.
  intros Hv. split.
  - intros Hne. cbn. unfold Metamodel.update_attribute. rewrite Hv.
    destruct val; try done; cbn; by destruct (bool_decide (key = "version")).
  - intros ->. cbn. unfold Metamodel.update_attribute. by rewrite Hv.
Qed.

Lemma value_in_app x l l' :
  value_in x (l ++ l') = value_in x l || value_in x l'.
Proof. unfold value_in. by rewrite existsb_app. Qed.

(** X4: on a list attribute other than [version], an update with one value
    (no list, not [None]) is idempotent: the value is appended only when
    the list has no equal element, and a second update with it changes
    nothing; an update with a list that differs from the current one
    appends all of it, whether or not its elements are already there. *)
Theorem update_attributes_list_field (e : entity) (lg : logger)
    (key : string) (l : list value) :
  key ≠ "version" →
  attrs e !! key = Some (VList l) →
  (∀ x, x ≠ VNone → (∀ l', x ≠ VList l') →
     ∃ e1,
       update_attributes int_of_str int_of_obj repr_of (e, lg) [(key, x)] = Returns (e1, lg)
       ∧ update_attributes int_of_str int_of_obj repr_of (e1, lg) [(key, x)] = Returns (e1, lg)
       ∧ attrs e1 !! key
         = Some (VList (if value_in x l then l else l ++ [x])))
  ∧ (∀ l', value_eqb (VList l) (VList l') = false →
       update_attributes int_of_str int_of_obj repr_of (e, lg) [(key, VList l')]
       = Returns (setattr e key (VList (l ++ l')), lg)).
Proof.
  intros Hkey Hv. split.
  - intros x Hnone Hlist.
    assert (Hrefl : value_eqb x x = true).
    { destruct x; cbn; try done; try (by rewrite bool_decide_eq_true_2).
      by destruct (Hlist l0). }
    assert (Hneq : value_eqb (VList l) x = false).
    { destruct x; try done. by destruct (Hlist l0). }
    assert (Hn : value_eqb x VNone = false).
    { destruct (value_eqb x VNone) eqn:Hx; [by apply value_eqb_none in Hx|done]. }
    assert (Hstep : ∀ (e0 : entity) l0,
              attrs e0 !! key = Some (VList l0) →
              update_attributes int_of_str int_of_obj repr_of (e0, lg) [(key, x)]
              = Returns (if value_in x l0 then e0
                         else setattr e0 key (VList (l0 ++ [x])), lg)).
    { intros e0 l0 H0. cbn. unfold Metamodel.update_attribute. rewrite H0.
      assert (Hneq0 : value_eqb (VList l0) x = false).
      { destruct x; try done. by destruct (Hlist l1). }
      rewrite Hneq0, Hn. cbn -[value_eqb].
      rewrite bool_decide_eq_false_2 by done.
      destruct x; try done; try (by destruct (value_in _ l0)).
      by destruct (Hlist l1). }
    destruct (value_in x l) eqn:Hin.
    + exists e. rewrite (Hstep e l Hv), Hin. done.
    + exists (setattr e key (VList (l ++ [x]))).
      rewrite (Hstep e l Hv), Hin. split; [done|].
      assert (H1 : attrs (setattr e key (VList (l ++ [x]))) !! key
                   = Some (VList (l ++ [x]))).
      { cbn. by rewrite lookup_insert_eq. }
      rewrite (Hstep _ _ H1). rewrite value_in_app.
      replace (value_in x [x]) with true
        by (unfold value_in; cbn -[value_eqb]; by rewrite Hrefl).
      by rewrite orb_true_r.
  - intros l' Hne. cbn -[value_eqb]. unfold Metamodel.update_attribute.
    rewrite Hv, Hne. cbn. by rewrite bool_decide_eq_false_2.
Qed.

End update_attributes_branches.

Lemma update_attributes_frame_witness :
  let e := Metamodel.Entity "Node"
             {[ "name" := Metamodel.VStr "/n"; "node" := Metamodel.VStr "pkg/a" ]} in
  let e' := Metamodel.Entity "Node"
             {[ "name" := Metamodel.VStr "/n";
                "node" := Metamodel.VList [Metamodel.VStr "pkg/a"; Metamodel.VStr "pkg/b"];
                "machine" := Metamodel.VStr "host" ]} in
  let lg' := [LogRecord WARNING "Adding new attribute machine to /n (Node)."] in
  let kwargs := [("node", Metamodel.VStr "pkg/b");
                 ("machine", Metamodel.VStr "host")] in
  Metamodel.update_attributes (λ _, None) (λ _, None) (λ _, "") (e, []) kwargs
  = Returns (e', lg')
  ∧ Metamodel.cls e' = Metamodel.cls e
  ∧ (∀ k, k ∉ kwargs.*1 → Metamodel.attrs e' !! k = Metamodel.attrs e !! k)
  ∧ dom (Metamodel.attrs e) ⊆ dom (Metamodel.attrs e')
  ∧ dom (Metamodel.attrs e') ⊆ dom (Metamodel.attrs e) ∪ list_to_set kwargs.*1
  ∧ [] `prefix_of` lg'.
Proof.
  intros e e' lg' kwargs.
  assert (Hrun : Metamodel.update_attributes (λ _, None) (λ _, None) (λ _, "")
                   (e, []) kwargs = Returns (e', lg')).
  { vm_compute. reflexivity. }
  split; [exact Hrun|].
  exact (update_attributes_frame (λ _, None) (λ _, None) (λ _, "")
           kwargs e e' [] lg' Hrun).
Defined.

Lemma update_attributes_integer_version_witness :
  let e := Metamodel.Entity "Node"
             {[ "name" := Metamodel.VStr "/n"; "version" := Metamodel.VInt 3 ]} in
  (Metamodel.attrs e !! "version" = Some (Metamodel.VInt 3)
   ∧ Metamodel.VInt 0 ≠ Metamodel.VNone)
  ∧ Metamodel.update_attributes (λ _, None) (λ _, None) (λ _, "") (e, [])
      [("version", Metamodel.VInt 0)]
    = Returns (Metamodel.setattr e "version" (Metamodel.VInt 4), []).
Proof.
  intros e. split; [split; [reflexivity | discriminate] |].
  exact (proj1 (update_attributes_integer_version (λ _, None) (λ _, None)
                  (λ _, "") e [] 3 (Metamodel.VInt 0) eq_refl
                  ltac:(discriminate))).
Defined.

Lemma update_attributes_none_witness :
  let e := Metamodel.Entity "Node"
             {[ "name" := Metamodel.VStr "/n"; "version" := Metamodel.VInt 3 ]} in
  Metamodel.attrs e !! "version" = Some (Metamodel.VInt 3)
  ∧ Metamodel.update_attributes (λ _, None) (λ _, None) (λ _, "") (e, [])
      [("version", Metamodel.VNone)] = Returns (e, []).
Proof.
  intros e. split; [reflexivity|].
  exact (proj1 (update_attributes_none (λ _, None) (λ _, None) (λ _, "")
                  e [] "version" (Metamodel.VInt 3) Metamodel.VNone eq_refl)
           ltac:(discriminate)).
Defined.

Lemma update_attributes_list_field_witness :
  let e := Metamodel.Entity "Node"
             {[ "name" := Metamodel.VStr "/n";
                "source" := Metamodel.VList [Metamodel.VStr "ros_snapshot"] ]} in
  ("source" ≠ "version"
   ∧ Metamodel.attrs e !! "source"
     = Some (Metamodel.VList [Metamodel.VStr "ros_snapshot"]))
  ∧ Metamodel.update_attributes (λ _, None) (λ _, None) (λ _, "") (e, [])
      [("source", Metamodel.VList [Metamodel.VStr "ros_snapshot";
                                   Metamodel.VStr "ros_snapshot"])]
    = Returns (Metamodel.setattr e "source"
                 (Metamodel.VList [Metamodel.VStr "ros_snapshot";
                                   Metamodel.VStr "ros_snapshot";
                                   Metamodel.VStr "ros_snapshot"]), []).
Proof.
  intros e. split; [split; [discriminate | reflexivity] |].
  exact (proj2 (update_attributes_list_field (λ _, None) (λ _, None) (λ _, "")
                  e [] "source" [Metamodel.VStr "ros_snapshot"]
                  ltac:(discriminate) eq_refl)
           [Metamodel.VStr "ros_snapshot"; Metamodel.VStr "ros_snapshot"]
           eq_refl).
Defined.

(** ** Node remodeler: merging the links of a HAROS node *)

Section node_links.
Import Merger.

Lemma merge_node_link_cases kind link_type items flag (lg : logger) n ty :
  ∃ lg' : logger, lg `prefix_of` lg'
    ∧ merge_node_link kind link_type (items, flag, lg) (n, ty)
      = if haros_name_is_complete n && bool_decide (items !! n = None)
        then (<[n := Some ty]> items, true, lg')
        else (items, flag, lg').
Proof.
  unfold merge_node_link, check_haros_name_is_complete.
  destruct (haros_name_is_complete n); cbn.
  - destruct (items !! n) as [t|] eqn:Hn; cbn.
    + case_bool_decide; eexists; (split; [|reflexivity]);
        [by apply prefix_app_r | done].
    + eexists; split; [|reflexivity]. by apply prefix_app_r.
  - eexists; split; [|reflexivity]. by apply prefix_app_r.
Qed.

Lemma merge_node_link_fold_spec kind link_type links items flag
    (lg : logger) :
  let r := foldl (merge_node_link kind link_type) (items, flag, lg) links in
  items ⊆ r.1.1
  ∧ dom r.1.1 = dom items ∪ complete_names links.*1
  ∧ r.1.2 = flag || bool_decide (dom r.1.1 ≠ dom items)
  ∧ (∀ n t, r.1.1 !! n = Some t → items !! n = None →
            ∃ ty, t = Some ty ∧ (n, ty) ∈ links)
  ∧ lg `prefix_of` r.2.
Proof.
  revert items flag lg.
  induction links as [|[n ty] links IH]; intros items flag lg r.
  - subst r. cbn. split_and!; try done.
    + set_solver.
    + rewrite bool_decide_eq_false_2 by (by intros []). by rewrite orb_false_r.
    + intros n t H1 H2. congruence.
  - subst r. cbn [foldl fmap list_fmap fst].
    destruct (merge_node_link_cases kind link_type items flag lg n ty)
      as (lg1 & Hlg1 & ->).
    rewrite complete_names_cons.
    destruct (haros_name_is_complete n) eqn:Hc; cbn [andb].
    + case_bool_decide as Hn.
      * destruct (IH (<[n := Some ty]> items) true lg1)
          as (Hsub & Hdom & Hflag & Hnew & Hlg).
        assert (Hins : items ⊆ <[n := Some ty]> items)
          by (by apply insert_subseteq).
        split_and!.
        -- by etrans.
        -- rewrite Hdom, dom_insert_L. set_solver.
        -- rewrite Hflag. cbn. symmetry.
           rewrite bool_decide_eq_true_2; [by rewrite orb_true_r|].
           intros Heq. apply not_elem_of_dom in Hn. apply Hn.
           rewrite <- Heq, Hdom, dom_insert_L. set_solver.
        -- intros k t Hk Hk0.
           destruct (decide (k = n)) as [->|Hne].
           ++ exists ty. split; [|by left].
              assert (Hin : <[n := Some ty]> items !! n = Some (Some ty))
                by apply lookup_insert_eq.
              eapply lookup_weaken in Hin; [|exact Hsub]. congruence.
           ++ destruct (Hnew k t Hk) as (ty' & -> & Hin).
              { by rewrite lookup_insert_ne. }
              exists ty'. split; [done|]. by right.
        -- by etrans.
      * destruct (IH items flag lg1) as (Hsub & Hdom & Hflag & Hnew & Hlg).
        assert (Hin : n ∈ dom items).
        { apply elem_of_dom. destruct (items !! n); [done|]. by destruct Hn. }
        split_and!; try done.
        -- rewrite Hdom. set_solver.
        -- intros k t Hk Hk0. destruct (Hnew k t Hk Hk0) as (ty' & -> & ?).
           exists ty'. split; [done|]. by right.
        -- by etrans.
    + destruct (IH items flag lg1) as (Hsub & Hdom & Hflag & Hnew & Hlg).
      split_and!; try done.
      * intros k t Hk Hk0. destruct (Hnew k t Hk Hk0) as (ty' & -> & ?).
        exists ty'. split; [done|]. by right.
      * by etrans.
Qed.

(** X5: merging the service (or parameter) links of a HAROS node into a
    dictionary of a CHRIS node never overwrites or removes an entry (a
    conflicting HAROS type is only logged); the names of the result are the
    old ones and the complete HAROS names; each new entry has the type of a
    HAROS link of that name; and the returned flag says exactly whether the
    dictionary changed. *)
Theorem node_links_merge_only_adds (links : list (string * string))
    (items : gmap string (option string)) (link_type : string) (lg : logger) :
  (let r := merge_haros_node_links_with_chris_node_services
              links items link_type lg in
   items ⊆ r.1.1
   ∧ dom r.1.1 = dom items ∪ complete_names links.*1
   ∧ (r.1.2 = true ↔ r.1.1 ≠ items)
   ∧ (∀ n t, r.1.1 !! n = Some t → items !! n = None →
             ∃ ty, t = Some ty ∧ (n, ty) ∈ links)
   ∧ lg `prefix_of` r.2)
  ∧ (let r := merge_haros_node_links_with_chris_node_parameters
                links items link_type lg in
     items ⊆ r.1.1
     ∧ dom r.1.1 = dom items ∪ complete_names links.*1
     ∧ (r.1.2 = true ↔ r.1.1 ≠ items)
     ∧ (∀ n t, r.1.1 !! n = Some t → items !! n = None →
               ∃ ty, t = Some ty ∧ (n, ty) ∈ links)
     ∧ lg `prefix_of` r.2).
Proof.
  assert (Hgen : ∀ kind,
    let r := foldl (merge_node_link kind link_type) (items, false, lg) links in
    items ⊆ r.1.1
    ∧ dom r.1.1 = dom items ∪ complete_names links.*1
    ∧ (r.1.2 = true ↔ r.1.1 ≠ items)
    ∧ (∀ n t, r.1.1 !! n = Some t → items !! n = None →
              ∃ ty, t = Some ty ∧ (n, ty) ∈ links)
    ∧ lg `prefix_of` r.2).
  { intros kind r.
    destruct (merge_node_link_fold_spec kind link_type links items false lg)
      as (Hsub & Hdom & Hflag & Hnew & Hlg).
    fold r in Hsub, Hdom, Hflag, Hnew, Hlg.
    split_and!; try done.
    rewrite Hflag. cbn. rewrite bool_decide_eq_true. split.
    - intros Hne Heq. apply Hne. by rewrite Heq.
    - intros Hne Heq. apply Hne. symmetry.
      apply (anti_symm (⊆)); [done|].
      apply map_subseteq_spec. intros k t Hk.
      destruct (items !! k) as [t'|] eqn:Hk'.
      + eapply lookup_weaken in Hk'; [|exact Hsub]. congruence.
      + apply not_elem_of_dom in Hk'. rewrite <- Heq in Hk'.
        apply not_elem_of_dom in Hk'. congruence. }
  split; [apply (Hgen "Service") | apply (Hgen "Parameter")].
Qed.

(** X6: when HAROS names at least one complete client service for a node
    that is merged, the client services of the CHRIS node are replaced, not
    extended: the new dictionary holds exactly the complete HAROS client
    names, whatever was recorded before, and the merge reports a change;
    with no complete client name the recorded ones are kept. *)
Theorem node_merge_replaces_client_services (actions : action_bank)
    (bank_type : BankType) (h : HarosNode) (b : NodeBody) (lg : logger) :
  let r := node_helper_merge actions bank_type h b lg in
  (complete_names (hn_clients h).*1 = ∅ →
   client_services r.1.1 = client_services b)
  ∧ (complete_names (hn_clients h).*1 ≠ ∅ →
     r.1.2 = true
     ∧ ∃ m, client_services r.1.1 = Some m
            ∧ dom m = complete_names (hn_clients h).*1
            ∧ ∀ n t, m !! n = Some t → ∃ ty, t = Some ty ∧ (n, ty) ∈ hn_clients h).
Proof.
  intros r. subst r. unfold node_helper_merge.
  repeat match goal with
         | |- context [match ?x with _ => _ end] =>
             lazymatch x with
             | context [hn_clients] => fail
             | _ => destruct x eqn:?
             end
         end.
  all: match goal with
  | |- context [merge_haros_node_links_with_chris_node_services
                  _ ∅ "Client" ?l] =>
      destruct (merge_node_link_fold_spec "Service" "Client" (hn_clients h)
                  ∅ false l) as (_ & Hdom & Hflag & Hnew & _);
      unfold merge_haros_node_links_with_chris_node_services;
      destruct (foldl (merge_node_link "Service" "Client") (∅, false, l)
                  (hn_clients h)) as [[m u] lg'] eqn:Hfold
  end.
  all: cbn in Hdom, Hflag, Hnew; rewrite ?dom_empty_L in Hdom, Hflag;
    rewrite (left_id_L ∅ (∪)) in Hdom.
  all: split;
    [ intros Hempty;
      assert (u = false) as ->
        by (rewrite Hflag; cbn; apply bool_decide_eq_false_2;
            rewrite Hdom, Hempty; by intros []);
      by destruct (merge_haros_node_links_with_chris_node_topics _ _ _ _ _ _)
        as [[[? ?] ?] ?]
    | intros Hne;
      assert (u = true) as ->
        by (rewrite Hflag; cbn; apply bool_decide_eq_true_2;
            by rewrite Hdom);
      destruct (merge_haros_node_links_with_chris_node_topics _ _ _ _ _ _)
        as [[[? ?] ?] ?]; cbn; split; [done|];
      exists m; split_and!; try done;
      intros n t Hn; apply Hnew; [done | apply lookup_empty] ].
Qed.

Lemma topic_is_part_of_action_log TYPE actions n (lg : logger) :
  (topic_is_part_of_action TYPE actions n lg).1
  = (topic_is_part_of_action TYPE actions n []).1
  ∧ lg `prefix_of` (topic_is_part_of_action TYPE actions n lg).2.
Proof.
  unfold topic_is_part_of_action. cbn. split; [done|].
  unfold log. rewrite <- app_assoc. by apply prefix_app_r.
Qed.

Lemma merge_topic_link_cases actions bank_type link_type items flag
    (lg : logger) n ty :
  ∃ lg' : logger, lg `prefix_of` lg'
    ∧ merge_topic_link actions bank_type link_type (items, flag, lg) (n, ty)
      = if haros_name_is_complete n && bool_decide (items !! n = None)
           && negb (topic_is_part_of_action "NODE" actions n []).1
           && bool_decide (ty ≠ "bond/Status")
        then (<[n := Some ty]> items, true, lg')
        else (items, flag, lg').
Proof.
  unfold merge_topic_link, check_haros_name_is_complete.
  destruct (haros_name_is_complete n); cbn [negb andb].
  - destruct (items !! n) as [t|] eqn:Hn.
    + rewrite (bool_decide_eq_false_2 (Some t = None)) by done. cbn [andb].
      case_bool_decide; eexists; (split; [|reflexivity]);
        [by apply prefix_app_r | done].
    + rewrite (bool_decide_eq_true_2 (None = None)) by done. cbn [andb].
      destruct (topic_is_part_of_action_log "NODE" actions n lg) as [H1 H2].
      destruct (topic_is_part_of_action "NODE" actions n lg) as [p lg1].
      cbn [fst snd] in H1, H2. rewrite <- H1.
      destruct p; cbn [negb andb].
      * eexists; split; [|reflexivity]. done.
      * case_bool_decide; cbn; eexists; (split; [|reflexivity]);
          (etrans; [exact H2|by apply prefix_app_r]).
  - eexists; split; [|reflexivity]. by apply prefix_app_r.
Qed.

Lemma merge_topic_link_fold_spec actions bank_type link_type links items
    flag (lg : logger) :
  let r := foldl (merge_topic_link actions bank_type link_type)
                 (items, flag, lg) links in
  items ⊆ r.1.1
  ∧ (∀ n, n ∈ dom r.1.1 ↔
          n ∈ dom items
          ∨ ∃ ty, (n, ty) ∈ links ∧ haros_name_is_complete n = true
                  ∧ (topic_is_part_of_action "NODE" actions n []).1 = false
                  ∧ ty ≠ "bond/Status")
  ∧ (∀ n t, r.1.1 !! n = Some t → items !! n = None →
            ∃ ty, t = Some ty ∧ (n, ty) ∈ links ∧ ty ≠ "bond/Status")
  ∧ r.1.2 = flag || bool_decide (dom r.1.1 ≠ dom items)
  ∧ lg `prefix_of` r.2.
Proof.
  revert items flag lg.
  induction links as [|[n ty] links IH]; intros items flag lg r.
  - subst r. cbn. split_and!; try done.
    + intros n. split; [by left|]. intros [?|(ty & Hin & _)]; [done|].
      by apply elem_of_nil in Hin.
    + intros n t H1 H2. congruence.
    + rewrite bool_decide_eq_false_2 by (by intros []). by rewrite orb_false_r.
  - subst r. cbn [foldl].
    destruct (merge_topic_link_cases actions bank_type link_type items flag
                lg n ty) as (lg1 & Hlg1 & ->).
    destruct (haros_name_is_complete n && bool_decide (items !! n = None)
              && negb (topic_is_part_of_action "NODE" actions n []).1
              && bool_decide (ty ≠ "bond/Status")) eqn:Hadd.
    + apply andb_prop in Hadd as [Hadd Hbond%bool_decide_eq_true].
      apply andb_prop in Hadd as [Hadd Hact%negb_true_iff].
      apply andb_prop in Hadd as [Hc Hn%bool_decide_eq_true].
      destruct (IH (<[n := Some ty]> items) true lg1)
        as (Hsub & Hdom & Hnew & Hflag & Hlg).
      assert (Hins : items ⊆ <[n := Some ty]> items)
        by (by apply insert_subseteq).
      assert (Hnin : n ∈ dom (foldl (merge_topic_link actions bank_type
                        link_type) (<[n := Some ty]> items, true, lg1)
                        links).1.1).
      { apply Hdom. left. rewrite dom_insert_L. set_solver. }
      split_and!.
      * by etrans.
      * intros k. rewrite Hdom, dom_insert_L. split.
        -- intros [[->%elem_of_singleton|?]%elem_of_union|(ty' & Hin & ?)].
           ++ right. exists ty. split; [by left|done].
           ++ by left.
           ++ right. exists ty'. split; [by right|done].
        -- intros [?|(ty' & Hin & Hk)]; [left; set_solver|].
           apply elem_of_cons in Hin as [[= -> ->]|Hin]; [left; set_solver|].
           right. by exists ty'.
      * intros k t Hk Hk0.
        destruct (decide (k = n)) as [->|Hne].
        -- exists ty. split; [|split; [by left|done]].
           assert (Hin : <[n := Some ty]> items !! n = Some (Some ty))
             by apply lookup_insert_eq.
           eapply lookup_weaken in Hin; [|exact Hsub]. congruence.
        -- destruct (Hnew k t Hk) as (ty' & -> & Hin & ?).
           { by rewrite lookup_insert_ne. }
           exists ty'. split; [done|]. split; [by right|done].
      * rewrite Hflag. cbn. symmetry.
        rewrite bool_decide_eq_true_2; [by rewrite orb_true_r|].
        intros Heq. apply not_elem_of_dom in Hn. apply Hn.
        by rewrite <- Heq.
      * by etrans.
    + destruct (IH items flag lg1) as (Hsub & Hdom & Hnew & Hflag & Hlg).
      split_and!; try done.
      * intros k. rewrite Hdom. split.
        -- intros [?|(ty' & Hin & ?)]; [by left|].
           right. exists ty'. split; [by right|done].
        -- intros [?|(ty' & Hin & Hc & Hact & Hbond)]; [by left|].
           apply elem_of_cons in Hin as [[= -> ->]|Hin];
             [|right; by exists ty'].
           left. rewrite Hc, Hact in Hadd. cbn in Hadd.
           rewrite (bool_decide_eq_true_2 _ Hbond), !andb_true_r in Hadd.
           apply bool_decide_eq_false in Hadd. apply elem_of_dom.
           destruct (items !! n); [done|]. by destruct Hadd.
      * intros k t Hk Hk0. destruct (Hnew k t Hk Hk0) as (ty' & -> & ? & ?).
        exists ty'. split; [done|]. split; [by right|done].
      * by etrans.
Qed.

(** X7: merging the topic links of a HAROS node into a CHRIS node never
    overwrites or removes a recorded topic, and a topic name is recorded
    afterwards exactly when it was before or HAROS links it under a
    complete name that is no topic of a CHRIS action and with a type other
    than [bond/Status]; in particular no bond topic is ever added.  The
    flag says exactly whether one of the two dictionaries changed. *)
Theorem node_topics_merge_skips_action_and_bond_topics (actions : action_bank)
    (bank_type : BankType) (h : HarosNode)
    (pubs subs : gmap string (option string)) (lg : logger) :
  let r := merge_haros_node_links_with_chris_node_topics actions bank_type h
             pubs subs lg in
  pubs ⊆ r.1.1.1 ∧ subs ⊆ r.1.1.2
  ∧ (∀ n, n ∈ dom r.1.1.1 ↔
          n ∈ dom pubs
          ∨ ∃ ty, (n, ty) ∈ hn_publishers h
                  ∧ haros_name_is_complete n = true
                  ∧ (topic_is_part_of_action "NODE" actions n []).1 = false
                  ∧ ty ≠ "bond/Status")
  ∧ (∀ n, n ∈ dom r.1.1.2 ↔
          n ∈ dom subs
          ∨ ∃ ty, (n, ty) ∈ hn_subscribers h
                  ∧ haros_name_is_complete n = true
                  ∧ (topic_is_part_of_action "NODE" actions n []).1 = false
                  ∧ ty ≠ "bond/Status")
  ∧ (∀ n, pubs !! n = None → r.1.1.1 !! n ≠ Some (Some "bond/Status"))
  ∧ (∀ n, subs !! n = None → r.1.1.2 !! n ≠ Some (Some "bond/Status"))
  ∧ (r.1.2 = true ↔ r.1.1.1 ≠ pubs ∨ r.1.1.2 ≠ subs).
Proof.
  intros r. subst r.
  unfold merge_haros_node_links_with_chris_node_topics.
  destruct (merge_topic_link_fold_spec actions (BankType_str bank_type)
              "Published" (hn_publishers h) pubs false lg)
    as (Hsub1 & Hdom1 & Hnew1 & Hflag1 & _).
  destruct (foldl (merge_topic_link actions (BankType_str bank_type)
              "Published") (pubs, false, lg) (hn_publishers h))
    as [[pubs' u1] lg1].
  destruct (merge_topic_link_fold_spec actions (BankType_str bank_type)
              "Subscribed" (hn_subscribers h) subs u1 lg1)
    as (Hsub2 & Hdom2 & Hnew2 & Hflag2 & _).
  destruct (foldl (merge_topic_link actions (BankType_str bank_type)
              "Subscribed") (subs, u1, lg1) (hn_subscribers h))
    as [[subs' u2] lg2].
  cbn in *.
  assert (Hchg : ∀ (m m' : gmap string (option string)),
            m ⊆ m' → dom m' ≠ dom m ↔ m' ≠ m).
  { intros m m' Hsub. split.
    - intros Hne Heq. apply Hne. by rewrite Heq.
    - intros Hne Heq. apply Hne. symmetry.
      apply (anti_symm (⊆)); [done|].
      apply map_subseteq_spec. intros k t Hk.
      destruct (m !! k) as [t'|] eqn:Hk'.
      + eapply lookup_weaken in Hk'; [|exact Hsub]. congruence.
      + apply not_elem_of_dom in Hk'. rewrite <- Heq in Hk'.
        apply not_elem_of_dom in Hk'. congruence. }
  split_and!; try done.
  - intros n Hn Hb. destruct (Hnew1 n _ Hb Hn) as (ty & [= <-] & _ & Hne).
    done.
  - intros n Hn Hb. destruct (Hnew2 n _ Hb Hn) as (ty & [= <-] & _ & Hne).
    done.
  - rewrite Hflag2, Hflag1. cbn. rewrite orb_true_iff, !bool_decide_eq_true.
    by rewrite !Hchg.
Qed.

End node_links.

(** ** Names: tokens, base and suffix *)

Section name_tokens_facts.

Lemma join_cons_cons sep x y l :
  PyStr.join sep (x :: y :: l) = x +:+ sep +:+ PyStr.join sep (y :: l).
Proof. done. Qed.

(** Splitting on a character and joining on it again gives the string back *)
Lemma join_split c s : PyStr.join (String c "") (PyStr.split c s) = s.
Proof.
  induction s as [|a s IH]; [done|].
  cbn [PyStr.split]. pose proof (split_nonempty c s) as Hne.
  destruct (PyStr.split c s) as [|h t] eqn:Hs; [done|].
  destruct (decide (a = c)) as [->|Hac].
  - rewrite join_cons_cons, IH. done.
  - destruct t as [|y t].
    + cbn in IH. cbn. by rewrite IH.
    + rewrite join_cons_cons. rewrite join_cons_cons in IH.
      change (String a h +:+ String c "" +:+ PyStr.join (String c "") (y :: t))
        with (String a (h +:+ String c "" +:+ PyStr.join (String c "") (y :: t))).
      by rewrite IH.
Qed.

Lemma split_app_last c b t :
  PyStr.contains (String c "") t = false →
  PyStr.split c (b +:+ String c t) = PyStr.split c b ++ [t].
Proof.
  intros Ht. induction b as [|a b IH].
  - change ("" +:+ String c t) with (String c t).
    cbn [PyStr.split]. rewrite decide_True by done.
    by rewrite (split_no_sep c t Ht).
  - change (String a b +:+ String c t) with (String a (b +:+ String c t)).
    cbn [PyStr.split]. rewrite IH.
    pose proof (split_nonempty c b) as Hne.
    destruct (PyStr.split c b) as [|h tl]; [done|].
    by destruct (decide (a = c)).
Qed.

Lemma split_contains c s :
  PyStr.contains (String c "") s = true →
  ∃ l t, PyStr.split c s = l ++ [t] ∧ l ≠ [].
Proof.
  intros Hc. pose proof (split_nonempty c s) as Hne.
  destruct (exists_last Hne) as (l & t & Hs).
  exists l, t. split; [done|]. intros ->. cbn in Hs.
  assert (t = s) as -> by (by eapply split_singleton).
  assert (Hin : s ∈ PyStr.split c s) by (rewrite Hs; apply list_elem_of_here).
  apply split_pieces_no_sep in Hin. congruence.
Qed.

Lemma string_app_assoc (a b c : string) : (a +:+ b) +:+ c = a +:+ b +:+ c.
Proof.
  induction a as [|x a IH]; [done|].
  change (String x ((a +:+ b) +:+ c) = String x (a +:+ b +:+ c)).
  by rewrite IH.
Qed.

Lemma join_snoc sep l t :
  l ≠ [] → PyStr.join sep (l ++ [t]) = PyStr.join sep l +:+ sep +:+ t.
Proof.
  induction l as [|x [|y l] IH]; [done| |]; intros _.
  - done.
  - change ((x :: y :: l) ++ [t]) with (x :: y :: (l ++ [t])).
    rewrite !join_cons_cons.
    change (y :: l ++ [t]) with ((y :: l) ++ [t]). rewrite IH by done.
    by rewrite !string_app_assoc.
Qed.

Lemma last_token_snoc l t : PyStr.last_token (l ++ [t]) = t.
Proof. unfold PyStr.last_token. apply last_last. Qed.

Lemma but_last_snoc l (t : string) : PyStr.but_last (l ++ [t]) = l.
Proof. unfold PyStr.but_last. apply removelast_last. Qed.

(** X8: the base and the suffix an entity builder computes from its name
    are a decomposition of the name: for a name with a slash, base followed
    by suffix is the name again (a name without one has the empty base and
    its suffix is the name after a slash); and a name made of a base, a
    slash and a last token without slashes has that base and that token,
    after a slash, as its suffix. *)
Theorem name_base_and_suffix_decompose_the_name :
  (∀ n, Snapshot.name_base n +:+ Snapshot.name_suffix n
        = if PyStr.contains "/" n then n else "/" +:+ n)
  ∧ (∀ b t, PyStr.contains "/" t = false →
            Snapshot.name_base (b +:+ "/" +:+ t) = b
            ∧ Snapshot.name_suffix (b +:+ "/" +:+ t) = "/" +:+ t).
Proof.
  split.
  - intros n. unfold Snapshot.name_base, Snapshot.name_suffix,
      Snapshot.name_tokens.
    destruct (PyStr.contains "/" n) eqn:Hc.
    + destruct (split_contains "/"%char n Hc) as (l & t & Hs & Hl).
      pose proof (join_split "/"%char n) as Hj.
      rewrite Hs in Hj |- *. rewrite join_snoc in Hj by done.
      by rewrite last_token_snoc, but_last_snoc.
    + by rewrite (split_no_slash n Hc).
  - intros b t Ht. unfold Snapshot.name_base, Snapshot.name_suffix,
      Snapshot.name_tokens.
    change (b +:+ "/" +:+ t) with (b +:+ String "/"%char t).
    rewrite (split_app_last "/"%char b t Ht).
    rewrite last_token_snoc, but_last_snoc. split; [|done].
    apply (join_split "/"%char).
Qed.

End name_tokens_facts.

Section merger_names.
Import Merger.

(** X9: a topic named by an action name, a slash and a last token is part
    of a CHRIS action exactly when the action bank holds that action and
    the action has a topic under that token's suffix; the search appends
    its two DEBUG records to the log whatever the answer. *)
Theorem topic_is_part_of_action_iff (TYPE : string) (actions : action_bank)
    (base token : string) (lg : logger) :
  PyStr.contains "/" token = false →
  let r := topic_is_part_of_action TYPE actions (base +:+ "/" +:+ token) lg in
  (r.1 = true ↔ ∃ suffixes, actions !! base = Some suffixes
                            ∧ "/" +:+ token ∈ suffixes)
  ∧ ∃ m1 m2, r.2 = lg ++ [LogRecord DEBUG m1; LogRecord DEBUG m2].
Proof.
  intros Ht r. subst r. unfold topic_is_part_of_action.
  change (base +:+ "/" +:+ token) with (base +:+ String "/"%char token).
  rewrite (split_app_last "/"%char base token Ht).
  rewrite last_token_snoc, but_last_snoc, (join_split "/"%char base).
  cbn [fst snd]. split.
  - destruct (actions !! base) as [S|].
    + rewrite bool_decide_eq_true. split; [by exists S|].
      by intros (S' & [= <-] & ?).
    + split; [done|]. by intros (S' & [=] & ?).
  - unfold log. rewrite <- app_assoc. by eexists _, _.
Qed.

(** X10: the completeness test of a HAROS name, whether or not the name
    has a slash: the name is incomplete exactly when the final segment of
    the name stripped of surrounding white space is ["?"]. *)
Theorem incomplete_iff_stripped_final_segment (haros_name : string) :
  haros_name_is_complete haros_name = false
  ↔ final_segment (PyStr.strip haros_name) = "?".
Proof.
  unfold haros_name_is_complete, final_segment.
  destruct (PyStr.contains "/" haros_name) eqn:Hc.
  - rewrite bool_decide_eq_false. split; [apply dec_stable | by intros ? ?].
  - rewrite bool_decide_eq_false.
    rewrite (split_no_slash (PyStr.strip haros_name))
      by (by apply (strip_no_char "/"%char)).
    cbn. split; [apply dec_stable | by intros ? ?].
Qed.

End merger_names.

Lemma topic_is_part_of_action_iff_witness :
  let actions : Merger.action_bank :=
    {[ "/r/move" := {[ "/goal"; "/cancel"; "/feedback"; "/result"; "/status" ]} ]} in
  PyStr.contains "/" "goal" = false
  ∧ (Merger.topic_is_part_of_action "NODE" actions "/r/move/goal" []).1 = true.
Proof.
  intros actions. split; [reflexivity|].
  apply (proj1 (topic_is_part_of_action_iff "NODE" actions "/r/move" "goal" []
                  eq_refl)).
  exists {[ "/goal"; "/cancel"; "/feedback"; "/result"; "/status" ]}.
  split; [reflexivity | set_solver].
Defined.

(** ** The remodel loop: what it touches, creates and keeps *)

Section remodel_frame.
Import Merger.
Context {H B : Type} `{!Remodeler H B}.

Lemma store_frame (bs : banks) (bank_type : BankType) (n : string)
    (m : model B) :
  Forall2 (λ p p' : BankType * gmap string (model B),
             p'.1 = p.1 ∧ dom p.2 ⊆ dom p'.2
             ∧ ∀ k, k ≠ n → p'.2 !! k = p.2 !! k)
          bs (store bs bank_type n m).
Proof.
  unfold store. apply Forall2_fmap_r, Forall_Forall2_diag, Forall_forall.
  intros [bt bank] _. cbn. destruct (decide (bt = bank_type)); cbn.
  - split_and!; [done|rewrite dom_insert_L; set_solver|].
    intros k Hk. by rewrite lookup_insert_ne.
  - split_and!; done.
Qed.

Lemma remodel_step_cases actions (bs bs' : banks) (lg lg' : logger) h :
  remodel_step actions (bs, lg) h = Returns (bs', lg') →
  bs' = bs
  ∨ ∃ bank_type m,
      bs' = store bs bank_type (adjust_haros_name (haros_id h)) m.
Proof.
  unfold remodel_step.
  destruct (check_haros_name_is_complete _ _ _ _) as [[] lg1];
    [|intros [= <- <-]; by left].
  destruct (locate bs _) as [[bt m]|].
  - destruct (merge_haros_model_with_chris_model _ _ _ _ _ _) as [m1 lg2].
    intros [= <- <-]. right. by eexists _, _.
  - destruct (new_chris_model_bank_type _ _ _ _) as [[bt lg2]|]; [|done].
    cbn. destruct (bank_getitem bs bt _) as [m|]; [|done]. cbn.
    destruct (helper_populate_new_chris_model _ _ _ _ _ _) as [b lg3].
    intros [= <- <-]. right. by eexists _, _.
Qed.

(** X11: whatever the kind of remodeler, a run of [remodel] that returns
    has kept the banks and their order, has removed no entity, and has left
    every entity as it was whose name is not the (adjusted) name of one of
    the HAROS instances. *)
Theorem remodel_touches_only_named_entities (actions : action_bank)
    (hs : list H) (bs bs' : banks) (lg lg' : logger) :
  remodel actions (bs, lg) hs = Returns (bs', lg') →
  Forall2 (λ p p' : BankType * gmap string (model B),
             p'.1 = p.1 ∧ dom p.2 ⊆ dom p'.2
             ∧ ∀ k, k ∉ (λ h, adjust_haros_name (haros_id h)) <$> hs →
                    p'.2 !! k = p.2 !! k)
          bs bs'.
Proof.
  revert bs lg. induction hs as [|h hs IH]; intros bs lg Hr.
  - cbn in Hr. simplify_eq. apply Forall_Forall2_diag, Forall_forall. done.
  - cbn [remodel] in Hr.
    destruct (remodel_step actions (bs, lg) h) as [[bs1 lg1]|] eqn:Hstep;
      [|done].
    change (remodel actions (bs1, lg1) hs = Returns (bs', lg')) in Hr.
    apply IH in Hr.
    assert (Hfirst :
      Forall2 (λ p p' : BankType * gmap string (model B),
                 p'.1 = p.1 ∧ dom p.2 ⊆ dom p'.2
                 ∧ ∀ k, k ≠ adjust_haros_name (haros_id h) →
                        p'.2 !! k = p.2 !! k) bs bs1).
    { apply remodel_step_cases in Hstep as [->|(bt & m & ->)].
      - apply Forall_Forall2_diag, Forall_forall. done.
      - apply store_frame. }
    eapply Forall2_trans; [|exact Hfirst|exact Hr].
    intros p p1 p' (H1 & H2 & H3) (H4 & H5 & H6). split_and!.
    + congruence.
    + set_solver.
    + intros k Hk. cbn in Hk. rewrite H6 by set_solver. apply H3. set_solver.
Qed.

End remodel_frame.

Section topic_remodel.
Import Merger.

Lemma merge_links_spec h b (lg : logger) :
  ∃ (lg' : logger) flag,
    merge_haros_topic_links_with_chris_topic_nodes h b lg
    = (with_links h b, flag, lg')
    ∧ ∀ x, x ∈ lg → x ∈ lg'.
Proof.
  unfold merge_haros_topic_links_with_chris_topic_nodes.
  destruct (merge_names_fold "TOPIC" "Publisher" (ht_publishers h)
              (publisher_node_names b) false lg) as (lg1 & -> & Hlg1).
  destruct (merge_names_fold "TOPIC" "Subscriber" (ht_subscribers h)
              (subscriber_node_names b)
              (false || bool_decide (publisher_node_names b
                                     ∪ complete_names (ht_publishers h)
                                     ≠ publisher_node_names b)) lg1)
    as (lg2 & -> & Hlg2).
  eexists _, _. split; [reflexivity|]. naive_solver.
Qed.

Lemma topic_remodel_step_creates (actions : action_bank)
    (bank : gmap string (model TopicBody)) (lg : logger) (h : HarosTopic) :
  haros_name_is_complete (ht_id h) = true →
  bank !! ht_id h = None →
  ∃ lg',
    remodel_step actions ([(TOPIC, bank)], lg) h
    = Returns ([(TOPIC,
                 <[ht_id h :=
                     Model (ht_id h) (SrcStr REMODELER_SOURCE_NAME) 0
                       {| construct_type := Some (ht_type h);
                          publisher_node_names :=
                            complete_names (ht_publishers h);
                          subscriber_node_names :=
                            complete_names (ht_subscribers h) |}]> bank)],
               lg')
    ∧ (∀ x, x ∈ lg → x ∈ lg')
    ∧ LogRecord ERROR ("[TOPIC] Could not find CHRIS Instance for "
                       +:+ dq +:+ ht_id h +:+ dq +:+ ".") ∈ lg'.
Proof.
  intros Hc Hnone. unfold remodel_step.
  change (adjust_haros_name (haros_id h)) with (ht_id h).
  rewrite check_complete by done.
  cbn [locate]. rewrite Hnone.
  cbn [new_chris_model_bank_type TopicRemodeler base_new_chris_model_bank_type
       fmap list_fmap fst mbind result_bind].
  unfold bank_getitem. cbn [list_find fst snd]. rewrite decide_True by done.
  cbn [fmap option_fmap option_map mbind result_bind].
  rewrite Hnone. cbn [default body with_body new_body TopicRemodeler].
  cbn [helper_populate_new_chris_model TopicRemodeler].
  unfold topic_helper_populate. cbn [publisher_node_names subscriber_node_names].
  match goal with
  | |- context [merge_haros_topic_links_with_chris_topic_nodes h ?b ?l] =>
      destruct (merge_links_spec h b l) as (lg' & flag & -> & Hlg)
  end.
  exists lg'. split_and!.
  - unfold store. cbn [fmap list_fmap]. rewrite decide_True by done.
    unfold initialize_chris_model_version, with_body, with_links. cbn.
    by rewrite !(left_id_L ∅ (∪)).
  - intros x Hx. apply Hlg. unfold log. rewrite !elem_of_app. tauto.
  - apply Hlg. unfold log. rewrite !elem_of_app. left. left. right.
    apply list_elem_of_here.
Qed.

(** X12: a HAROS topic with a complete name that the CHRIS topic bank does
    not hold is created there: version 0, the merger as its source, the
    type HAROS gives, and the complete HAROS publisher and subscriber node
    names; the other entities are as they were, and the log records, among
    others, that the instance was not found. *)
Theorem topic_remodel_creates_missing_entity (actions : action_bank)
    (bank : gmap string (model TopicBody)) (lg : logger) (h : HarosTopic) :
  haros_name_is_complete (ht_id h) = true →
  bank !! ht_id h = None →
  ∃ lg',
    remodel_step actions ([(TOPIC, bank)], lg) h
    = Returns ([(TOPIC,
                 <[ht_id h :=
                     Model (ht_id h) (SrcStr REMODELER_SOURCE_NAME) 0
                       {| construct_type := Some (ht_type h);
                          publisher_node_names :=
                            complete_names (ht_publishers h);
                          subscriber_node_names :=
                            complete_names (ht_subscribers h) |}]> bank)],
               lg')
    ∧ (∀ x, x ∈ lg → x ∈ lg')
    ∧ LogRecord ERROR ("[TOPIC] Could not find CHRIS Instance for "
                       +:+ dq +:+ ht_id h +:+ dq +:+ ".") ∈ lg'.
Proof. apply topic_remodel_step_creates. Qed.

Lemma topic_remodel_step_grows actions
    (bank : gmap string (model TopicBody)) (lg : logger) (h : HarosTopic) :
  ∃ bank' lg',
    remodel_step actions ([(TOPIC, bank)], lg) h
    = Returns ([(TOPIC, bank')], lg')
    ∧ ∀ n m, bank !! n = Some m →
        ∃ m', bank' !! n = Some m'
          ∧ name m' = name m
          ∧ construct_type (body m') = construct_type (body m)
          ∧ publisher_node_names (body m) ⊆ publisher_node_names (body m')
          ∧ subscriber_node_names (body m) ⊆ subscriber_node_names (body m')
          ∧ (version m ≤ version m')%Z.
Proof.
  assert (Hrefl : ∀ n m, bank !! n = Some m →
            ∃ m', bank !! n = Some m'
              ∧ name m' = name m
              ∧ construct_type (body m') = construct_type (body m)
              ∧ publisher_node_names (body m) ⊆ publisher_node_names (body m')
              ∧ subscriber_node_names (body m) ⊆ subscriber_node_names (body m')
              ∧ (version m ≤ version m')%Z).
  { intros n m Hn. exists m. split_and!; done. }
  destruct (haros_name_is_complete (ht_id h)) eqn:Hc.
  - destruct (bank !! ht_id h) as [m0|] eqn:Hid.
    + unfold remodel_step.
      change (adjust_haros_name (haros_id h)) with (ht_id h).
      rewrite check_complete by done. cbn [locate]. rewrite Hid.
      unfold merge_haros_model_with_chris_model.
      cbn [helper_merge_haros_model_with_chris_model TopicRemodeler].
      match goal with
      | |- context [topic_helper_merge actions TOPIC h ?b ?l] =>
          destruct (topic_helper_merge_spec actions TOPIC h b l)
            as (lg' & -> & _)
      end.
      destruct (update_chris_model_version TYPE
                  (with_body m0 (with_links h (body m0)))
                  (bool_decide (with_links h (body m0) ≠ body m0)) lg')
        as [m1 lg1] eqn:Hupd.
      eexists _, lg1. split.
      { unfold store. cbn [fmap list_fmap]. rewrite decide_True by done.
        reflexivity. }
      intros n m Hn. destruct (decide (n = ht_id h)) as [->|Hne].
      * rewrite lookup_insert_eq. exists m1. split; [done|].
        assert (m = m0) as -> by congruence.
        unfold update_chris_model_version in Hupd.
        assert (Hm1 : name m1 = name m0 ∧ body m1 = with_links h (body m0)
                      ∧ (version m0 ≤ version m1)%Z).
        { destruct (bool_decide _); [destruct (source _)|];
            injection Hupd as <- _;
            cbn [name body version with_body]; split_and!; (done || lia). }
        destruct Hm1 as (Hname & Hbody & Hver). rewrite Hbody.
        unfold with_links.
        cbn [construct_type publisher_node_names subscriber_node_names].
        split_and!; [done|done| | |done];
          apply union_subseteq_l.
      * rewrite lookup_insert_ne by done. by apply Hrefl.
    + destruct (topic_remodel_step_creates actions bank lg h Hc Hid)
        as (lg' & -> & _).
      eexists _, lg'. split; [reflexivity|].
      intros n m Hn. rewrite lookup_insert_ne by congruence. by apply Hrefl.
  - unfold remodel_step.
    change (adjust_haros_name (haros_id h)) with (ht_id h).
    rewrite check_incomplete by done.
    eexists _, _. split; [reflexivity|]. done.
Qed.

(** X13: the topic remodeler never fails and never takes anything away:
    [remodel] returns for every list of HAROS topics, and every entity the
    topic bank held is still there under its name, with its type, with at
    least the publisher and subscriber nodes it had, and with a version
    that did not decrease. *)
Theorem topic_remodel_returns_and_only_adds (actions : action_bank)
    (hs : list HarosTopic) (bank : gmap string (model TopicBody))
    (lg : logger) :
  ∃ bank' lg',
    remodel actions ([(TOPIC, bank)], lg) hs = Returns ([(TOPIC, bank')], lg')
    ∧ ∀ n m, bank !! n = Some m →
        ∃ m', bank' !! n = Some m'
          ∧ name m' = name m
          ∧ construct_type (body m') = construct_type (body m)
          ∧ publisher_node_names (body m) ⊆ publisher_node_names (body m')
          ∧ subscriber_node_names (body m) ⊆ subscriber_node_names (body m')
          ∧ (version m ≤ version m')%Z.
Proof.
  revert bank lg. induction hs as [|h hs IH]; intros bank lg.
  - exists bank, lg. split; [done|]. intros n m Hn. exists m.
    split_and!; done.
  - destruct (topic_remodel_step_grows actions bank lg h)
      as (bank1 & lg1 & Hstep & H1).
    destruct (IH bank1 lg1) as (bank' & lg' & Hrest & H2).
    exists bank', lg'. split.
    + cbn [remodel]. rewrite Hstep. exact Hrest.
    + intros n m Hn.
      destruct (H1 n m Hn) as (m1 & Hn1 & Ha & Hb & Hc & Hd & He).
      destruct (H2 n m1 Hn1) as (m' & Hn' & Ha' & Hb' & Hc' & Hd' & He').
      clear Hstep Hrest IH H1 H2.
      exists m'. split_and!.
      * done.
      * by rewrite Ha', Ha.
      * by rewrite Hb', Hb.
      * by etrans.
      * by etrans.
      * lia.
Qed.

End topic_remodel.

Section node_remodel.
Import Merger.

(** X14: a HAROS node with a complete name that none of the three node
    banks holds is created in the nodelet bank when HAROS names a nodelet
    class for it and in the node bank otherwise, never in the nodelet
    manager bank; the new entity has version 0, the merger as its source,
    the HAROS node name and command line, and a client-service dictionary
    (possibly empty). *)
Theorem node_remodel_creates_in_node_or_nodelet_bank (actions : action_bank)
    (nodes nodelets managers : gmap string (model NodeBody)) (lg : logger)
    (h : HarosNode) :
  haros_name_is_complete (hn_id h) = true →
  nodes !! hn_id h = None →
  nodelets !! hn_id h = None →
  managers !! hn_id h = None →
  ∃ m lg',
    remodel_step actions
      ([(NODE, nodes); (NODELET, nodelets); (NODELET_MANAGER, managers)], lg) h
    = Returns
        (if str_truthy (hn_nodelet_class h)
         then [(NODE, nodes); (NODELET, <[hn_id h := m]> nodelets);
               (NODELET_MANAGER, managers)]
         else [(NODE, <[hn_id h := m]> nodes); (NODELET, nodelets);
               (NODELET_MANAGER, managers)], lg')
    ∧ name m = hn_id h ∧ version m = 0%Z
    ∧ source m = SrcStr REMODELER_SOURCE_NAME
    ∧ node (body m) = Some (hn_node_name h)
    ∧ cmdline (body m) = hn_argv h
    ∧ is_Some (client_services (body m)).
Proof.
  intros Hc H1 H2 H3. unfold remodel_step.
  change (adjust_haros_name (haros_id h)) with (hn_id h).
  rewrite check_complete by done.
  cbn [locate]. rewrite H1, H2, H3.
  cbn [new_chris_model_bank_type NodeRemodeler].
  unfold node_new_chris_model_bank_type.
  assert (Hget : ∀ bt, bt = NODE ∨ bt = NODELET →
            bank_getitem
              [(NODE, nodes); (NODELET, nodelets); (NODELET_MANAGER, managers)]
              bt (hn_id h)
            = Returns (Model (hn_id h) SrcNone 0 (new_body bt))).
  { intros bt [-> | ->]; unfold bank_getitem; cbn [list_find fst snd].
    - rewrite decide_True by done. cbn. by rewrite H1.
    - rewrite decide_False by done. rewrite decide_True by done.
      cbn. by rewrite H2. }
  assert (Hpop : ∀ bt n b l,
            node (node_helper_populate actions bt n h b l).1
            = Some (hn_node_name h)
            ∧ cmdline (node_helper_populate actions bt n h b l).1 = hn_argv h
            ∧ is_Some (client_services
                         (node_helper_populate actions bt n h b l).1)).
  { intros bt n b l. unfold node_helper_populate.
    repeat match goal with
           | |- context [match ?x with _ => _ end] => destruct x eqn:?
           end; cbn [fst node cmdline client_services]; split_and!; done. }
  destruct (str_truthy (hn_nodelet_class h)); cbn [mbind result_bind].
  - rewrite (Hget NODELET) by (by right). cbn [mbind result_bind].
    cbn [helper_populate_new_chris_model NodeRemodeler body with_body].
    match goal with
    | |- context [node_helper_populate ?a ?bt ?n ?hh ?b ?l] =>
        destruct (Hpop bt n b l) as (Hn & Hcmd & Hcl);
        destruct (node_helper_populate a bt n hh b l) as [b' lg']
    end.
    eexists _, lg'. split.
    + unfold store. cbn [fmap list_fmap].
      rewrite decide_False by done. rewrite decide_True by done.
      rewrite decide_False by done. reflexivity.
    + cbn [fst] in Hn, Hcmd, Hcl.
      cbn [name version source body initialize_chris_model_version with_body].
      split_and!; done.
  - rewrite (Hget NODE) by (by left). cbn [mbind result_bind].
    cbn [helper_populate_new_chris_model NodeRemodeler body with_body].
    match goal with
    | |- context [node_helper_populate ?a ?bt ?n ?hh ?b ?l] =>
        destruct (Hpop bt n b l) as (Hn & Hcmd & Hcl);
        destruct (node_helper_populate a bt n hh b l) as [b' lg']
    end.
    eexists _, lg'. split.
    + unfold store. cbn [fmap list_fmap].
      rewrite decide_True by done. rewrite !decide_False by done.
      reflexivity.
    + cbn [fst] in Hn, Hcmd, Hcl.
      cbn [name version source body initialize_chris_model_version with_body].
      split_and!; done.
Qed.

End node_remodel.

Lemma remodel_touches_only_named_entities_witness :
  let bs : @Merger.banks Merger.TopicBody :=
    [(Merger.TOPIC, {[ "/chatter" := Merger.snapshot_chatter;
                       "/scan" := Merger.fresh_chatter ]})] in
  let hs := [Merger.haros_chatter_other_type; Merger.haros_placeholder] in
  ∃ bs' lg',
    Merger.remodel ∅ (bs, []) hs = Returns (bs', lg')
    ∧ Forall2 (λ p p' : Merger.BankType * gmap string (Merger.model Merger.TopicBody),
                 p'.1 = p.1 ∧ dom p.2 ⊆ dom p'.2
                 ∧ ∀ k, k ∉ (λ h, Merger.adjust_haros_name (Merger.haros_id h)) <$> hs →
                        p'.2 !! k = p.2 !! k)
              bs bs'.
Proof.
  intros bs hs.
  destruct (Merger.remodel ∅ (bs, []) hs) as [[bs' lg']|] eqn:Hrun;
    [|by vm_compute in Hrun].
  exists bs', lg'. split; [done|].
  exact (remodel_touches_only_named_entities ∅ hs bs bs' [] lg' Hrun).
Defined.

Lemma topic_remodel_creates_missing_entity_witness :
  let bank : gmap string (Merger.model Merger.TopicBody) :=
    {[ "/scan" := Merger.fresh_chatter ]} in
  (Merger.haros_name_is_complete (Merger.ht_id Merger.haros_chatter) = true
   ∧ bank !! Merger.ht_id Merger.haros_chatter = None)
  ∧ ∃ lg',
      Merger.remodel_step ∅ ([(Merger.TOPIC, bank)], []) Merger.haros_chatter
      = Returns ([(Merger.TOPIC,
                   <["/chatter" :=
                       Merger.Model "/chatter"
                         (Merger.SrcStr "haros_chris_model_merger") 0
                         {| Merger.construct_type := Some "std_msgs/String";
                            Merger.publisher_node_names :=
                              Merger.complete_names ["/talker"];
                            Merger.subscriber_node_names :=
                              Merger.complete_names [] |}]> bank)], lg').
Proof.
  intros bank. split; [split; reflexivity|].
  destruct (topic_remodel_creates_missing_entity ∅ bank [] Merger.haros_chatter
              eq_refl eq_refl) as (lg' & Hrun & _).
  exists lg'. exact Hrun.
Defined.

Lemma node_remodel_creates_in_node_or_nodelet_bank_witness :
  (Merger.haros_name_is_complete (Merger.hn_id Merger.haros_talker) = true
   ∧ (∅ : gmap string (Merger.model Merger.NodeBody))
       !! Merger.hn_id Merger.haros_talker = None)
  ∧ ∃ m lg',
      Merger.remodel_step ∅
        ([(Merger.NODE, ∅); (Merger.NODELET, ∅); (Merger.NODELET_MANAGER, ∅)],
         []) Merger.haros_talker
      = Returns ([(Merger.NODE, {[ "/talker" := m ]}); (Merger.NODELET, ∅);
                  (Merger.NODELET_MANAGER, ∅)], lg')
      ∧ Merger.version m = 0%Z
      ∧ Merger.node (Merger.body m) = Some "demo/talker".
Proof.
  split; [split; reflexivity|].
  destruct (node_remodel_creates_in_node_or_nodelet_bank ∅ ∅ ∅ ∅ []
              Merger.haros_talker eq_refl (lookup_empty _) (lookup_empty _)
              (lookup_empty _))
    as (m & lg' & Hrun & _ & Hv & _ & Hn & _).
  exists m, lg'. split_and!; [exact Hrun | exact Hv | exact Hn].
Defined.

(** ** The topic bank: types and lazy creation of builders *)

Section topic_bank_lookup.
Import Snapshot.

Lemma find_topic_type_app types types' desired :
  find_topic_type (types ++ types') desired
  = foldl (λ obtained '(topic, topic_type),
             if bool_decide (topic = desired) then topic_type else obtained)
          (find_topic_type types desired) types'.
Proof. unfold find_topic_type. by rewrite foldl_app. Qed.

Lemma find_topic_type_absent (types : list (string * string)) desired acc :
  desired ∉ types.*1 →
  foldl (λ obtained '(topic, topic_type),
           if bool_decide (topic = desired) then topic_type else obtained)
        acc types = acc.
Proof.
  revert acc. induction types as [|[t ty] types IH]; intros acc Hn; [done|].
  cbn [foldl]. cbn in Hn. apply not_elem_of_cons in Hn as [Hne Hn].
  rewrite bool_decide_eq_false_2 by done. by apply IH.
Qed.

(** X15: the type found for a topic is the one of the last pair of the
    master's list that names the topic, and ["Error: Unknown"] when no pair
    names it. *)
Theorem find_topic_type_last_match (types : list (string * string))
    (desired : string) :
  (desired ∉ types.*1 → find_topic_type types desired = "Error: Unknown")
  ∧ (∀ pre ty post,
       types = pre ++ (desired, ty) :: post → desired ∉ post.*1 →
       find_topic_type types desired = ty).
Proof.
  split.
  - intros Hn. unfold find_topic_type. by apply find_topic_type_absent.
  - intros pre ty post -> Hn. rewrite find_topic_type_app. cbn [foldl].
    rewrite bool_decide_eq_true_2 by done. by apply find_topic_type_absent.
Qed.

(** X16: looking a name up in the topic bank creates its builder on the
    first lookup only: after a lookup the bank holds the returned builder
    under the name, a second lookup returns the same builder and leaves the
    bank as it is, and no other name is touched; a builder that is created
    has the name, the type [_find_topic_type] gives and no node names. *)
Theorem getitem_creates_once (bank : TopicBankBuilder) (name : string) :
  let r := getitem bank name in
  names_to_entity_builders r.1 !! name = Some r.2
  ∧ getitem r.1 name = r
  ∧ (∀ k, k ≠ name →
          names_to_entity_builders r.1 !! k
          = names_to_entity_builders bank !! k)
  ∧ topic_types r.1 = topic_types bank
  ∧ (∀ b, names_to_entity_builders bank !! name = Some b → r = (bank, b))
  ∧ (names_to_entity_builders bank !! name = None →
     r.2 = {| tb_name := name;
              tb_construct_type :=
                Some (find_topic_type (topic_types bank) name);
              tb_published := ∅; tb_subscribed := ∅ |}).
Proof.
  intros r. subst r. unfold getitem.
  destruct (names_to_entity_builders bank !! name) as [b|] eqn:Hb.
  - cbn [fst snd]. rewrite Hb. split_and!; try done.
    intros b' [= ->]. done.
  - cbn [fst snd with_builders names_to_entity_builders topic_types
         create_entity_builder set_construct_type TopicBuilder_init tb_name].
    rewrite lookup_insert_eq. split_and!; try done.
    intros k Hk. by rewrite lookup_insert_ne.
Qed.

End topic_bank_lookup.

(** ** The construct type of an action *)

Section action_construct_type.
Import Snapshot.
Context `{Filters}.

Lemma string_length_app (p s : string) :
  String.length (p +:+ s) = String.length p + String.length s.
Proof.
  induction p as [|a p IH]; [done|].
  change (String a p +:+ s) with (String a (p +:+ s)). cbn. by rewrite IH.
Qed.

Lemma endswith_app s suf :
  PyStr.endswith s suf = true → ∃ p, s = p +:+ suf.
Proof.
  induction s as [|a s IH]; cbn [PyStr.endswith].
  - destruct (String.eqb "" suf) eqn:He; [|done].
    apply String.eqb_eq in He as <-. by exists "".
  - destruct (String.eqb (String a s) suf) eqn:He.
    + apply String.eqb_eq in He as <-. by exists "".
    + intros (p & ->)%IH. by exists (String a p).
Qed.

Lemma substring_app_prefix (p s : string) :
  String.substring 0 (String.length p) (p +:+ s) = p.
Proof.
  induction p as [|a p IH]; [by destruct s|].
  change (String a p +:+ s) with (String a (p +:+ s)). cbn. by rewrite IH.
Qed.

Lemma drop_last_app (p suf : string) :
  suf ≠ "" → PyStr.drop_last (String.length suf) (p +:+ suf) = p.
Proof.
  intros Hne. unfold PyStr.drop_last.
  destruct (String.length suf) as [|n] eqn:Hlen; [by destruct suf|].
  rewrite string_length_app, Hlen.
  replace (String.length p + S n - S n) with (String.length p) by lia.
  apply substring_app_prefix.
Qed.

Lemma endswith_drop_last ty tok :
  PyStr.endswith ty (action_type_token tok) = true →
  ty = PyStr.drop_last (String.length (action_type_token tok)) ty
       +:+ action_type_token tok.
Proof.
  intros (p & ->)%endswith_app. by rewrite drop_last_app.
Qed.

Lemma extract_type_loop_returns name sufs core acc r :
  extract_type_loop name sufs core acc = Returns r →
  (∀ c, acc = Some c → r = Some c)
  ∧ (core ≠ [] → is_Some r)
  ∧ ∀ c, r = Some c →
      ∀ suf tok, (suf, tok) ∈ core →
        ∃ tb, sufs !! suf = Some tb
              ∧ tb_construct_type tb = Some (c +:+ action_type_token tok).
Proof.
  revert acc. induction core as [|[suf tok] core IH]; intros acc Hr.
  - cbn in Hr. injection Hr as <-. split_and!; [done|done|].
    intros c _ suf tok Hin. by apply elem_of_nil in Hin.
  - cbn [extract_type_loop] in Hr.
    destruct (sufs !! suf) as [tb|] eqn:Hsuf; [|done].
    destruct (tb_construct_type tb) as [ty|] eqn:Hty; [|done].
    destruct (PyStr.endswith ty (action_type_token tok)) eqn:Hend; [|done].
    cbn [negb] in Hr. apply endswith_drop_last in Hend.
    set (prefix := PyStr.drop_last (String.length (action_type_token tok)) ty)
      in *.
    assert (Hgoal : ∀ c, extract_type_loop name sufs core (Some c) = Returns r →
              c = prefix →
              r = Some c
              ∧ ∀ c', r = Some c' →
                  ∀ suf' tok', (suf', tok') ∈ (suf, tok) :: core →
                    ∃ tb', sufs !! suf' = Some tb'
                      ∧ tb_construct_type tb'
                        = Some (c' +:+ action_type_token tok')).
    { intros c Hc ->. apply IH in Hc as (Hacc & _ & Hall).
      split; [by apply Hacc|].
      intros c' Hc' suf' tok' [[= -> ->]|Hin]%elem_of_cons.
      - exists tb. split; [done|].
        rewrite (Hacc prefix eq_refl) in Hc'. injection Hc' as <-.
        by rewrite Hty, Hend at 1.
      - by apply Hall. }
    destruct acc as [ct|].
    + case_bool_decide as Hct; [done|].
      destruct (Hgoal ct Hr Hct) as [Hr' Hall].
      split_and!; [by intros c [= <-] | by rewrite Hr' | done].
    + destruct (Hgoal prefix Hr eq_refl) as [Hr' Hall].
      split_and!; [done | by rewrite Hr' | done].
Qed.

(** X17: when the construct type of an action is extracted and the
    extraction returns, it returns a type, and that type is the common
    prefix of the types of the three core topics: the action holds a topic
    under each of [/feedback], [/goal] and [/result], typed by that prefix
    followed by [ActionFeedback], [ActionGoal] and [ActionResult]. *)
Theorem action_construct_type_is_common_prefix (a : ActionBuilder)
    (r : option string) :
  ab_construct_type a = None →
  construct_type a = Returns r →
  ∃ c, r = Some c
       ∧ ∀ suf tok, (suf, tok) ∈ CORE_TOPIC_SUFFIXES_TO_TYPE_TOKENS →
           ∃ tb, topic_name_suffixes_to_builders a !! suf = Some tb
                 ∧ tb_construct_type tb = Some (c +:+ "Action" +:+ tok).
Proof.
  intros Hnone Hr. unfold construct_type in Hr. rewrite Hnone in Hr.
  unfold extract_action_construct_type in Hr. rewrite Hnone in Hr.
  apply extract_type_loop_returns in Hr as (_ & Hsome & Hall).
  destruct Hsome as [c ->]; [done|]. exists c. split; [done|].
  intros suf tok Hin. by apply Hall.
Qed.

Lemma validate_core_loop_true sufs core :
  validate_core_loop sufs core = Returns true →
  ∀ suf tok, (suf, tok) ∈ core →
    ∃ tb ty, sufs !! suf = Some tb ∧ tb_construct_type tb = Some ty
             ∧ PyStr.endswith ty (action_type_token tok) = true.
Proof.
  induction core as [|[suf tok] core IH]; intros Hv suf' tok' Hin.
  - by apply elem_of_nil in Hin.
  - cbn [validate_core_loop] in Hv.
    destruct (sufs !! suf) as [tb|] eqn:Hsuf; [|done].
    destruct (tb_construct_type tb) as [ty|] eqn:Hty; [|done].
    destruct (PyStr.endswith ty (action_type_token tok)) eqn:Hend; [|done].
    apply elem_of_cons in Hin as [[= -> ->]|Hin]; [by exists tb, ty|].
    by apply IH.
Qed.

Lemma extract_type_loop_validated name sufs core acc :
  (∀ suf tok, (suf, tok) ∈ core →
     ∃ tb ty, sufs !! suf = Some tb ∧ tb_construct_type tb = Some ty
              ∧ PyStr.endswith ty (action_type_token tok) = true) →
  (∃ r, extract_type_loop name sufs core acc = Returns r)
  ∨ (∃ ct p suf tok tb,
       ct ≠ p
       ∧ (suf, tok) ∈ core ∧ sufs !! suf = Some tb
       ∧ tb_construct_type tb = Some (p +:+ action_type_token tok)
       ∧ (acc = Some ct
          ∨ ∃ suf0 tok0 tb0,
              (suf0, tok0) ∈ core ∧ sufs !! suf0 = Some tb0
              ∧ tb_construct_type tb0 = Some (ct +:+ action_type_token tok0))
       ∧ extract_type_loop name sufs core acc
         = Raises (ValueError
             (" ActionBuilder: Invalid construct type " +:+ ct
                +:+ " for " +:+ name +:+ " - conflicts with "
                +:+ (p +:+ action_type_token tok)))).
Proof.
  revert acc. induction core as [|[suf tok] core IH]; intros acc Hall.
  - left. by eexists.
  - cbn [extract_type_loop].
    destruct (Hall suf tok) as (tb & ty & Hsuf & Hty & Hend); [by left|].
    rewrite Hsuf, Hty, Hend. cbn [negb].
    pose proof (endswith_drop_last ty tok Hend) as Hsplit.
    set (prefix := PyStr.drop_last (String.length (action_type_token tok)) ty)
      in *.
    assert (Hrest : ∀ suf' tok', (suf', tok') ∈ core →
              ∃ tb ty, sufs !! suf' = Some tb ∧ tb_construct_type tb = Some ty
                       ∧ PyStr.endswith ty (action_type_token tok') = true).
    { intros suf' tok' Hin. apply Hall. by right. }
    assert (Hstep : ∀ c,
              (acc = Some c
               ∨ ∃ suf0 tok0 tb0,
                   (suf0, tok0) ∈ (suf, tok) :: core ∧ sufs !! suf0 = Some tb0
                   ∧ tb_construct_type tb0
                     = Some (c +:+ action_type_token tok0)) →
              (∃ r, extract_type_loop name sufs core (Some c) = Returns r)
              ∨ (∃ ct p suf1 tok1 tb1,
                   ct ≠ p
                   ∧ (suf1, tok1) ∈ (suf, tok) :: core ∧ sufs !! suf1 = Some tb1
                   ∧ tb_construct_type tb1
                     = Some (p +:+ action_type_token tok1)
                   ∧ (acc = Some ct
                      ∨ ∃ suf0 tok0 tb0,
                          (suf0, tok0) ∈ (suf, tok) :: core
                          ∧ sufs !! suf0 = Some tb0
                          ∧ tb_construct_type tb0
                            = Some (ct +:+ action_type_token tok0))
                   ∧ extract_type_loop name sufs core (Some c)
                     = Raises (ValueError
                         (" ActionBuilder: Invalid construct type " +:+ ct
                            +:+ " for " +:+ name +:+ " - conflicts with "
                            +:+ (p +:+ action_type_token tok1))))).
    { intros c Hc. destruct (IH (Some c) Hrest) as [Hret|Hraise]; [by left|].
      right.
      destruct Hraise as (ct & p & suf1 & tok1 & tb1 & Hne & Hin & Hs1 & Ht1
                          & Hfrom & Hrun).
      exists ct, p, suf1, tok1, tb1.
      split_and!; [done|by right|done|done| |done].
      destruct Hfrom as [[= ->]|(suf0 & tok0 & tb0 & Hin0 & Hs0 & Ht0)];
        [done|].
      right. exists suf0, tok0, tb0. split_and!; [by right|done..]. }
    destruct acc as [ct|].
    + case_bool_decide as Hct.
      * right. exists ct, prefix, suf, tok, tb.
        split_and!; [done|by left|done| |by left|].
        -- by rewrite Hty, Hsplit at 1.
        -- by rewrite <- Hsplit.
      * apply Hstep. by left.
    + apply Hstep. right. exists suf, tok, tb.
      split_and!; [by left|done|]. by rewrite Hty, Hsplit at 1.
Qed.

(** X18: once the core topics of an action have passed the type check of
    the validation, extracting the construct type of the action can fail in
    one way only: the [ValueError] that reports conflicting types.  Then
    two core topics of the action have types with different prefixes
    before their [Action] token, and the message names the prefix of the
    one and the type of the other.  Otherwise the extraction returns. *)
Theorem validated_action_type_extraction (a : ActionBuilder) :
  validate_core_topic_builders_have_required_types
    (topic_name_suffixes_to_builders a) = Returns true →
  (∃ r, construct_type a = Returns r)
  ∨ (∃ ct p suf tok tb suf0 tok0 tb0,
       ct ≠ p
       ∧ (suf0, tok0) ∈ CORE_TOPIC_SUFFIXES_TO_TYPE_TOKENS
       ∧ topic_name_suffixes_to_builders a !! suf0 = Some tb0
       ∧ tb_construct_type tb0 = Some (ct +:+ "Action" +:+ tok0)
       ∧ (suf, tok) ∈ CORE_TOPIC_SUFFIXES_TO_TYPE_TOKENS
       ∧ topic_name_suffixes_to_builders a !! suf = Some tb
       ∧ tb_construct_type tb = Some (p +:+ "Action" +:+ tok)
       ∧ construct_type a
         = Raises (ValueError
             (" ActionBuilder: Invalid construct type " +:+ ct
                +:+ " for " +:+ ab_name a +:+ " - conflicts with "
                +:+ (p +:+ "Action" +:+ tok)))).
Proof.
  intros Hv. unfold construct_type.
  destruct (ab_construct_type a) as [ct|] eqn:Hct; [left; by eexists|].
  unfold extract_action_construct_type. rewrite Hct.
  destruct (extract_type_loop_validated (ab_name a)
              (topic_name_suffixes_to_builders a)
              CORE_TOPIC_SUFFIXES_TO_TYPE_TOKENS None
              (validate_core_loop_true _ _ Hv))
    as [Hret|(ct & p & suf & tok & tb & Hne & Hin & Hs & Ht & Hfrom & Hrun)];
    [by left|].
  destruct Hfrom as [[=]|(suf0 & tok0 & tb0 & Hin0 & Hs0 & Ht0)].
  right. exists ct, p, suf, tok, tb, suf0, tok0, tb0.
  split_and!; done.
Qed.

End action_construct_type.

Lemma action_construct_type_is_common_prefix_witness :
  let a := Snapshot.move_action_builder "pkg/MoveActionResult"
             (λ _, ∅) (λ _, ∅) in
  (Snapshot.ab_construct_type a = None
   ∧ Snapshot.construct_type a = Returns (Some "pkg/Move"))
  ∧ ∃ c, Some "pkg/Move" = Some c
         ∧ ∀ suf tok,
             (suf, tok) ∈ Snapshot.CORE_TOPIC_SUFFIXES_TO_TYPE_TOKENS →
             ∃ tb, Snapshot.topic_name_suffixes_to_builders a !! suf = Some tb
                   ∧ Snapshot.tb_construct_type tb
                     = Some (c +:+ "Action" +:+ tok).
Proof.
  intros a.
  assert (Hrun : Snapshot.construct_type a = Returns (Some "pkg/Move"))
    by (vm_compute; reflexivity).
  split; [split; [reflexivity | exact Hrun] |].
  exact (action_construct_type_is_common_prefix a (Some "pkg/Move")
           eq_refl Hrun).
Defined.

Lemma validated_action_type_extraction_witness :
  let a := Snapshot.move_action_builder "other/MoveActionResult"
             (λ _, ∅) (λ _, ∅) in
  Snapshot.validate_core_topic_builders_have_required_types
    (Snapshot.topic_name_suffixes_to_builders a) = Returns true
  ∧ ((∃ r, Snapshot.construct_type a = Returns r)
     ∨ (∃ ct p suf tok tb suf0 tok0 tb0,
          ct ≠ p
          ∧ (suf0, tok0) ∈ Snapshot.CORE_TOPIC_SUFFIXES_TO_TYPE_TOKENS
          ∧ Snapshot.topic_name_suffixes_to_builders a !! suf0 = Some tb0
          ∧ Snapshot.tb_construct_type tb0 = Some (ct +:+ "Action" +:+ tok0)
          ∧ (suf, tok) ∈ Snapshot.CORE_TOPIC_SUFFIXES_TO_TYPE_TOKENS
          ∧ Snapshot.topic_name_suffixes_to_builders a !! suf = Some tb
          ∧ Snapshot.tb_construct_type tb = Some (p +:+ "Action" +:+ tok)
          ∧ Snapshot.construct_type a
            = Raises (ValueError
                (" ActionBuilder: Invalid construct type " +:+ ct
                   +:+ " for " +:+ Snapshot.ab_name a +:+ " - conflicts with "
                   +:+ (p +:+ "Action" +:+ tok))))).
Proof.
  intros a.
  assert (Hv : Snapshot.validate_core_topic_builders_have_required_types
                 (Snapshot.topic_name_suffixes_to_builders a) = Returns true)
    by (vm_compute; reflexivity).
  split; [exact Hv|].
  exact (validated_action_type_extraction a Hv).
Defined.

(** ** Promotion of topic clusters to actions, in general *)

Section promotion_partition.
Import Snapshot.

Lemma remove_action_topic_builders_spec (t : gmap string TopicBuilder)
    (l : list TopicBuilder) :
  NoDup (tb_name <$> l) →
  (∀ tb, tb ∈ l → is_Some (t !! tb_name tb)) →
  ∃ t', remove_action_topic_builders t l = Returns t'
        ∧ ∀ k, t' !! k = if bool_decide (k ∈ tb_name <$> l) then None
                         else t !! k.
Proof.
  revert t. induction l as [|tb l IH]; intros t Hnd Hin.
  - exists t. split; [done|]. intros k.
    rewrite bool_decide_eq_false_2; [done|]. cbn. apply not_elem_of_nil.
  - cbn [fmap list_fmap] in Hnd. apply NoDup_cons in Hnd as [Hfresh Hnd].
    cbn [remove_action_topic_builders].
    destruct (Hin tb) as [x Hx]; [by left|]. rewrite Hx.
    destruct (IH (delete (tb_name tb) t) Hnd) as (t' & -> & Ht').
    { intros tb' Hin'. rewrite lookup_delete_ne.
      - apply Hin. by right.
      - intros Heq. apply Hfresh. rewrite Heq.
        apply list_elem_of_fmap. by exists tb'. }
    exists t'. split; [done|]. intros k. rewrite Ht'.
    cbn [fmap list_fmap].
    destruct (decide (k = tb_name tb)) as [->|Hne].
    + rewrite (bool_decide_eq_true_2 (tb_name tb ∈ tb_name tb :: _))
        by (by left).
      case_bool_decide; [done|]. by rewrite lookup_delete_eq.
    + rewrite lookup_delete_ne by done.
      apply (f_equal (λ b : bool, if b then None else t !! k)).
      apply bool_decide_ext. rewrite elem_of_cons. naive_solver.
Qed.

Lemma validate_core_loop_total sufs core :
  (∀ s tb, sufs !! s = Some tb → is_Some (tb_construct_type tb)) →
  ∃ b, validate_core_loop sufs core = Returns b.
Proof.
  intros Hty. induction core as [|[suf tok] core IH]; [by eexists|].
  cbn [validate_core_loop].
  destruct (sufs !! suf) as [tb|] eqn:Hs; [|by eexists].
  destruct (Hty _ _ Hs) as [ty ->].
  destruct (PyStr.endswith _ _); [done | by eexists].
Qed.

Lemma validate_action_topic_builders_total a :
  (∀ s tb, topic_name_suffixes_to_builders a !! s = Some tb →
           is_Some (tb_construct_type tb)) →
  ∃ b, validate_action_topic_builders a = Returns b.
Proof.
  intros Hty. unfold validate_action_topic_builders,
    validate_core_topic_builders_have_required_types.
  destruct (validate_core_loop_total _ CORE_TOPIC_SUFFIXES_TO_TYPE_TOKENS Hty)
    as [b ->].
  by eexists.
Qed.

Lemma action_topic_names (ab : ActionBuilder) (n : string) :
  (∀ k tb, topic_names_to_builders ab !! k = Some tb → tb_name tb = k) →
  tb_name <$> (snd <$> map_to_list (topic_names_to_builders ab))
  = fst <$> map_to_list (topic_names_to_builders ab).
Proof.
  intros Hk. rewrite <- list_fmap_compose. apply list_fmap_ext.
  intros i [k tb] Hi. cbn. apply Hk.
  apply elem_of_map_to_list. by eapply list_elem_of_lookup_2.
Qed.

Lemma elem_of_action_topic_names (ab : ActionBuilder) (k : string) :
  (∀ k tb, topic_names_to_builders ab !! k = Some tb → tb_name tb = k) →
  k ∈ tb_name <$> (snd <$> map_to_list (topic_names_to_builders ab))
  ↔ is_Some (topic_names_to_builders ab !! k).
Proof.
  intros Hk. rewrite (action_topic_names ab k Hk).
  rewrite list_elem_of_fmap. split.
  - intros ([k' tb] & -> & Hin). apply elem_of_map_to_list in Hin. by eexists.
  - intros [tb Htb]. exists (k, tb). split; [done|].
    by apply elem_of_map_to_list.
Qed.

Lemma promote_loop_spec (items : list (string * ActionBuilder))
    (acts : gmap string ActionBuilder) (topics : gmap string TopicBuilder)
    (lg : logger) :
  NoDup items.*1 →
  (∀ n ab, (n, ab) ∈ items →
     (∀ s tb, topic_name_suffixes_to_builders ab !! s = Some tb →
              is_Some (tb_construct_type tb))
     ∧ ∀ k tb, topic_names_to_builders ab !! k = Some tb →
               tb_name tb = k ∧ name_base k = n ∧ is_Some (topics !! k)) →
  ∃ acts' topics' (lg' : logger),
    promote_loop (acts, topics, lg) items = Returns (acts', topics', lg')
    ∧ (∀ n, acts' !! n = acts !! n
            ∨ (acts' !! n = None
               ∧ ∃ ab, (n, ab) ∈ items
                       ∧ validate_action_topic_builders ab = Returns false))
    ∧ (∀ n ab, (n, ab) ∈ items →
               validate_action_topic_builders ab = Returns false →
               acts' !! n = None)
    ∧ (∀ k, topics' !! k = topics !! k
            ∨ (topics' !! k = None
               ∧ ∃ n ab, (n, ab) ∈ items
                         ∧ validate_action_topic_builders ab = Returns true
                         ∧ is_Some (topic_names_to_builders ab !! k)))
    ∧ (∀ n ab k, (n, ab) ∈ items →
                 validate_action_topic_builders ab = Returns true →
                 is_Some (topic_names_to_builders ab !! k) →
                 topics' !! k = None)
    ∧ lg `prefix_of` lg'.
Proof.
  revert acts topics lg.
  induction items as [|[n ab] items IH]; intros acts topics lg Hnd Hit.
  - exists acts, topics, lg. split; [done|].
    split_and!; try done; try (by left).
    + intros n ab Hin. by apply elem_of_nil in Hin.
    + intros n ab k Hin. by apply elem_of_nil in Hin.
  - cbn [fmap list_fmap fst] in Hnd. apply NoDup_cons in Hnd as [Hfresh Hnd].
    destruct (Hit n ab) as [Hty Htop]; [by left|].
    destruct (validate_action_topic_builders_total ab Hty) as [b Hb].
    cbn [promote_loop]. unfold promote_step. rewrite Hb.
    cbn [mbind result_bind]. destruct b; cbn [negb].
    + (* valid: the topics of the action leave the bank *)
      assert (Hkeys : ∀ k tb, topic_names_to_builders ab !! k = Some tb →
                              tb_name tb = k)
        by (intros k tb Hk; by apply Htop).
      destruct (remove_action_topic_builders_spec topics
                  (snd <$> map_to_list (topic_names_to_builders ab)))
        as (topics1 & -> & Ht1).
      { rewrite (action_topic_names ab n Hkeys).
        apply NoDup_fst_map_to_list. }
      { intros tb ([k tb'] & -> & Hin)%list_elem_of_fmap.
        apply elem_of_map_to_list in Hin. cbn.
        destruct (Htop k tb' Hin) as (-> & _ & Hsome). done. }
      cbn [mbind result_bind].
      assert (Ht1' : ∀ k, topics1 !! k
                = if bool_decide (is_Some (topic_names_to_builders ab !! k))
                  then None else topics !! k).
      { intros k. rewrite Ht1.
        apply (f_equal (λ b : bool, if b then None else topics !! k)).
        apply bool_decide_ext. by apply elem_of_action_topic_names. }
      destruct (IH acts topics1
                  (log lg INFO ("Action " +:+ n +:+
                     " is valid. Removing corresponding topics from topic bank.")))
        as (acts' & topics' & lg' & -> & Ha & Ha0 & Ht & Ht0 & Hlg);
        [done| |].
      { intros n' ab' Hin'. destruct (Hit n' ab') as [Hty' Htop']; [by right|].
        split; [done|]. intros k tb Hk.
        destruct (Htop' k tb Hk) as (Hname & Hbase & Hsome).
        split_and!; [done..|]. rewrite Ht1'.
        rewrite bool_decide_eq_false_2; [done|].
        intros [tb0 Hk0]. destruct (Htop k tb0 Hk0) as (_ & Hbase0 & _).
        apply Hfresh. apply list_elem_of_fmap. exists (n', ab').
        split; [|done]. cbn. congruence. }
      exists acts', topics', lg'. split; [done|]. split_and!.
      * intros n0. destruct (Ha n0) as [?|(? & ab0 & ? & ?)]; [by left|].
        right. split; [done|]. exists ab0. split; [by right|done].
      * intros n0 ab0 [[= -> ->]|Hin]%elem_of_cons Hv; [congruence|].
        by eapply Ha0.
      * intros k.
        destruct (Ht k) as [Hk|(Hk & n0 & ab0 & ? & ? & ?)].
        -- rewrite Ht1' in Hk. case_bool_decide as Hab; [|by left].
           right. split; [done|]. exists n, ab. split_and!; [by left|done..].
        -- right. split; [done|]. exists n0, ab0.
           split_and!; [by right|done..].
      * intros n0 ab0 k [[= -> ->]|Hin]%elem_of_cons Hv Hk;
          [|by eapply Ht0].
        destruct (Ht k) as [Hk'|[Hk' _]]; [|done].
        rewrite Hk', Ht1'. by rewrite bool_decide_eq_true_2.
      * etrans; [|exact Hlg]. by apply prefix_app_r.
    + (* not valid: the action is dropped *)
      cbn [mbind result_bind].
      destruct (IH (delete n acts) topics
                  (log lg INFO ("Action " +:+ n +:+
                     " NOT valid. Not removing topics from topic bank.")))
        as (acts' & topics' & lg' & -> & Ha & Ha0 & Ht & Ht0 & Hlg);
        [done| |].
      { intros n' ab' Hin'. apply Hit. by right. }
      assert (Hn : acts' !! n = None).
      { destruct (Ha n) as [Hn|[Hn _]]; [|done].
        by rewrite Hn, lookup_delete_eq. }
      exists acts', topics', lg'. split; [done|]. split_and!.
      * intros n0. destruct (decide (n0 = n)) as [->|Hne].
        -- right. split; [done|]. exists ab. split; [by left|done].
        -- destruct (Ha n0) as [Hn0|(? & ab0 & ? & ?)].
           ++ left. by rewrite Hn0, lookup_delete_ne.
           ++ right. split; [done|]. exists ab0. split; [by right|done].
      * intros n0 ab0 [[= -> ->]|Hin]%elem_of_cons Hv; [done|].
        by eapply Ha0.
      * intros k. destruct (Ht k) as [Hk|(Hk & n0 & ab0 & ? & ? & ?)];
          [by left|].
        right. split; [done|]. exists n0, ab0. split_and!; [by right|done..].
      * intros n0 ab0 k [[= -> ->]|Hin]%elem_of_cons Hv Hk;
          [congruence|by eapply Ht0].
      * etrans; [|exact Hlg]. by apply prefix_app_r.
Qed.

Lemma group_fold_spec (l : list TopicBuilder) :
  let G := foldl group_step ∅ l in
  (∀ n ab, G !! n = Some ab →
     ab_name ab = n
     ∧ (∀ k tb, topic_names_to_builders ab !! k = Some tb →
          tb ∈ l ∧ tb_name tb = k ∧ name_base k = n
          ∧ test_potential_action_topic_builder tb = true)
     ∧ (∀ s tb, topic_name_suffixes_to_builders ab !! s = Some tb → tb ∈ l))
  ∧ (∀ tb, tb ∈ l → test_potential_action_topic_builder tb = true →
       ∃ ab tb', G !! name_base (tb_name tb) = Some ab
                 ∧ topic_names_to_builders ab !! tb_name tb = Some tb').
Proof.
  induction l as [|x l IH] using rev_ind.
  - cbn. split.
    + intros n ab Hn. by rewrite lookup_empty in Hn.
    + intros tb Hin. by apply elem_of_nil in Hin.
  - rewrite foldl_app. cbn [foldl]. cbn zeta in IH.
    destruct IH as [IHa IHb].
    set (G := foldl group_step ∅ l) in *.
    unfold group_step.
    destruct (test_potential_action_topic_builder x) eqn:Htest.
    + set (n0 := name_base (tb_name x)).
      set (a0 := default (ActionBuilder_init n0) (G !! n0)).
      assert (Ha0 : ab_name a0 = n0
                ∧ (∀ k tb, topic_names_to_builders a0 !! k = Some tb →
                     tb ∈ l ∧ tb_name tb = k ∧ name_base k = n0
                     ∧ test_potential_action_topic_builder tb = true)
                ∧ (∀ s tb, topic_name_suffixes_to_builders a0 !! s = Some tb →
                     tb ∈ l)).
      { unfold a0. destruct (G !! n0) as [a|] eqn:Hn0; cbn [default].
        - by apply IHa.
        - cbn. split_and!; [done|..]; intros ? ? Hk;
            by rewrite lookup_empty in Hk. }
      destruct Ha0 as (Hname0 & Htop0 & Hsuf0).
      split.
      * intros n ab Hn. destruct (decide (n = n0)) as [->|Hne].
        -- rewrite lookup_insert_eq in Hn. injection Hn as <-.
           cbn [add_topic_builder ab_name topic_names_to_builders
                topic_name_suffixes_to_builders]. split_and!; [done|..].
           ++ intros k tb Hk.
              destruct (decide (k = tb_name x)) as [->|Hk'].
              ** rewrite lookup_insert_eq in Hk. injection Hk as <-.
                 split_and!; try done. apply elem_of_app. right. by left.
              ** rewrite lookup_insert_ne in Hk by done.
                 destruct (Htop0 k tb Hk) as (? & ? & ? & ?).
                 split_and!; try done. apply elem_of_app. by left.
           ++ intros s' tb Hs.
              destruct (decide (s' = name_suffix (tb_name x))) as [->|Hs'].
              ** rewrite lookup_insert_eq in Hs. injection Hs as <-.
                 apply elem_of_app. right. by left.
              ** rewrite lookup_insert_ne in Hs by done.
                 apply elem_of_app. left. by eapply Hsuf0.
        -- rewrite lookup_insert_ne in Hn by done.
           destruct (IHa n ab Hn) as (? & Htop & Hsuf). split_and!; [done|..].
           ++ intros k tb Hk. destruct (Htop k tb Hk) as (? & ? & ? & ?).
              split_and!; try done. apply elem_of_app. by left.
           ++ intros s' tb Hs. apply elem_of_app. left. by eapply Hsuf.
      * intros tb Hin Ht.
        destruct (decide (name_base (tb_name tb) = n0)) as [Hb|Hb].
        -- rewrite Hb, lookup_insert_eq.
           cbn [add_topic_builder topic_names_to_builders].
           destruct (decide (tb_name tb = tb_name x)) as [Hx|Hx].
           ++ exists (add_topic_builder x a0), x. split; [done|].
              cbn. by rewrite Hx, lookup_insert_eq.
           ++ assert (Hl : tb ∈ l).
              { apply elem_of_app in Hin as [?|Hin]; [done|].
                apply list_elem_of_singleton in Hin. by subst. }
              destruct (IHb tb Hl Ht) as (ab & tb' & Hab & Htb').
              rewrite Hb in Hab. eexists _, tb'. split; [done|].
              cbn. rewrite lookup_insert_ne by done.
              unfold a0. by rewrite Hab.
        -- assert (Hl : tb ∈ l).
           { apply elem_of_app in Hin as [?|Hin]; [done|].
             apply list_elem_of_singleton in Hin. by subst. }
           destruct (IHb tb Hl Ht) as (ab & tb' & Hab & Htb').
           exists ab, tb'. by rewrite lookup_insert_ne.
    + split.
      * intros n ab Hn. destruct (IHa n ab Hn) as (? & Htop & Hsuf).
        split_and!; [done|..].
        -- intros k tb Hk. destruct (Htop k tb Hk) as (? & ? & ? & ?).
           split_and!; try done. apply elem_of_app. by left.
        -- intros s' tb Hs. apply elem_of_app. left. by eapply Hsuf.
      * intros tb Hin Ht. apply IHb; [|done].
        apply elem_of_app in Hin as [?|Hin]; [done|].
        apply list_elem_of_singleton in Hin. subst. congruence.
Qed.

(** X19: on a topic bank whose builders are stored under their own names
    and have a type (as [__getitem__] creates them), the extraction of the
    action builders returns, and it splits the bank: every topic either
    stays in the topic bank as it was or is removed and is then a topic of
    a returned action; every returned action passed the validation, is
    named by the common base of its topics, has only topics of the bank
    with one of the five action suffixes, and none of its topics is left
    in the topic bank; and an action-suffixed topic that stays belongs to
    no returned action. *)
Theorem action_extraction_splits_the_topic_bank (bank : TopicBankBuilder)
    (lg : logger) :
  (∀ k tb, names_to_entity_builders bank !! k = Some tb →
           tb_name tb = k ∧ is_Some (tb_construct_type tb)) →
  ∃ actions topics' lg',
    extract_action_builders_from_internal_topic_builders bank lg
    = Returns (actions, with_builders bank topics', lg')
    ∧ topics' ⊆ names_to_entity_builders bank
    ∧ (∀ n ab, actions !! n = Some ab →
         validate_action_topic_builders ab = Returns true
         ∧ ab_name ab = n
         ∧ ∀ k tb, topic_names_to_builders ab !! k = Some tb →
             names_to_entity_builders bank !! k = Some tb
             ∧ name_base k = n ∧ name_suffix k ∈ TOPIC_SUFFIXES
             ∧ topics' !! k = None)
    ∧ (∀ k tb, names_to_entity_builders bank !! k = Some tb →
         topics' !! k = None →
         ∃ ab, actions !! name_base k = Some ab
               ∧ topic_names_to_builders ab !! k = Some tb)
    ∧ (∀ k tb, topics' !! k = Some tb → name_suffix k ∈ TOPIC_SUFFIXES →
         actions !! name_base k = None)
    ∧ lg `prefix_of` lg'.
Proof.
  intros Hwf. unfold extract_action_builders_from_internal_topic_builders.
  set (m := names_to_entity_builders bank) in *.
  set (l := snd <$> map_to_list m).
  destruct (group_fold_spec l) as [Ga Gb]. cbn zeta in Ga, Gb.
  set (G := foldl group_step ∅ l) in *.
  assert (Hl : ∀ tb, tb ∈ l → m !! tb_name tb = Some tb).
  { intros tb ([k tb'] & -> & Hin)%list_elem_of_fmap.
    apply elem_of_map_to_list in Hin. cbn.
    by destruct (Hwf k tb' Hin) as [-> _]. }
  assert (Hl' : ∀ k tb, m !! k = Some tb → tb ∈ l).
  { intros k tb Hk. apply list_elem_of_fmap. exists (k, tb).
    split; [done|]. by apply elem_of_map_to_list. }
  destruct (promote_loop_spec (map_to_list G) G m
              (log lg INFO
                 "Searching topics in topic bank for corresponding actions."))
    as (actions & topics' & lg' & -> & Ha & Ha0 & Ht & Ht0 & Hlg).
  { apply NoDup_fst_map_to_list. }
  { intros n ab Hin%elem_of_map_to_list.
    destruct (Ga n ab Hin) as (_ & Htop & Hsuf). split.
    - intros s tb Hs. apply Hsuf, Hl in Hs. by apply Hwf in Hs as [_ ?].
    - intros k tb Hk. destruct (Htop k tb Hk) as (Hin' & <- & Hb & _).
      split_and!; [done..|]. rewrite (Hl tb Hin'). by eexists. }
  assert (Hact : ∀ n ab, actions !! n = Some ab →
            G !! n = Some ab
            ∧ validate_action_topic_builders ab = Returns true).
  { intros n ab Hn.
    assert (HG : G !! n = Some ab).
    { destruct (Ha n) as [Heq|[Heq _]]; congruence. }
    split; [done|].
    destruct (Ga n ab HG) as (_ & _ & Hsuf).
    destruct (validate_action_topic_builders_total ab) as [[] Hb]; [|done|].
    - intros s tb Hs. apply Hsuf, Hl in Hs. by apply Hwf in Hs as [_ ?].
    - rewrite (Ha0 n ab) in Hn; [done| |done].
      by apply elem_of_map_to_list. }
  exists actions, topics', lg'. cbn [mbind result_bind].
  split; [done|]. split_and!.
  - apply map_subseteq_spec. intros k tb Hk.
    destruct (Ht k) as [Heq|[Heq _]]; congruence.
  - intros n ab Hn. destruct (Hact n ab Hn) as [HG Hv].
    destruct (Ga n ab HG) as (Hname & Htop & _).
    split_and!; [done..|].
    intros k tb Hk. destruct (Htop k tb Hk) as (Hin & Hk' & Hb & Htest).
    split_and!.
    + rewrite <- Hk'. by apply Hl.
    + done.
    + unfold test_potential_action_topic_builder in Htest.
      apply bool_decide_eq_true in Htest. by rewrite Hk' in Htest.
    + eapply (Ht0 n ab); [by apply elem_of_map_to_list|done|by eexists].
  - intros k tb Hk Hnone.
    destruct (Ht k) as [Heq|(_ & n & ab & Hin & Hv & [tb' Htb'])];
      [congruence|].
    apply elem_of_map_to_list in Hin.
    destruct (Ga n ab Hin) as (_ & Htop & _).
    destruct (Htop k tb' Htb') as (Hin' & Hk' & Hb & _).
    apply Hl in Hin'. rewrite Hk' in Hin'.
    assert (tb' = tb) as -> by congruence.
    exists ab. split; [|done]. rewrite Hb.
    destruct (Ha n) as [Heq|(_ & ab0 & Hin0 & Hv0)]; [congruence|].
    apply elem_of_map_to_list in Hin0. congruence.
  - intros k tb Hk Hsuf.
    assert (Hm : m !! k = Some tb).
    { destruct (Ht k) as [Heq|[Heq _]]; congruence. }
    destruct (Hwf k tb Hm) as [Hname _].
    destruct (Gb tb (Hl' k tb Hm)) as (ab & tb' & HG & Htb').
    { unfold test_potential_action_topic_builder.
      apply bool_decide_eq_true. by rewrite Hname. }
    rewrite Hname in HG, Htb'.
    destruct (actions !! name_base k) as [ab'|] eqn:Hab; [|done].
    destruct (Hact _ _ Hab) as [HG' Hv].
    assert (ab' = ab) as -> by congruence.
    rewrite (Ht0 (name_base k) ab k) in Hk; [done| |done|by eexists].
    by apply elem_of_map_to_list.
  - etrans; [|exact Hlg]. by apply prefix_app_r.
Qed.

End promotion_partition.

Lemma action_extraction_splits_the_topic_bank_witness :
  let bank := Snapshot.move_topic_bank "pkg/MoveActionResult"
                (λ _, ∅) (λ _, ∅) in
  (∀ k tb, Snapshot.names_to_entity_builders bank !! k = Some tb →
           Snapshot.tb_name tb = k
           ∧ is_Some (Snapshot.tb_construct_type tb))
  ∧ ∃ actions topics' lg',
      Snapshot.extract_action_builders_from_internal_topic_builders bank []
      = Returns (actions, Snapshot.with_builders bank topics', lg')
      ∧ topics' ⊆ Snapshot.names_to_entity_builders bank.
Proof.
  intros bank.
  assert (Hwf : ∀ k tb,
            Snapshot.names_to_entity_builders bank !! k = Some tb →
            Snapshot.tb_name tb = k
            ∧ is_Some (Snapshot.tb_construct_type tb)).
  { apply (map_Forall_lookup
             (λ k tb, Snapshot.tb_name tb = k
                      ∧ is_Some (Snapshot.tb_construct_type tb))).
    apply map_Forall_to_list. vm_compute map_to_list.
    repeat (apply Forall_cons; split; [split; [reflexivity | by eexists]|]).
    apply Forall_nil_2. }
  split; [exact Hwf|].
  destruct (action_extraction_splits_the_topic_bank bank [] Hwf)
    as (actions & topics' & lg' & Hrun & Hsub & _).
  exists actions, topics', lg'. split; [exact Hrun | exact Hsub].
Defined.

(** ** Token matching: what the whole loop guarantees *)

Section token_matching_invariants.
Import Snapshot.
Variable io_type_of : string → string.
Variable node_name : string.
Variable spec_types : gmap string string.

Lemma first_typed_some candidates io_type t :
  first_typed spec_types candidates io_type = Some t →
  t ∈ candidates ∧ spec_types !! t = Some io_type.
Proof.
  unfold first_typed. intros Hf.
  apply find_sorted_least in Hf as (Hin & Hp & _);
    [|apply sorted_set_sorted].
  split; [by apply elem_of_sorted_set | by apply bool_decide_eq_true in Hp].
Qed.

(** One step on a name that is still unset: either a key of the right type
    that was still available is assigned and consumed, or nothing changes
    but the flag and the log. *)
Lemma match_step_cases (st : match_state) (io_name : string) :
  io_names st !! io_name = Some None →
  (∃ t, t ∈ available_tokens st
        ∧ spec_types !! t = Some (io_type_of io_name)
        ∧ match_step io_type_of node_name spec_types st io_name
          = assigned st io_name t)
  ∨ match_step io_type_of node_name spec_types st io_name
    = {| io_names := io_names st; available_tokens := available_tokens st;
         io_is_valid := false;
         match_log := log (match_log st) WARNING
                        ("      Node " +:+ node_name +:+ " unmatched data "
                           +:+ io_name +:+ " !") |}.
Proof.
  intros Hunset. unfold match_step.
  set (token := PyStr.last_token (PyStr.split "/"%char io_name)).
  set (io_type := io_type_of io_name).
  destruct (bool_decide (token ∉ available_tokens st)
            || bool_decide (Some io_type ≠ spec_types !! token)) eqn:Hcond.
  - set (potential := filter (λ ss, PyStr.contains token ss = true)
                             (available_tokens st)).
    destruct (first_typed spec_types potential io_type) as [t|] eqn:H1.
    + apply first_typed_some in H1 as [Hin Hty].
      left. exists t. split_and!; [|done|].
      * apply elem_of_filter in Hin. by destruct Hin.
      * cbn [io_names]. rewrite is_unset_insert.
        cbn [io_names]. by rewrite is_unset_insert.
    + assert (Hu : is_unset (io_names st) io_name = true)
        by (unfold is_unset; by apply bool_decide_eq_true).
      rewrite Hu.
      destruct (first_typed spec_types (available_tokens st ∖ potential)
                  io_type) as [t|] eqn:H2.
      * apply first_typed_some in H2 as [Hin Hty].
        left. exists t. split_and!; [|done|].
        -- apply elem_of_difference in Hin. by destruct Hin.
        -- cbn [io_names]. by rewrite is_unset_insert.
      * right. by rewrite Hu.
  - apply orb_false_elim in Hcond as [Hin Hty].
    apply bool_decide_eq_false in Hin. apply dec_stable in Hin.
    apply bool_decide_eq_false in Hty. apply dec_stable in Hty.
    left. exists token. split_and!; [done|by symmetry|done].
Qed.

Lemma match_fold_invariant (names : gmap string (option string))
    (lg0 : logger) (todo : list string) (st : match_state) (P : gset string) :
  (∀ n v, names !! n = Some v → v = None) →
  NoDup todo →
  (∀ n, n ∈ todo → (n ∉ P) ∧ n ∈ dom names) →
  dom (io_names st) = dom names →
  (∀ n, n ∉ P → io_names st !! n = names !! n) →
  (∀ n t, io_names st !! n = Some (Some t) →
          spec_types !! t = Some (io_type_of n) ∧ t ∉ available_tokens st) →
  (∀ n1 n2 t, io_names st !! n1 = Some (Some t) →
              io_names st !! n2 = Some (Some t) → n1 = n2) →
  (io_is_valid st = true ↔ ∀ n, n ∈ P → io_names st !! n ≠ Some None) →
  lg0 `prefix_of` match_log st →
  let st' := foldl (match_step io_type_of node_name spec_types) st todo in
  dom (io_names st') = dom names
  ∧ (∀ n t, io_names st' !! n = Some (Some t) →
            spec_types !! t = Some (io_type_of n))
  ∧ (∀ n1 n2 t, io_names st' !! n1 = Some (Some t) →
                io_names st' !! n2 = Some (Some t) → n1 = n2)
  ∧ (io_is_valid st' = true ↔
     ∀ n, n ∈ P ∪ list_to_set todo → io_names st' !! n ≠ Some None)
  ∧ lg0 `prefix_of` match_log st'.
Proof.
  intros Hnone. revert st P.
  induction todo as [|n todo IH];
    intros st P Hnd Htodo Hdom Hout Hty Hinj Hvalid Hlg st'.
  - subst st'. cbn [foldl]. split_and!; try done.
    + intros n t Hn. by apply Hty in Hn as [? _].
    + rewrite Hvalid. cbn. by rewrite (right_id_L ∅ (∪)).
  - subst st'. cbn [foldl]. apply NoDup_cons in Hnd as [Hfresh Hnd].
    destruct (Htodo n) as [HnP Hndom]; [by left|].
    assert (Hn : io_names st !! n = Some None).
    { rewrite Hout by done. apply elem_of_dom in Hndom as [v Hv].
      by rewrite Hv, (Hnone n v Hv). }
    assert (Hgoal : ∀ st1,
      dom (io_names st1) = dom names →
      (∀ n', n' ∉ P ∪ {[ n ]} → io_names st1 !! n' = names !! n') →
      (∀ n' t, io_names st1 !! n' = Some (Some t) →
               spec_types !! t = Some (io_type_of n')
               ∧ t ∉ available_tokens st1) →
      (∀ n1 n2 t, io_names st1 !! n1 = Some (Some t) →
                  io_names st1 !! n2 = Some (Some t) → n1 = n2) →
      (io_is_valid st1 = true ↔
       ∀ n', n' ∈ P ∪ {[ n ]} → io_names st1 !! n' ≠ Some None) →
      lg0 `prefix_of` match_log st1 →
      let st' := foldl (match_step io_type_of node_name spec_types) st1 todo in
      dom (io_names st') = dom names
      ∧ (∀ n t, io_names st' !! n = Some (Some t) →
                spec_types !! t = Some (io_type_of n))
      ∧ (∀ n1 n2 t, io_names st' !! n1 = Some (Some t) →
                    io_names st' !! n2 = Some (Some t) → n1 = n2)
      ∧ (io_is_valid st' = true ↔
         ∀ n', n' ∈ P ∪ list_to_set (n :: todo) →
               io_names st' !! n' ≠ Some None)
      ∧ lg0 `prefix_of` match_log st').
    { intros st1 H1 H2 H3 H4 H5 H6.
      destruct (IH st1 (P ∪ {[ n ]})) as (G1 & G2 & G3 & G4 & G5);
        try done.
      - intros n' Hn'. destruct (Htodo n') as [? ?]; [by right|].
        split; [|done]. intros [?|Heq%elem_of_singleton]%elem_of_union;
          [done|]. subst n'. done.
      - split_and!; try done. rewrite G4. cbn [list_to_set].
        by rewrite (assoc_L (∪)). }
    destruct (match_step_cases st n Hn) as [(t & Hav & Hspec & ->)| ->].
    + apply Hgoal; unfold assigned; cbn [io_names available_tokens
                                           io_is_valid match_log].
      * rewrite dom_insert_L, Hdom. set_solver.
      * intros n' Hn'. rewrite lookup_insert_ne by set_solver.
        apply Hout. set_solver.
      * intros n' t' Hn'. destruct (decide (n' = n)) as [->|Hne].
        -- rewrite lookup_insert_eq in Hn'. injection Hn' as <-.
           split; [done|]. set_solver.
        -- rewrite lookup_insert_ne in Hn' by done.
           destruct (Hty n' t' Hn') as [? ?]. split; [done|]. set_solver.
      * intros n1 n2 t' Hn1 Hn2.
        destruct (decide (n1 = n)) as [->|Hne1];
          destruct (decide (n2 = n)) as [->|Hne2]; try done.
        -- rewrite lookup_insert_eq in Hn1. injection Hn1 as <-.
           rewrite lookup_insert_ne in Hn2 by done.
           by destruct (Hty n2 t Hn2) as [_ ?].
        -- rewrite lookup_insert_eq in Hn2. injection Hn2 as <-.
           rewrite lookup_insert_ne in Hn1 by done.
           by destruct (Hty n1 t Hn1) as [_ ?].
        -- rewrite lookup_insert_ne in Hn1, Hn2 by done. by eapply Hinj.
      * rewrite Hvalid. split.
        -- intros Hall n' [Hn'|Heq%elem_of_singleton]%elem_of_union.
           ++ rewrite lookup_insert_ne by (by intros ->). by apply Hall.
           ++ subst n'. by rewrite lookup_insert_eq.
        -- intros Hall n' Hn'.
           specialize (Hall n' (elem_of_union_l _ _ _ Hn')).
           by rewrite lookup_insert_ne in Hall by (by intros ->).
      * done.
    + apply Hgoal; cbn [io_names available_tokens io_is_valid match_log];
        try done.
      * intros n' Hn'. apply Hout. set_solver.
      * split; [done|]. intros Hall. destruct (Hall n); [set_solver|done].
      * etrans; [exact Hlg|]. by apply prefix_app_r.
Qed.

(** X20: matching a node whose deployed names are all still unset against
    the keys of a specification changes no name; every key it assigns has
    the declared type of the deployed item's resolved type; no key is
    assigned to two names; the function returns [True] exactly when every
    name got a key; and it only appends to the log. *)
Theorem match_token_types_assigns_typed_distinct_keys
    (names : gmap string (option string)) (lg : logger) :
  (∀ n v, names !! n = Some v → v = None) →
  let r := match_token_types io_type_of node_name names (Some spec_types) lg in
  dom r.1.1 = dom names
  ∧ (∀ n t, r.1.1 !! n = Some (Some t) →
            spec_types !! t = Some (io_type_of n))
  ∧ (∀ n1 n2 t, r.1.1 !! n1 = Some (Some t) →
                r.1.1 !! n2 = Some (Some t) → n1 = n2)
  ∧ (r.1.2 = Some true ↔ ∀ n, n ∈ dom names → r.1.1 !! n ≠ Some None)
  ∧ lg `prefix_of` r.2.
Proof.
  intros Hnone r. subst r. unfold match_token_types. cbn [fst snd].
  destruct (match_fold_invariant names lg (PyStr.sorted_set (dom names))
              {| io_names := names; available_tokens := dom spec_types;
                 io_is_valid := true; match_log := lg |} ∅ Hnone)
    as (G1 & G2 & G3 & G4 & G5); cbn [io_names available_tokens io_is_valid
                                       match_log]; try done.
  - apply NoDup_sorted_set.
  - intros n Hn%elem_of_sorted_set. split; [set_solver|done].
  - intros n t Hn. by apply Hnone in Hn.
  - intros n1 n2 t Hn. by apply Hnone in Hn.
  - split_and!; try done. split.
    + intros [= Hv] n Hn. apply G4; [done|].
      rewrite list_to_set_sorted_set. set_solver.
    + intros Hall. f_equal. apply G4. intros n Hn. apply Hall.
      rewrite list_to_set_sorted_set in Hn. set_solver.
Qed.

End token_matching_invariants.

Lemma match_token_types_assigns_typed_distinct_keys_witness :
  let names : gmap string (option string) :=
    {[ "cam/exposure" := None; "cam/gain" := None ]} in
  let spec_types : gmap string string :=
    {[ "exposure_1" := "int"; "gain" := "int" ]} in
  let r := Snapshot.match_token_types (λ _, "int") "/cam" names
             (Some spec_types) [] in
  (∀ n v, names !! n = Some v → v = None)
  ∧ dom r.1.1 = dom names
  ∧ (∀ n t, r.1.1 !! n = Some (Some t) → spec_types !! t = Some "int")
  ∧ (∀ n1 n2 t, r.1.1 !! n1 = Some (Some t) →
                r.1.1 !! n2 = Some (Some t) → n1 = n2).
Proof.
  intros names spec_types r.
  assert (Hnone : ∀ n v, names !! n = Some v → v = None).
  { apply (map_Forall_lookup (λ (_ : string) (v : option string), v = None)).
    apply map_Forall_to_list. vm_compute map_to_list.
    repeat (apply Forall_cons; split; [reflexivity|]). apply Forall_nil_2. }
  split; [exact Hnone|].
  destruct (match_token_types_assigns_typed_distinct_keys (λ _, "int") "/cam"
              spec_types names [] Hnone) as (H1 & H2 & H3 & _).
  split_and!; [exact H1 | exact H2 | exact H3].
Defined.

(** ** The remapper bank *)

Section remapper_bank_facts.
Import Remapper.
Variable str_of_list : list string → string.

Lemma add_remap_spec (bank : RemapperBank) (out : list string)
    (data_name key : string) :
  let r := add_remap str_of_list (bank, out) data_name key in
  (∀ d, d ≠ data_name → r.1 !! d = bank !! d)
  ∧ (∀ k, k ∈ remap_keys (r.1 !! data_name)
          ↔ k ∈ remap_keys (bank !! data_name) ∨ k = key)
  ∧ remap_keys (bank !! data_name) `prefix_of` remap_keys (r.1 !! data_name)
  ∧ (NoDup (remap_keys (bank !! data_name)) →
     NoDup (remap_keys (r.1 !! data_name)))
  ∧ add_remap str_of_list r data_name key = r
  ∧ out `prefix_of` r.2.
Proof.
  intros r. subst r. unfold add_remap.
  destruct (bank !! data_name) as [[|k|l]|] eqn:Hd.
  - cbn [fst snd]. rewrite lookup_insert_eq. cbn [remap_keys].
    rewrite bool_decide_eq_true_2 by done. split_and!; try done.
    + intros d Hne. by rewrite lookup_insert_ne.
    + intros k. rewrite list_elem_of_singleton, elem_of_nil. naive_solver.
    + apply prefix_nil.
    + intros _. apply NoDup_singleton.
  - case_bool_decide as Hk.
    + subst k. cbn [fst snd]. rewrite Hd. cbn [remap_keys].
      rewrite bool_decide_eq_true_2 by done. split_and!; try done.
      intros k. rewrite list_elem_of_singleton. naive_solver.
    + cbn [fst snd]. rewrite lookup_insert_eq. cbn [remap_keys].
      rewrite bool_decide_eq_true_2 by set_solver. split_and!; try done.
      * intros d Hne. by rewrite lookup_insert_ne.
      * intros k'. rewrite !elem_of_cons, elem_of_nil. naive_solver.
      * by exists [key].
      * intros _. apply NoDup_cons. split; [set_solver|apply NoDup_singleton].
      * by apply prefix_app_r.
  - case_bool_decide as Hk.
    + cbn [fst snd]. rewrite Hd. cbn [remap_keys].
      rewrite bool_decide_eq_true_2 by done. split_and!; try done.
      intros k. naive_solver.
    + cbn [fst snd]. rewrite lookup_insert_eq. cbn [remap_keys].
      rewrite bool_decide_eq_true_2 by set_solver. split_and!; try done.
      * intros d Hne. by rewrite lookup_insert_ne.
      * intros k'. rewrite elem_of_app, list_elem_of_singleton. naive_solver.
      * by apply prefix_app_r.
      * intros Hnd. apply NoDup_app. split_and!; [done| |apply NoDup_singleton].
        intros x Hx ->%list_elem_of_singleton. done.
      * by apply prefix_app_r.
  - cbn [fst snd]. rewrite lookup_insert_eq. cbn [remap_keys].
    rewrite bool_decide_eq_true_2 by done. split_and!; try done.
    + intros d Hne. by rewrite lookup_insert_ne.
    + intros k. rewrite list_elem_of_singleton, elem_of_nil. naive_solver.
    + apply prefix_nil.
    + intros _. apply NoDup_singleton.
Qed.

(** X21: adding a remap touches no other data name; the keys recorded for
    the data name are afterwards the ones recorded before, in their order,
    followed by the new key when it was not among them (a second key turns
    the entry into a list), so no key is ever lost or duplicated; and
    adding the same key again changes nothing and prints nothing. *)
Theorem add_remap_accumulates_keys (bank : RemapperBank) (out : list string)
    (data_name key : string) :
  let r := add_remap str_of_list (bank, out) data_name key in
  (∀ d, d ≠ data_name → r.1 !! d = bank !! d)
  ∧ (∀ k, k ∈ remap_keys (r.1 !! data_name)
          ↔ k ∈ remap_keys (bank !! data_name) ∨ k = key)
  ∧ remap_keys (bank !! data_name) `prefix_of` remap_keys (r.1 !! data_name)
  ∧ (NoDup (remap_keys (bank !! data_name)) →
     NoDup (remap_keys (r.1 !! data_name)))
  ∧ add_remap str_of_list r data_name key = r
  ∧ out `prefix_of` r.2.
Proof. apply add_remap_spec. Qed.

Lemma add_remap_fold (name : string) (files : list string)
    (st : RemapperBank * list string) :
  let r := foldl (λ st f, add_remap str_of_list st f name) st files in
  (∀ f k, k ∈ remap_keys (r.1 !! f)
          ↔ k ∈ remap_keys (st.1 !! f) ∨ (k = name ∧ f ∈ files))
  ∧ ((∀ f, NoDup (remap_keys (st.1 !! f))) →
     ∀ f, NoDup (remap_keys (r.1 !! f))).
Proof.
  revert st. induction files as [|f0 files IH]; intros [bank out] r.
  - subst r. cbn. split; [|done]. intros f k. rewrite elem_of_nil.
    naive_solver.
  - subst r. cbn [foldl].
    destruct (add_remap_spec bank out f0 name)
      as (Hother & Hkeys & _ & Hnd & _). cbn zeta in *.
    destruct (add_remap str_of_list (bank, out) f0 name) as [bank1 out1].
    cbn [fst] in *.
    destruct (IH (bank1, out1)) as [IH1 IH2]. cbn [fst] in *. split.
    + intros f k. rewrite IH1. rewrite elem_of_cons.
      destruct (decide (f = f0)) as [->|Hne].
      * rewrite Hkeys. naive_solver.
      * rewrite Hother by done. naive_solver.
    + intros Hall. apply IH2. intros f.
      destruct (decide (f = f0)) as [->|Hne]; [by apply Hnd|].
      by rewrite Hother.
Qed.

Lemma remap_spec_fold (specs : list (string * file_path))
    (st : RemapperBank * list string) :
  let r := foldl (remap_spec str_of_list) st specs in
  (∀ f k, k ∈ remap_keys (r.1 !! f)
          ↔ k ∈ remap_keys (st.1 !! f)
            ∨ ∃ p, (k, p) ∈ specs ∧ f ∈ file_names_of p)
  ∧ ((∀ f, NoDup (remap_keys (st.1 !! f))) →
     ∀ f, NoDup (remap_keys (r.1 !! f))).
Proof.
  revert st. induction specs as [|[name p] specs IH]; intros st r.
  - subst r. cbn. split; [|done]. intros f k. split; [by left|].
    intros [?|(p & Hin & _)]; [done|]. by apply elem_of_nil in Hin.
  - subst r. cbn [foldl].
    assert (Hstep :
      (∀ f k, k ∈ remap_keys ((remap_spec str_of_list st (name, p)).1 !! f)
              ↔ k ∈ remap_keys (st.1 !! f)
                ∨ (k = name ∧ f ∈ file_names_of p))
      ∧ ((∀ f, NoDup (remap_keys (st.1 !! f))) →
         ∀ f, NoDup (remap_keys
                       ((remap_spec str_of_list st (name, p)).1 !! f)))).
    { unfold remap_spec. destruct p as [files|file]; cbn [file_names_of].
      - apply add_remap_fold.
      - apply (add_remap_fold name [file] st). }
    destruct Hstep as [Hs1 Hs2].
    destruct (IH (remap_spec str_of_list st (name, p))) as [IH1 IH2].
    cbn zeta in *. split.
    + intros f k. rewrite IH1, Hs1. split.
      * intros [[?|[-> ?]]|(p' & ? & ?)]; [by left|right..].
        -- exists p. split; [by left|done].
        -- exists p'. split; [by right|done].
      * intros [?|(p' & [[= -> ->]|?]%elem_of_cons & ?)];
          [by left; left|by left; right|right; by exists p'].
    + intros Hall. by apply IH2, Hs2.
Qed.

(** X22: in the node remapper built from the node specifications, a file
    name is mapped to exactly the names of the specifications that list
    it, each once. *)
Theorem node_remapper_maps_files_to_their_specifications
    (specs : list (string * file_path)) (file_name : string) :
  let bank := (create_node_remapper str_of_list specs).1 in
  (∀ k, k ∈ remap_keys (bank !! file_name)
        ↔ ∃ p, (k, p) ∈ specs ∧ file_name ∈ file_names_of p)
  ∧ NoDup (remap_keys (bank !! file_name)).
Proof.
  intros bank. subst bank. unfold create_node_remapper.
  destruct (remap_spec_fold specs (RemapperBank_init, [])) as [H1 H2].
  cbn zeta in *. cbn [fst] in *. split.
  - intros k. rewrite H1. unfold RemapperBank_init. rewrite lookup_empty.
    cbn [remap_keys]. rewrite elem_of_nil. naive_solver.
  - apply H2. intros f. unfold RemapperBank_init. rewrite lookup_empty.
    apply NoDup_nil_2.
Qed.

End remapper_bank_facts.

(** ** The topics a node uses as nodelet or nodelet manager *)

Section nodelet_topics.
Import Deployment.

Lemma extract_loop_spec (types : gmap string string) (keys : list string)
    (remaining extracted : gmap string (option string)) :
  NoDup keys →
  (∀ k, k ∈ keys → is_Some (remaining !! k) ∧ is_Some (types !! k)) →
  ∃ remaining' extracted',
    extract_loop types keys (remaining, extracted)
    = Returns (remaining', extracted')
    ∧ ∀ k,
        remaining' !! k
        = (if bool_decide (k ∈ keys ∧ types !! k = Some "bond/Status")
           then None else remaining !! k)
        ∧ extracted' !! k
          = (if bool_decide (k ∈ keys ∧ types !! k = Some "bond/Status")
             then remaining !! k else extracted !! k).
Proof.
  revert remaining extracted.
  induction keys as [|k0 keys IH]; intros remaining extracted Hnd Hin.
  - eexists _, _. split; [reflexivity|]. intros k.
    rewrite bool_decide_eq_false_2; [done|]. intros [Hk _].
    by apply elem_of_nil in Hk.
  - apply NoDup_cons in Hnd as [Hfresh Hnd].
    destruct (Hin k0) as [[v Hv] [ty Hty]]; [by left|].
    cbn [extract_loop]. rewrite Hty. cbn [fst snd].
    case_bool_decide as Hbond.
    + rewrite Hv.
      destruct (IH (delete k0 remaining) (<[k0 := v]> extracted) Hnd)
        as (r' & e' & -> & Hre).
      { intros k Hk. destruct (Hin k) as [? ?]; [by right|].
        split; [|done]. rewrite lookup_delete_ne; [done|]. by intros ->. }
      exists r', e'. split; [done|]. intros k.
      destruct (Hre k) as [-> ->].
      destruct (decide (k = k0)) as [->|Hne].
      * rewrite (bool_decide_eq_false_2 (k0 ∈ keys ∧ _)) by (by intros [? _]).
        rewrite (bool_decide_eq_true_2 (k0 ∈ k0 :: keys ∧ _));
          [|split; [by left|by subst ty]].
        by rewrite lookup_delete_eq, lookup_insert_eq.
      * rewrite lookup_delete_ne, lookup_insert_ne by done.
        assert (Hiff : (k ∈ keys ∧ types !! k = Some "bond/Status")
                       ↔ (k ∈ k0 :: keys ∧ types !! k = Some "bond/Status")).
        { rewrite elem_of_cons. naive_solver. }
        by rewrite (bool_decide_ext _ _ Hiff).
    + destruct (IH remaining extracted Hnd) as (r' & e' & -> & Hre).
      { intros k Hk. apply Hin. by right. }
      exists r', e'. split; [done|]. intros k.
      destruct (Hre k) as [-> ->].
      assert (Hiff : (k ∈ keys ∧ types !! k = Some "bond/Status")
                     ↔ (k ∈ k0 :: keys ∧ types !! k = Some "bond/Status")).
      { rewrite elem_of_cons. split; [naive_solver|].
        intros [[->|?] Hk]; [|done]. rewrite Hty in Hk. by injection Hk. }
      by rewrite (bool_decide_ext _ _ Hiff).
Qed.

Lemma extract_role_spec (types : gmap string string)
    (names : gmap string (option string)) :
  dom names ⊆ dom types →
  extract_loop types (fst <$> map_to_list names) (names, ∅)
  = Returns (filter (λ kv, types !! kv.1 ≠ Some "bond/Status") names,
             filter (λ kv, types !! kv.1 = Some "bond/Status") names).
Proof.
  intros Hsub.
  destruct (extract_loop_spec types (fst <$> map_to_list names) names ∅)
    as (r' & e' & -> & Hre).
  { apply NoDup_fst_map_to_list. }
  { intros k ([k' v] & -> & Hin)%list_elem_of_fmap.
    apply elem_of_map_to_list in Hin. cbn. split; [by eexists|].
    apply elem_of_dom, Hsub, elem_of_dom. by eexists. }
  assert (Hkeys : ∀ k, k ∈ fst <$> map_to_list names ↔ is_Some (names !! k)).
  { intros k. rewrite list_elem_of_fmap. split.
    - intros ([k' v] & -> & Hin). apply elem_of_map_to_list in Hin.
      by eexists.
    - intros [v Hv]. exists (k, v). split; [done|].
      by apply elem_of_map_to_list. }
  f_equal. f_equal; apply map_eq; intros k; destruct (Hre k) as [H1 H2].
  - rewrite H1. case_bool_decide as Hb.
    + destruct Hb as [_ Hb]. symmetry. apply map_lookup_filter_None.
      right. intros v _ Hne. by apply Hne.
    + destruct (names !! k) as [v|] eqn:Hk.
      * symmetry. apply map_lookup_filter_Some. split; [done|].
        cbn. intros Hty. apply Hb. split; [|done]. apply Hkeys. by eexists.
      * symmetry. apply map_lookup_filter_None. by left.
  - rewrite H2. case_bool_decide as Hb.
    + destruct Hb as [Hin Hb]. apply Hkeys in Hin as [v Hv]. rewrite Hv.
      symmetry. by apply map_lookup_filter_Some.
    + rewrite lookup_empty. symmetry. apply map_lookup_filter_None.
      destruct (names !! k) as [v|] eqn:Hk; [|by left].
      right. intros v' [= <-]. cbn. intros Hty. apply Hb.
      split; [|done]. apply Hkeys. by eexists.
Qed.

(** X23: for a node whose published and subscribed topics all have a
    type, the extraction of the nodelet or manager topics returns and
    splits each role in two: the topics of type [bond/Status] are the
    extracted ones, with the remaps they had, and all other topics stay. *)
Theorem nodelet_topics_are_the_bond_topics
    (published subscribed : gmap string (option string))
    (types : gmap string string) :
  dom published ⊆ dom types →
  dom subscribed ⊆ dom types →
  extract_topics_for_nodelet_or_manager published subscribed types
  = Returns
      (filter (λ kv, types !! kv.1 ≠ Some "bond/Status") published,
       filter (λ kv, types !! kv.1 ≠ Some "bond/Status") subscribed,
       filter (λ kv, types !! kv.1 = Some "bond/Status") published,
       filter (λ kv, types !! kv.1 = Some "bond/Status") subscribed).
Proof.
  intros Hp Hs. unfold extract_topics_for_nodelet_or_manager.
  rewrite (extract_role_spec types published Hp). cbn [mbind result_bind].
  rewrite (extract_role_spec types subscribed Hs). done.
Qed.

End nodelet_topics.

Lemma nodelet_topics_are_the_bond_topics_witness :
  let published : gmap string (option string) :=
    {[ "/manager/bond" := None; "/image" := None ]} in
  let types : gmap string string :=
    {[ "/manager/bond" := "bond/Status"; "/image" := "sensor_msgs/Image" ]} in
  (dom published ⊆ dom types ∧ dom (∅ : gmap string (option string)) ⊆ dom types)
  ∧ Deployment.extract_topics_for_nodelet_or_manager published ∅ types
    = Returns
        (filter (λ kv, types !! kv.1 ≠ Some "bond/Status") published,
         filter (λ kv, types !! kv.1 ≠ Some "bond/Status") ∅,
         filter (λ kv, types !! kv.1 = Some "bond/Status") published,
         filter (λ kv, types !! kv.1 = Some "bond/Status") ∅).
Proof.
  intros published types.
  assert (Hp : dom published ⊆ dom types) by set_solver.
  assert (Hs : dom (∅ : gmap string (option string)) ⊆ dom types)
    by set_solver.
  split; [by split|].
  exact (nodelet_topics_are_the_bond_topics published ∅ types Hp Hs).
Defined.

(** ** The machine of a node, read off its URI *)

Section machine_facts.
Import Deployment.
Variable str_of_list : list string → string.

Lemma contains_char_app c (a b : string) :
  PyStr.contains (String c "") (a +:+ b)
  = PyStr.contains (String c "") a || PyStr.contains (String c "") b.
Proof.
  induction a as [|x a IH].
  - change ("" +:+ b) with b. by rewrite contains_char_nil.
  - change (String x a +:+ b) with (String x (a +:+ b)).
    rewrite !contains_char_cons. by destruct (decide (c = x)).
Qed.

Lemma machine_of_address (uri : string) (lg : logger) (l : list string)
    (host port : string) :
  PyStr.contains "UNKNOWN" uri = false →
  PyStr.contains ":" host = false →
  l ≠ [] →
  (PyStr.split "/"%char uri = l ++ [host +:+ ":" +:+ port]
   ∨ PyStr.split "/"%char uri = (l ++ [host +:+ ":" +:+ port]) ++ [""]) →
  machine str_of_list uri lg = (host, lg).
Proof.
  intros Hunk Hhost Hl Hsplit. unfold machine. rewrite Hunk.
  assert (Haddr : host +:+ ":" +:+ port ≠ "") by (by destruct host).
  assert (Hfirst : first_token (PyStr.split ":"%char (host +:+ ":" +:+ port))
                   = host).
  { change (host +:+ ":" +:+ port) with (host +:+ String ":"%char port).
    by rewrite (split_app_sep ":"%char host port Hhost). }
  assert (Hlen : ∀ x : string, ¬ length (l ++ [x]) < 2).
  { intros x. rewrite length_app. destruct l; [done|]. cbn. lia. }
  destruct Hsplit as [-> | ->].
  - rewrite bool_decide_eq_false_2 by apply Hlen.
    rewrite last_token_snoc. rewrite bool_decide_eq_false_2 by done.
    by rewrite Hfirst.
  - rewrite bool_decide_eq_false_2
      by (rewrite !length_app; cbn; lia).
    rewrite last_token_snoc, bool_decide_eq_true_2 by done.
    rewrite but_last_snoc, last_token_snoc. by rewrite Hfirst.
Qed.

(** X24: a URI without [UNKNOWN] that ends, after a slash, in a host (no
    slash, no colon), a colon and a port (no slash), with or without a
    trailing slash, gives the host as the machine and logs nothing; a URI
    that contains [UNKNOWN] gives ["UNKNOWN MACHINE"] and logs nothing;
    and a URI without any slash gives ["UNKNOWN MACHINE"] and logs one
    error. *)
Theorem machine_is_the_host_of_the_uri (lg : logger) :
  (∀ pre host port,
     PyStr.contains "/" host = false → PyStr.contains ":" host = false →
     PyStr.contains "/" port = false →
     (PyStr.contains "UNKNOWN" (pre +:+ "/" +:+ host +:+ ":" +:+ port) = false →
      machine str_of_list (pre +:+ "/" +:+ host +:+ ":" +:+ port) lg
      = (host, lg))
     ∧ (PyStr.contains "UNKNOWN"
          ((pre +:+ "/" +:+ host +:+ ":" +:+ port) +:+ "/") = false →
        machine str_of_list ((pre +:+ "/" +:+ host +:+ ":" +:+ port) +:+ "/")
          lg = (host, lg)))
  ∧ (∀ uri, PyStr.contains "UNKNOWN" uri = true →
            machine str_of_list uri lg = ("UNKNOWN MACHINE", lg))
  ∧ (∀ uri, PyStr.contains "UNKNOWN" uri = false →
            PyStr.contains "/" uri = false →
            machine str_of_list uri lg
            = ("UNKNOWN MACHINE",
               lg ++ [LogRecord ERROR ("UNKNOWN MACHINE: "
                                       +:+ str_of_list [uri] +:+ ".")])).
Proof.
  split_and!.
  - intros pre host port Hh1 Hh2 Hp.
    assert (Haddr : PyStr.contains "/" (host +:+ ":" +:+ port) = false).
    { rewrite (contains_char_app "/"%char host (":" +:+ port)), Hh1.
      change (":" +:+ port) with (String ":"%char port).
      rewrite contains_char_cons. by rewrite decide_False. }
    assert (Hs1 : PyStr.split "/"%char (pre +:+ "/" +:+ host +:+ ":" +:+ port)
                  = PyStr.split "/"%char pre ++ [host +:+ ":" +:+ port]).
    { change (pre +:+ "/" +:+ host +:+ ":" +:+ port)
        with (pre +:+ String "/"%char (host +:+ ":" +:+ port)).
      by apply split_app_last. }
    split; intros Hunk.
    + eapply machine_of_address; [done..|apply split_nonempty|by left].
    + eapply machine_of_address; [done..|apply split_nonempty|right].
      change ((pre +:+ "/" +:+ host +:+ ":" +:+ port) +:+ "/")
        with ((pre +:+ "/" +:+ host +:+ ":" +:+ port) +:+ String "/"%char "").
      rewrite split_app_last by done. by rewrite Hs1.
  - intros uri Hunk. unfold machine. by rewrite Hunk.
  - intros uri Hunk Hslash. unfold machine. rewrite Hunk.
    rewrite (split_no_slash uri Hslash).
    by rewrite bool_decide_eq_true_2 by (cbn; lia).
Qed.

End machine_facts.

(** ** Updating a node specification from the deployed node *)

Section spec_update_facts.
Import Deployment.
Context {T : Type}.
Variable io_type_of : string → result T.

Lemma update_step_cases (st : update_state) (spec_name : string) :
  match update_step io_type_of st spec_name with
  | Returns st' =>
      ∃ tok ty,
        io_type_of spec_name = Returns ty
        ∧ builder_data st' = <[spec_name := Some tok]> (builder_data st)
        ∧ spec_data st' = <[tok := ty]> (spec_data st)
        ∧ (tok = spec_token_of spec_name
           ∨ ∃ k, tok = spec_token_of spec_name +:+ "_" +:+ pretty (k + 1))
  | Raises e =>
      io_type_of spec_name = Raises e ∨ e = KeyError (spec_token_of spec_name)
  end.
Proof.
  unfold update_step. destruct (io_type_of spec_name) as [ty|e];
    cbn [mbind result_bind]; [|by left].
  case_bool_decide as Hin.
  - destruct (token_map st !! spec_token_of spec_name) as [count|];
      [|by right].
    eexists _, ty. cbn. split_and!; [done..|]. right. by exists count.
  - eexists _, ty. cbn. split_and!; [done..|]. by left.
Qed.

Lemma update_loop_spec (names : list string) (st : update_state) :
  match update_loop io_type_of st names with
  | Returns st' =>
      dom (spec_data st) ⊆ dom (spec_data st')
      ∧ dom (builder_data st') = dom (builder_data st) ∪ list_to_set names
      ∧ (∀ n, n ∉ names → builder_data st' !! n = builder_data st !! n)
      ∧ (∀ n, n ∈ names →
           ∃ tok ty, io_type_of n = Returns ty
                  ∧ builder_data st' !! n = Some (Some tok)
                  ∧ tok ∈ dom (spec_data st')
                  ∧ (tok = spec_token_of n
                     ∨ ∃ k, tok = spec_token_of n +:+ "_" +:+ pretty (k + 1)))
  | Raises e =>
      ∃ n, n ∈ names
           ∧ (io_type_of n = Raises e ∨ e = KeyError (spec_token_of n))
  end.
Proof.
  revert st. induction names as [|x rest IH]; intros st.
  - cbn. split_and!; [done|set_solver| done |]. by intros n ?%elem_of_nil.
  - cbn [update_loop]. pose proof (update_step_cases st x) as Hstep.
    destruct (update_step io_type_of st x) as [st1|e];
      cbn [mbind result_bind];
      [|exists x; split; [apply list_elem_of_here | done]].
    destruct Hstep as (tok & ty & Hty & Hb & Hs & Htok).
    specialize (IH st1).
    destruct (update_loop io_type_of st1 rest) as [st'|e].
    2:{ destruct IH as (n & Hn & He). exists n.
        split; [by apply list_elem_of_further | done]. }
    destruct IH as (Hdom & Hbd & Hout & Hin).
    rewrite Hb in Hbd, Hout. rewrite Hs in Hdom.
    split_and!.
    + rewrite dom_insert in Hdom. clear -Hdom. set_solver.
    + rewrite Hbd, dom_insert_L. clear. set_solver.
    + intros n Hn. rewrite Hout by (clear -Hn; set_solver).
      apply lookup_insert_ne. clear -Hn. set_solver.
    + intros n Hn. destruct (decide (n ∈ rest)) as [Hr|Hr]; [by apply Hin|].
      assert (n = x) as -> by (clear -Hn Hr; set_solver).
      exists tok, ty. split_and!; [done| | |done].
      * rewrite Hout by done. apply lookup_insert_eq.
      * apply Hdom. rewrite dom_insert. clear. set_solver.
Qed.

Lemma update_loop_fresh (names : list string) (st : update_state) :
  NoDup (spec_token_of <$> names) →
  (∀ n, n ∈ names → spec_token_of n ∉ dom (spec_data st)) →
  (∀ n, n ∈ names → ∃ ty, io_type_of n = Returns ty) →
  ∃ st', update_loop io_type_of st names = Returns st'
         ∧ (∀ n, n ∈ names →
              builder_data st' !! n = Some (Some (spec_token_of n))
              ∧ ∃ ty, io_type_of n = Returns ty
                      ∧ spec_data st' !! spec_token_of n = Some ty)
         ∧ (∀ n, n ∉ names → builder_data st' !! n = builder_data st !! n)
         ∧ (∀ t, t ∉ spec_token_of <$> names →
              spec_data st' !! t = spec_data st !! t).
Proof.
  revert st. induction names as [|x rest IH]; intros st Hnd Hfresh Hty.
  - exists st. split_and!; [done| |done..]. by intros n ?%elem_of_nil.
  - rewrite fmap_cons in Hnd. apply NoDup_cons in Hnd as [Hx Hnd].
    cbn [update_loop]. unfold update_step.
    destruct (Hty x) as [ty Hx_ty]; [apply list_elem_of_here|].
    rewrite Hx_ty. cbn [mbind result_bind].
    rewrite bool_decide_eq_false_2
      by (apply Hfresh; apply list_elem_of_here).
    edestruct (IH {| spec_data := <[spec_token_of x := ty]> (spec_data st);
                     token_map := <[spec_token_of x := 0]> (token_map st);
                     builder_data :=
                       <[x := Some (spec_token_of x)]> (builder_data st) |})
      as (st' & Hrun & Hin & Hout & Hsp); [done| | |].
    { intros n Hn. cbn [spec_data]. rewrite dom_insert.
      assert (spec_token_of n ≠ spec_token_of x).
      { intros Heq. apply Hx. rewrite <- Heq.
        apply list_elem_of_fmap. by exists n. }
      assert (spec_token_of n ∉ dom (spec_data st))
        by (apply Hfresh; by apply list_elem_of_further).
      set_solver. }
    { intros n Hn. apply Hty. by apply list_elem_of_further. }
    cbn [spec_data builder_data] in Hout, Hsp.
    exists st'. split_and!; [done| | |].
    + intros n Hn. destruct (decide (n ∈ rest)) as [Hr|Hr]; [by apply Hin|].
      assert (n = x) as -> by (clear -Hn Hr; set_solver).
      rewrite Hout, Hsp by done. rewrite !lookup_insert_eq.
      split; [done|]. by exists ty.
    + intros n Hn. rewrite Hout by (clear -Hn; set_solver).
      apply lookup_insert_ne. clear -Hn. set_solver.
    + intros t Ht. rewrite fmap_cons in Ht.
      rewrite Hsp by (clear -Ht; set_solver).
      apply lookup_insert_ne. clear -Ht. set_solver.
Qed.

(** X25: updating a node specification from the deployed names fails only
    with the error that resolving the type of one of the names raises, or
    with the [KeyError] of the final segment of one of the names.  When it
    returns, the type of every name was resolved, the builder data has the
    names it had, every name is mapped to a token that is a key of the
    returned specification and is the final segment of the name or that
    segment followed by an underscore and a positive count, and every key
    of the specification is still one. *)
Theorem spec_update_maps_names_to_specification_keys
    (spec : gmap string T) (builder : gmap string (option string)) :
  match update_node_specification_data io_type_of spec builder with
  | Returns (spec', builder') =>
      dom builder' = dom builder
      ∧ dom spec ⊆ dom spec'
      ∧ ∀ n, n ∈ dom builder →
          ∃ tok ty, io_type_of n = Returns ty
                 ∧ builder' !! n = Some (Some tok)
                 ∧ tok ∈ dom spec'
                 ∧ (tok = spec_token_of n
                    ∨ ∃ k, tok = spec_token_of n +:+ "_" +:+ pretty (k + 1))
  | Raises e =>
      ∃ n, n ∈ dom builder
           ∧ (io_type_of n = Raises e ∨ e = KeyError (spec_token_of n))
  end.
Proof.
  unfold update_node_specification_data.
  pose proof (update_loop_spec (PyStr.sorted_set (dom builder))
                {| spec_data := spec; token_map := (λ _, 0) <$> spec;
                   builder_data := builder |}) as Hloop.
  destruct (update_loop io_type_of _ _) as [st'|e];
    cbn [mbind result_bind].
  - cbn [spec_data builder_data] in Hloop.
    destruct Hloop as (Hdom & Hbd & _ & Hin). split_and!; [|done|].
    + rewrite Hbd, list_to_set_sorted_set. clear. set_solver.
    + intros n Hn. apply Hin. by apply elem_of_sorted_set.
  - destruct Hloop as (n & Hn%elem_of_sorted_set & He). by exists n.
Qed.

(** X26: when the type of every deployed name resolves, the final
    segments of the names are pairwise distinct and none of them is a key
    of the specification, the update returns: every name is mapped to its
    final segment, the specification gives that segment the type of the
    name, and its other keys are as they were. *)
Theorem spec_update_of_distinct_new_tokens
    (spec : gmap string T) (builder : gmap string (option string)) :
  (∀ n, n ∈ dom builder → ∃ ty, io_type_of n = Returns ty) →
  (∀ n, n ∈ dom builder → spec_token_of n ∉ dom spec) →
  (∀ n m, n ∈ dom builder → m ∈ dom builder →
          spec_token_of n = spec_token_of m → n = m) →
  ∃ spec' builder',
    update_node_specification_data io_type_of spec builder
    = Returns (spec', builder')
    ∧ dom builder' = dom builder
    ∧ (∀ n, n ∈ dom builder →
         builder' !! n = Some (Some (spec_token_of n))
         ∧ ∃ ty, io_type_of n = Returns ty
                 ∧ spec' !! spec_token_of n = Some ty)
    ∧ (∀ t, (∀ n, n ∈ dom builder → spec_token_of n ≠ t) →
         spec' !! t = spec !! t).
Proof.
  intros Hty Hfresh Hinj. unfold update_node_specification_data.
  destruct (update_loop_fresh (PyStr.sorted_set (dom builder))
              {| spec_data := spec; token_map := (λ _, 0) <$> spec;
                 builder_data := builder |})
    as (st' & Hrun & Hin & Hout & Hsp).
  { apply NoDup_fmap_2_strong; [|apply NoDup_sorted_set].
    intros n m Hn%elem_of_sorted_set Hm%elem_of_sorted_set. by apply Hinj. }
  { intros n Hn%elem_of_sorted_set. by apply Hfresh. }
  { intros n Hn%elem_of_sorted_set. by apply Hty. }
  cbn [spec_data builder_data] in Hout, Hsp.
  exists (spec_data st'), (builder_data st'). rewrite Hrun.
  split_and!; [done| | |].
  - apply set_eq. intros n. rewrite !elem_of_dom.
    destruct (decide (n ∈ dom builder)) as [Hn|Hn].
    + destruct (Hin n) as [-> _]; [by apply elem_of_sorted_set|].
      apply elem_of_dom in Hn. by split.
    + rewrite Hout; [done|]. by rewrite elem_of_sorted_set.
  - intros n Hn. apply Hin. by apply elem_of_sorted_set.
  - intros t Ht. apply Hsp.
    intros (n & -> & Hn%elem_of_sorted_set)%list_elem_of_fmap.
    by apply (Ht n).
Qed.

End spec_update_facts.

Lemma spec_update_of_distinct_new_tokens_witness :
  ∃ spec' builder',
    Deployment.update_node_specification_data
      (λ _, Returns "std_msgs/String") ∅
      {[ "/robot/odom" := None; "/robot/scan" := None ]}
    = Returns (spec', builder')
    ∧ builder' !! "/robot/scan" = Some (Some "scan")
    ∧ spec' !! "scan" = Some "std_msgs/String".
Proof.
  destruct (spec_update_of_distinct_new_tokens
              (λ _, Returns "std_msgs/String") ∅
              {[ "/robot/odom" := None; "/robot/scan" := None ]})
    as (spec' & builder' & Hrun & _ & Hin & _).
  - intros n _. by exists "std_msgs/String".
  - intros n _. rewrite dom_empty. apply not_elem_of_empty.
  - intros n m Hn Hm.
    rewrite dom_insert, dom_singleton in Hn, Hm.
    apply elem_of_union in Hn as [Hn%elem_of_singleton|Hn%elem_of_singleton];
      apply elem_of_union in Hm as [Hm%elem_of_singleton|Hm%elem_of_singleton];
      subst; vm_compute; congruence.
  - exists spec', builder'. split; [exact Hrun|].
    destruct (Hin "/robot/scan") as (Hb & ty & Hty & Hs).
    { rewrite dom_insert, dom_singleton. apply elem_of_union_r.
      by apply elem_of_singleton. }
    split; [exact Hb|]. injection Hty as <-. exact Hs.
Defined.
